(** * AgentifUI: the group-permission data layer and the chat hook

    A shallow embedding of [lib/db/group-permissions.ts] and of the
    streaming orchestration of [lib/hooks/use-chat-interface.ts], with the
    chatflow hook that wraps it and the parser of the result viewer.

    - [Js]: the JavaScript values and string helpers the two files use.
    - [Supabase]: a query as the chain of builder calls that produced it,
      and a promise as the queries it issued plus the way it settled.
    - [GroupPermissions]: the fifteen exported functions of the data layer.
    - [PostgREST]: reference reading of the filters sent by
      [searchUsersForGroup].
    - [ResultType], [ChatStore]: the parts of the repository the two files
      import and that are modelled here.
    - [ChatInterface]: the hook.
    - [ChatflowInterface]: [lib/hooks/use-chatflow-interface.ts], the
      submission through the chat hook and the helpers on form data.
    - [ResultViewer]: [parseThinkContent] of
      [components/workflow/workflow-tracker/result-viewer.tsx]. *)

From Stdlib Require Import String Ascii List ZArith Bool Lia DecimalString DecimalNat.
Import ListNotations.
Open Scope string_scope.
Open Scope list_scope.

(* ================================================================== *)
(** ** JavaScript values *)
(* ================================================================== *)

Module Js.

(** JSON-like values as Supabase hands them to the application.  Numbers
    are the integers the tables hold (counts, quotas). *)
#[warnings="-register-all"]
Inductive JsVal : Type :=
| JUndefined
| JNull
| JBool (b : bool)
| JNum (z : Z)
| JStr (s : string)
| JArr (items : list JsVal)
| JObj (fields : list (string * JsVal)).

(** ToBoolean. *)
Definition truthy (v : JsVal) : bool :=
  match v with
  | JUndefined | JNull => false
  | JBool b => b
  | JNum z => negb (Z.eqb z 0)
  | JStr s => negb (String.eqb s "")
  | JArr _ | JObj _ => true
  end.

(** [a || b]. *)
Definition js_or (a b : JsVal) : JsVal := if truthy a then a else b.

Definition Array_isArray (v : JsVal) : bool :=
  match v with JArr _ => true | _ => false end.

Fixpoint lookup_field (k : string) (fs : list (string * JsVal)) : JsVal :=
  match fs with
  | [] => JUndefined
  | (k', v) :: rest => if String.eqb k k' then v else lookup_field k rest
  end.

(** [{ ...fs, k: v }] on the own properties [fs]: an existing key keeps its
    place and takes the new value, a new key goes last. *)
Fixpoint set_field (k : string) (v : JsVal) (fs : list (string * JsVal))
  : list (string * JsVal) :=
  match fs with
  | [] => [(k, v)]
  | (k', v') :: rest =>
      if String.eqb k k' then (k, v) :: rest else (k', v') :: set_field k v rest
  end.

Definition index_key (i : nat) : string :=
  NilEmpty.string_of_uint (Nat.to_uint i).

Fixpoint indexed_from (i : nat) (xs : list JsVal) : list (string * JsVal) :=
  match xs with
  | [] => []
  | x :: rest => (index_key i, x) :: indexed_from (S i) rest
  end.

Fixpoint chars_of (s : string) : list JsVal :=
  match s with
  | EmptyString => []
  | String c rest => JStr (String c EmptyString) :: chars_of rest
  end.

(** The own enumerable properties an object spread [{...v}] copies. *)
Definition own_properties (v : JsVal) : list (string * JsVal) :=
  match v with
  | JObj fs => fs
  | JArr xs => indexed_from 0 xs
  | JStr s => indexed_from 0 (chars_of s)
  | _ => []
  end.

(** A JavaScript [Error]; only its message is ever read. *)
Record Error : Type := new_Error { Error_message : string }.

(** How a call or an awaited promise completes. *)
Inductive Settled (A : Type) : Type :=
| Resolved (a : A)
| Rejected (reason : JsVal).
Arguments Resolved {A} a.
Arguments Rejected {A} reason.

Definition TypeError : JsVal := JObj [("name", JStr "TypeError")].

(** [v.k]: reading a property of [null] or [undefined] throws. *)
Definition get_prop (v : JsVal) (k : string) : Settled JsVal :=
  match v with
  | JUndefined | JNull => Rejected TypeError
  | JObj fs => Resolved (lookup_field k fs)
  | _ => Resolved JUndefined
  end.

(** [v[0]] on an array. *)
Definition first_item (xs : list JsVal) : JsVal :=
  match xs with [] => JUndefined | x :: _ => x end.

(** Strings hold a text as the bytes of its UTF-8 encoding.

    [String.prototype.trim] strips the white space and the line terminators
    of ECMAScript.  In one byte: TAB, LF, VT, FF, CR and the space. *)
Definition is_space (c : ascii) : bool :=
  let n := nat_of_ascii c in
  (Nat.eqb n 32 || Nat.eqb n 9 || Nat.eqb n 10 || Nat.eqb n 11
   || Nat.eqb n 12 || Nat.eqb n 13)%bool.

(** In two bytes: U+00A0, the no-break space. *)
Definition is_space2 (a b : ascii) : bool :=
  (Nat.eqb (nat_of_ascii a) 194 && Nat.eqb (nat_of_ascii b) 160)%bool.

(** In three bytes: U+1680, U+2000 to U+200A, U+2028, U+2029, U+202F,
    U+205F, U+3000 and U+FEFF. *)
Definition is_space3 (a b c : ascii) : bool :=
  let x := nat_of_ascii a in
  let y := nat_of_ascii b in
  let z := nat_of_ascii c in
  ((Nat.eqb x 225 && Nat.eqb y 154 && Nat.eqb z 128)
   || (Nat.eqb x 226 && Nat.eqb y 128
       && ((Nat.leb 128 z && Nat.leb z 138)
           || Nat.eqb z 168 || Nat.eqb z 169 || Nat.eqb z 175))
   || (Nat.eqb x 226 && Nat.eqb y 129 && Nat.eqb z 159)
   || (Nat.eqb x 227 && Nat.eqb y 128 && Nat.eqb z 128)
   || (Nat.eqb x 239 && Nat.eqb y 187 && Nat.eqb z 191))%bool.

(** U+00A0 and U+3000 as texts. *)
Definition no_break_space : string :=
  String (ascii_of_nat 194) (String (ascii_of_nat 160) "").

Definition ideographic_space : string :=
  String (ascii_of_nat 227) (String (ascii_of_nat 128) (String (ascii_of_nat 128) "")).

(** Strip the white space a text starts with.  With [backwards] the text is
    read from its end: its bytes come in reverse, the last byte of a
    character first. *)
Fixpoint strip (backwards : bool) (s : string) : string :=
  match s with
  | String a rest =>
      if is_space a then strip backwards rest
      else
        match rest with
        | String b rest' =>
            if (if backwards then is_space2 b a else is_space2 a b)
            then strip backwards rest'
            else
              match rest' with
              | String c rest'' =>
                  if (if backwards then is_space3 c b a else is_space3 a b c)
                  then strip backwards rest''
                  else s
              | EmptyString => s
              end
        | EmptyString => s
        end
  | EmptyString => EmptyString
  end.

Definition trim_start (s : string) : string := strip false s.

Fixpoint rev_string (acc s : string) : string :=
  match s with
  | EmptyString => acc
  | String c rest => rev_string (String c acc) rest
  end.

(** [s.trim()]. *)
Definition trim (s : string) : string :=
  rev_string "" (strip true (rev_string "" (strip false s))).

(** The UTF-16 code units of the character a byte starts: none for a
    continuation byte, two for the first byte of a character beyond
    U+FFFF. *)
Definition code_units (c : ascii) : nat :=
  let n := nat_of_ascii c in
  if Nat.ltb n 128 then 1
  else if Nat.ltb n 192 then 0
  else if Nat.ltb n 240 then 1
  else 2.

(** [s.length]: the number of UTF-16 code units of the text. *)
Fixpoint js_length (s : string) : nat :=
  match s with
  | EmptyString => 0
  | String c rest => code_units c + js_length rest
  end.

Definition nonempty (s : string) : bool := negb (String.eqb s "").

(** [s.startsWith(p)]. *)
Definition startsWith (s p : string) : bool := String.prefix p s.

(** [s.includes(p)]. *)
Fixpoint includes (s p : string) : bool :=
  (String.prefix p s
   || match s with
      | EmptyString => false
      | String _ rest => includes rest p
      end)%bool.

(** [s.replace(p, "")] with a string pattern: the first occurrence of [p]
    is dropped. *)
Fixpoint remove_first (s p : string) : string :=
  if String.prefix p s then
    String.substring (String.length p) (String.length s - String.length p) s
  else match s with
       | EmptyString => EmptyString
       | String c rest => String c (remove_first rest p)
       end.

(** [xs.join(sep)]. *)
Definition join (sep : string) (xs : list string) : string :=
  String.concat sep xs.

End Js.

(* ================================================================== *)
(** ** The Supabase client *)
(* ================================================================== *)

Module Supabase.
Import Js.

(** One call of the query builder, in the order the source chains them. *)
Inductive Call : Type :=
| QSelect (columns : string) (options : list (string * JsVal))
| QInsert (rows : JsVal)
| QUpdate (values : JsVal)
| QUpsert (rows : JsVal)
| QDelete
| QEq (column : string) (value : JsVal)
| QNot (column operator value : string)
| QOr (filters : string)
| QOrder (column : string) (ascending : bool)
| QLimit (n : nat)
| QSingle.

Inductive Source : Type :=
| from (table : string)
| rpc (fn : string) (args : list (string * JsVal)).

Record Query : Type := { source : Source; calls : list Call }.

Record PostgrestError : Type := { message : string }.

(** What an awaited query resolves to: [{ data, error, count }]. *)
Record Response : Type :=
  { data : JsVal; error : option PostgrestError; count : JsVal }.

(** The client answers a query, or the await rejects. *)
Definition Client : Type := Query -> Settled Response.

(** An asynchronous computation, observed from outside: the queries it
    sent, in order, and how it settled. *)
Record Promise (A : Type) : Type :=
  { issued : list Query; outcome : Settled A }.
Arguments issued {A} p.
Arguments outcome {A} p.

Definition ret {A} (a : A) : Promise A :=
  {| issued := []; outcome := Resolved a |}.

Definition throw {A} (e : JsVal) : Promise A :=
  {| issued := []; outcome := Rejected e |}.

Definition lift {A} (s : Settled A) : Promise A :=
  {| issued := []; outcome := s |}.

Definition bind {A B} (m : Promise A) (k : A -> Promise B) : Promise B :=
  match outcome m with
  | Resolved a =>
      {| issued := issued m ++ issued (k a); outcome := outcome (k a) |}
  | Rejected e => {| issued := issued m; outcome := Rejected e |}
  end.

Definition await (supabase : Client) (q : Query) : Promise Response :=
  {| issued := [q]; outcome := supabase q |}.

(** [try { body } catch (error) { handler }]. *)
Definition try_catch {A} (body : Promise A) (handler : JsVal -> Promise A)
  : Promise A :=
  match outcome body with
  | Resolved a => body
  | Rejected e =>
      {| issued := issued body ++ issued (handler e);
         outcome := outcome (handler e) |}
  end.

(** [Promise.all] over callbacks that were all started: every query is
    sent, and the result rejects as soon as one of them does. *)
Fixpoint Promise_all {A} (ps : list (Promise A)) : Promise (list A) :=
  match ps with
  | [] => ret []
  | p :: rest =>
      let r := Promise_all rest in
      {| issued := issued p ++ issued r;
         outcome :=
           match outcome p, outcome r with
           | Resolved a, Resolved l => Resolved (a :: l)
           | Rejected e, _ => Rejected e
           | Resolved _, Rejected e => Rejected e
           end |}
  end.

(** [xs.map(f)] throws when [xs] is not an array. *)
Definition as_array (v : JsVal) : Settled (list JsVal) :=
  match v with
  | JArr xs => Resolved xs
  | _ => Rejected TypeError
  end.

End Supabase.

(* ================================================================== *)
(** ** lib/types/result *)
(* ================================================================== *)

Module ResultType.
Import Js.

(** Modelled from the spec: [Result<T>] of [lib/types/result], which is not
    among the sources; the data layer returns "a Result<T> wrapper", built
    by [success(data)] or [failure(error)]. *)
Inductive Result (T : Type) : Type :=
| success (value : T)
| failure (err : Error).
Arguments success {T} value.
Arguments failure {T} err.

End ResultType.

(* ================================================================== *)
(** ** lib/db/group-permissions.ts *)
(* ================================================================== *)

Module GroupPermissions.
Import Js Supabase ResultType.

Notation "x <- c1 ;; c2" := (bind c1 (fun x => c2))
  (at level 61, c1 at next level, right associativity).

(** What the functions take from outside: [createClient()] (which may
    throw) and the clock read by [new Date().toISOString()]. *)
Record Env : Type :=
  { createClient : Settled Client;
    new_Date_toISOString : string }.

Definition members_select : string :=
  "
        *,
        user:profiles(id, username, full_name, email)
      ".

Definition permissions_select : string :=
  "
        *,
        app:service_instances(id, display_name, instance_id, visibility)
      ".

Definition upsert_select : string :=
  "
          *,
          app:service_instances(id, display_name, instance_id, visibility)
        ".

Definition of_optional_string (s : option string) : JsVal :=
  match s with Some x => JStr x | None => JUndefined end.

Section Functions.
Variable env : Env.

(** The callback of [getGroups] that counts the members of one group. *)
Definition count_members (supabase : Client) (group : JsVal) : Promise JsVal :=
  group_id <- lift (get_prop group "id") ;;
  r <- await supabase
         {| source := from "group_members";
            calls := [QSelect "*" [("count", JStr "exact"); ("head", JBool true)];
                      QEq "group_id" group_id] |} ;;
  match error r with
  | Some countError =>
      ret (JObj (set_field "member_count" (JNum 0) (own_properties group)))
  | None =>
      ret (JObj (set_field "member_count" (js_or (count r) (JNum 0))
                   (own_properties group)))
  end.

Definition getGroups : Promise (Result JsVal) :=
  try_catch
    (supabase <- lift (createClient env) ;;
     r <- await supabase
            {| source := from "groups";
               calls := [QSelect "*" []; QOrder "created_at" false] |} ;;
     match error r with
     | Some groupsError => ret (failure (new_Error (message groupsError)))
     | None =>
         rows <- lift (as_array (js_or (data r) (JArr []))) ;;
         groups <- Promise_all (map (count_members supabase) rows) ;;
         ret (success (JArr groups))
     end)
    (fun _ => ret (failure (new_Error "获取群组列表失败"))).

Definition createGroup (name : string) (description : option string)
  : Promise (Result JsVal) :=
  try_catch
    (supabase <- lift (createClient env) ;;
     r <- await supabase
            {| source := from "groups";
               calls :=
                 [QInsert
                    (JArr [JObj [("name", JStr name);
                                 ("description",
                                  js_or (of_optional_string description) JNull)]]);
                  QSelect "*" [];
                  QSingle] |} ;;
     match error r with
     | Some e => ret (failure (new_Error (message e)))
     | None => ret (success (data r))
     end)
    (fun _ => ret (failure (new_Error "创建群组失败"))).

Definition updateGroup (groupId : string) (values : JsVal)
  : Promise (Result JsVal) :=
  try_catch
    (supabase <- lift (createClient env) ;;
     r <- await supabase
            {| source := from "groups";
               calls := [QUpdate values; QEq "id" (JStr groupId);
                         QSelect "*" []; QSingle] |} ;;
     match error r with
     | Some e => ret (failure (new_Error (message e)))
     | None => ret (success (data r))
     end)
    (fun _ => ret (failure (new_Error "更新群组失败"))).

Definition deleteGroup (groupId : string) : Promise (Result JsVal) :=
  try_catch
    (supabase <- lift (createClient env) ;;
     r <- await supabase
            {| source := from "groups";
               calls := [QDelete; QEq "id" (JStr groupId)] |} ;;
     match error r with
     | Some e => ret (failure (new_Error (message e)))
     | None => ret (success JUndefined)
     end)
    (fun _ => ret (failure (new_Error "删除群组失败"))).

Definition getGroupMembers (groupId : string) : Promise (Result JsVal) :=
  try_catch
    (supabase <- lift (createClient env) ;;
     r <- await supabase
            {| source := from "group_members";
               calls := [QSelect members_select [];
                         QEq "group_id" (JStr groupId);
                         QOrder "created_at" false] |} ;;
     match error r with
     | Some e => ret (failure (new_Error (message e)))
     | None => ret (success (js_or (data r) (JArr [])))
     end)
    (fun _ => ret (failure (new_Error "获取群组成员失败"))).

Definition addGroupMember (groupId userId : string) : Promise (Result JsVal) :=
  try_catch
    (supabase <- lift (createClient env) ;;
     r <- await supabase
            {| source := from "group_members";
               calls :=
                 [QInsert (JArr [JObj [("group_id", JStr groupId);
                                       ("user_id", JStr userId)]]);
                  QSelect members_select [];
                  QSingle] |} ;;
     match error r with
     | Some e => ret (failure (new_Error (message e)))
     | None => ret (success (data r))
     end)
    (fun _ => ret (failure (new_Error "添加群组成员失败"))).

Definition removeGroupMember (groupId userId : string)
  : Promise (Result JsVal) :=
  try_catch
    (supabase <- lift (createClient env) ;;
     r <- await supabase
            {| source := from "group_members";
               calls := [QDelete; QEq "group_id" (JStr groupId);
                         QEq "user_id" (JStr userId)] |} ;;
     match error r with
     | Some e => ret (failure (new_Error (message e)))
     | None => ret (success JUndefined)
     end)
    (fun _ => ret (failure (new_Error "移除群组成员失败"))).

Definition getGroupAppPermissions (groupId : string)
  : Promise (Result JsVal) :=
  try_catch
    (supabase <- lift (createClient env) ;;
     r <- await supabase
            {| source := from "group_app_permissions";
               calls := [QSelect permissions_select [];
                         QEq "group_id" (JStr groupId);
                         QOrder "created_at" false] |} ;;
     match error r with
     | Some e => ret (failure (new_Error (message e)))
     | None => ret (success (js_or (data r) (JArr [])))
     end)
    (fun _ => ret (failure (new_Error "获取群组应用权限失败"))).

(** The record the disable branch of [setGroupAppPermission] returns. *)
Definition disabled_record (groupId serviceInstanceId : string) : JsVal :=
  JObj [("id", JStr "");
        ("group_id", JStr groupId);
        ("service_instance_id", JStr serviceInstanceId);
        ("is_enabled", JBool false);
        ("usage_quota", JNull);
        ("used_count", JNum 0);
        ("created_at", JStr (new_Date_toISOString env));
        ("app", JUndefined)].

Definition setGroupAppPermission
  (groupId serviceInstanceId : string) (is_enabled : bool) (usage_quota : JsVal)
  : Promise (Result JsVal) :=
  try_catch
    (supabase <- lift (createClient env) ;;
     if is_enabled then
       r <- await supabase
              {| source := from "group_app_permissions";
                 calls :=
                   [QUpsert
                      (JArr [JObj [("group_id", JStr groupId);
                                   ("service_instance_id", JStr serviceInstanceId);
                                   ("is_enabled", JBool true);
                                   ("usage_quota", js_or usage_quota JNull)]]);
                    QSelect upsert_select [];
                    QSingle] |} ;;
       match error r with
       | Some e => ret (failure (new_Error (message e)))
       | None => ret (success (data r))
       end
     else
       r <- await supabase
              {| source := from "group_app_permissions";
                 calls := [QDelete; QEq "group_id" (JStr groupId);
                           QEq "service_instance_id" (JStr serviceInstanceId)] |} ;;
       match error r with
       | Some e => ret (failure (new_Error (message e)))
       | None => ret (success (disabled_record groupId serviceInstanceId))
       end)
    (fun _ => ret (failure (new_Error "设置群组应用权限失败"))).

Definition removeGroupAppPermission (groupId serviceInstanceId : string)
  : Promise (Result JsVal) :=
  try_catch
    (supabase <- lift (createClient env) ;;
     r <- await supabase
            {| source := from "group_app_permissions";
               calls := [QDelete; QEq "group_id" (JStr groupId);
                         QEq "service_instance_id" (JStr serviceInstanceId)] |} ;;
     match error r with
     | Some e => ret (failure (new_Error (message e)))
     | None => ret (success JUndefined)
     end)
    (fun _ => ret (failure (new_Error "删除群组应用权限失败"))).

Definition removeAllGroupAppPermissions (serviceInstanceId : string)
  : Promise (Result JsVal) :=
  try_catch
    (supabase <- lift (createClient env) ;;
     r <- await supabase
            {| source := from "group_app_permissions";
               calls := [QDelete;
                         QEq "service_instance_id" (JStr serviceInstanceId)] |} ;;
     match error r with
     | Some e => ret (failure (new_Error (message e)))
     | None => ret (success JUndefined)
     end)
    (fun _ => ret (failure (new_Error "删除应用的所有组权限失败"))).

Definition getUserAccessibleApps (userId : string) : Promise (Result JsVal) :=
  try_catch
    (supabase <- lift (createClient env) ;;
     r <- await supabase
            {| source := rpc "get_user_accessible_apps"
                             [("p_user_id", JStr userId)];
               calls := [] |} ;;
     match error r with
     | Some e => ret (failure (new_Error (message e)))
     | None => ret (success (js_or (data r) (JArr [])))
     end)
    (fun _ => ret (failure (new_Error "获取应用列表失败"))).

(** [Array.isArray(data) ? data[0] : data]. *)
Definition first_row (d : JsVal) : JsVal :=
  match d with
  | JArr xs => first_item xs
  | _ => d
  end.

Definition no_permission_row : JsVal :=
  JObj [("has_access", JBool false);
        ("quota_remaining", JNull);
        ("error_message", JStr "权限检查失败")].

Definition checkUserAppPermission (userId serviceInstanceId : string)
  : Promise (Result JsVal) :=
  try_catch
    (supabase <- lift (createClient env) ;;
     r <- await supabase
            {| source := rpc "check_user_app_permission"
                             [("p_user_id", JStr userId);
                              ("p_service_instance_id", JStr serviceInstanceId)];
               calls := [] |} ;;
     match error r with
     | Some e => ret (failure (new_Error (message e)))
     | None =>
         let result := first_row (data r) in
         if negb (truthy result) then ret (success no_permission_row)
         else ret (success result)
     end)
    (fun _ => ret (failure (new_Error "权限检查失败"))).

(** [increment: number = 1]: an omitted argument takes the default. *)
Definition incrementAppUsage
  (userId serviceInstanceId : string) (increment : option Z)
  : Promise (Result JsVal) :=
  let increment := match increment with Some n => n | None => 1%Z end in
  try_catch
    (supabase <- lift (createClient env) ;;
     r <- await supabase
            {| source := rpc "increment_app_usage"
                             [("p_user_id", JStr userId);
                              ("p_service_instance_id", JStr serviceInstanceId);
                              ("p_increment", JNum increment)];
               calls := [] |} ;;
     match error r with
     | Some e => ret (failure (new_Error (message e)))
     | None => ret (success (first_row (data r)))
     end)
    (fun _ => ret (failure (new_Error "使用计数更新失败"))).

(** The chain [searchUsersForGroup] builds before awaiting it. *)
Definition search_query (searchTerm : string) (excludeUserIds : list string)
  : Query :=
  let query := [QSelect "id, username, full_name, email, avatar_url, role, status" [];
                QEq "status" (JStr "active");
                QLimit 20] in
  let query :=
    if Nat.ltb 0 (List.length excludeUserIds)
    then query ++ [QNot "id" "in" ("(" ++ join "," excludeUserIds ++ ")")]
    else query in
  let query :=
    if nonempty (trim searchTerm)
    then query ++ [QOr ("username.ilike.%" ++ searchTerm
                        ++ "%,full_name.ilike.%" ++ searchTerm
                        ++ "%,email.ilike.%" ++ searchTerm ++ "%")]
    else query in
  {| source := from "profiles";
     calls := query ++ [QOrder "created_at" false] |}.

(** [excludeUserIds: string[] = []]. *)
Definition searchUsersForGroup
  (searchTerm : string) (excludeUserIds : option (list string))
  : Promise (Result JsVal) :=
  let excludeUserIds := match excludeUserIds with Some l => l | None => [] end in
  try_catch
    (supabase <- lift (createClient env) ;;
     r <- await supabase (search_query searchTerm excludeUserIds) ;;
     match error r with
     | Some e => ret (failure (new_Error (message e)))
     | None => ret (success (js_or (data r) (JArr [])))
     end)
    (fun _ => ret (failure (new_Error "搜索用户失败"))).

End Functions.

(** *** The exported interface as a whole *)

(** A call of one of the fifteen exported functions, with its arguments. *)
Inductive Invocation : Type :=
| call_getGroups
| call_createGroup (name : string) (description : option string)
| call_updateGroup (groupId : string) (values : JsVal)
| call_deleteGroup (groupId : string)
| call_getGroupMembers (groupId : string)
| call_addGroupMember (groupId userId : string)
| call_removeGroupMember (groupId userId : string)
| call_getGroupAppPermissions (groupId : string)
| call_setGroupAppPermission (groupId serviceInstanceId : string)
    (is_enabled : bool) (usage_quota : JsVal)
| call_removeGroupAppPermission (groupId serviceInstanceId : string)
| call_removeAllGroupAppPermissions (serviceInstanceId : string)
| call_getUserAccessibleApps (userId : string)
| call_checkUserAppPermission (userId serviceInstanceId : string)
| call_incrementAppUsage (userId serviceInstanceId : string) (increment : option Z)
| call_searchUsersForGroup (searchTerm : string)
    (excludeUserIds : option (list string)).

Definition run (env : Env) (c : Invocation) : Promise (Result JsVal) :=
  match c with
  | call_getGroups => getGroups env
  | call_createGroup n d => createGroup env n d
  | call_updateGroup g v => updateGroup env g v
  | call_deleteGroup g => deleteGroup env g
  | call_getGroupMembers g => getGroupMembers env g
  | call_addGroupMember g u => addGroupMember env g u
  | call_removeGroupMember g u => removeGroupMember env g u
  | call_getGroupAppPermissions g => getGroupAppPermissions env g
  | call_setGroupAppPermission g s e q => setGroupAppPermission env g s e q
  | call_removeGroupAppPermission g s => removeGroupAppPermission env g s
  | call_removeAllGroupAppPermissions s => removeAllGroupAppPermissions env s
  | call_getUserAccessibleApps u => getUserAccessibleApps env u
  | call_checkUserAppPermission u s => checkUserAppPermission env u s
  | call_incrementAppUsage u s i => incrementAppUsage env u s i
  | call_searchUsersForGroup t x => searchUsersForGroup env t x
  end.

(** The message of the [Error] built in the [catch] block of each function. *)
Definition catch_message (c : Invocation) : string :=
  match c with
  | call_getGroups => "获取群组列表失败"
  | call_createGroup _ _ => "创建群组失败"
  | call_updateGroup _ _ => "更新群组失败"
  | call_deleteGroup _ => "删除群组失败"
  | call_getGroupMembers _ => "获取群组成员失败"
  | call_addGroupMember _ _ => "添加群组成员失败"
  | call_removeGroupMember _ _ => "移除群组成员失败"
  | call_getGroupAppPermissions _ => "获取群组应用权限失败"
  | call_setGroupAppPermission _ _ _ _ => "设置群组应用权限失败"
  | call_removeGroupAppPermission _ _ => "删除群组应用权限失败"
  | call_removeAllGroupAppPermissions _ => "删除应用的所有组权限失败"
  | call_getUserAccessibleApps _ => "获取应用列表失败"
  | call_checkUserAppPermission _ _ => "权限检查失败"
  | call_incrementAppUsage _ _ _ => "使用计数更新失败"
  | call_searchUsersForGroup _ _ => "搜索用户失败"
  end.

(** The functions whose result is the list of rows of their query. *)
Definition returns_rows (c : Invocation) : bool :=
  match c with
  | call_getGroupMembers _ | call_getGroupAppPermissions _
  | call_getUserAccessibleApps _ | call_searchUsersForGroup _ _ => true
  | _ => false
  end.

(** What a success carries, as a function of the [data] of the answer to the
    function's query ([getGroups], which sends further queries, apart). *)
Definition carried (env : Env) (c : Invocation) (d : JsVal) : JsVal :=
  match c with
  | call_getGroups => d
  | call_createGroup _ _ | call_updateGroup _ _ | call_addGroupMember _ _ => d
  | call_deleteGroup _ | call_removeGroupMember _ _
  | call_removeGroupAppPermission _ _
  | call_removeAllGroupAppPermissions _ => JUndefined
  | call_getGroupMembers _ | call_getGroupAppPermissions _
  | call_getUserAccessibleApps _ | call_searchUsersForGroup _ _ =>
      js_or d (JArr [])
  | call_setGroupAppPermission g s e _ =>
      if e then d else disabled_record env g s
  | call_checkUserAppPermission _ _ =>
      if truthy (first_row d) then first_row d else no_permission_row
  | call_incrementAppUsage _ _ _ => first_row d
  end.

(** *** Sample clients *)

(** A client that lists one group and reports an error for every other
    query, the member count among them. *)
Definition counting_fails : Client :=
  fun q =>
    match source q with
    | from table =>
        if String.eqb table "groups"
        then Resolved {| data := JArr [JObj [("id", JStr "g1"); ("name", JStr "staff")]];
                         error := None; count := JNull |}
        else Resolved {| data := JNull;
                         error := Some {| message := "permission denied" |};
                         count := JNull |}
    | rpc _ _ => Rejected JUndefined
    end.

(** A client that answers every query with no rows and no error. *)
Definition answers_nothing : Client :=
  fun _ => Resolved {| data := JNull; error := None; count := JNull |}.

(** A client that answers every query with the given data and no error. *)
Definition answers_rows (rows : JsVal) : Client :=
  fun _ => Resolved {| data := rows; error := None; count := JNull |}.

Definition sample_env (supabase : Client) : Env :=
  {| createClient := Resolved supabase;
     new_Date_toISOString := "2025-01-01T00:00:00.000Z" |}.

(** *** The queries of getGroups *)

(** The query [getGroups] starts with. *)
Definition groups_query : Query :=
  {| source := from "groups";
     calls := [QSelect "*" []; QOrder "created_at" false] |}.

(** The query that counts the members of the group with the given id. *)
Definition count_query (group_id : JsVal) : Query :=
  {| source := from "group_members";
     calls := [QSelect "*" [("count", JStr "exact"); ("head", JBool true)];
               QEq "group_id" group_id] |}.

(** [count || 0] of an answered count query, 0 when it reports an error. *)
Definition member_count_of (answer : Settled Response) : JsVal :=
  match answer with
  | Resolved r =>
      match error r with
      | Some _ => JNum 0
      | None => js_or (count r) (JNum 0)
      end
  | Rejected _ => JNum 0
  end.

(** *** Reads and writes *)

(** The builder calls that change rows. *)
Definition is_write (c : Call) : bool :=
  match c with
  | QInsert _ | QUpdate _ | QUpsert _ | QDelete => true
  | _ => false
  end.

(** The builder calls that change or remove existing rows. *)
Definition changes_rows (c : Call) : bool :=
  match c with
  | QUpdate _ | QDelete => true
  | _ => false
  end.

(** Whether a call restricts a query to the rows whose column equals a
    string. *)
Definition is_eq_filter (c : Call) : bool :=
  match c with
  | QEq _ (JStr _) => true
  | _ => false
  end.

(** The functions that only read. *)
Definition reads_only (c : Invocation) : bool :=
  match c with
  | call_getGroups | call_getGroupMembers _ | call_getGroupAppPermissions _
  | call_searchUsersForGroup _ _ => true
  | _ => false
  end.

End GroupPermissions.

(* ================================================================== *)
(** ** lib/stores/chat-store.ts *)
(* ================================================================== *)

Module ChatStore.
Import Js.

(** Modelled from the spec: the persistence status of a message, "client-side
    enum (pending, saved, error)"; the declaration in
    [lib/stores/chat-store.ts] is not among the sources. *)
Inductive PersistenceStatus : Type := pending | saved | error.

Definition status_eqb (a b : PersistenceStatus) : bool :=
  match a, b with
  | pending, pending | saved, saved | error, error => true
  | _, _ => false
  end.

(** Modelled from the spec: a chat message ("user/assistant turn, persistence
    status, optional token_count and metadata"), with the fields the hook
    reads and writes.  [error_text] is the message's [error] field. *)
Record ChatMessage : Type :=
  { id : string;
    text : string;
    isUser : bool;
    isStreaming : bool;
    wasManuallyStopped : bool;
    persistenceStatus : option PersistenceStatus;
    db_id : option string;
    metadata : JsVal;
    error_text : option string;
    token_count : JsVal;
    attachments : JsVal }.

(** The argument of [addMessage]: a message without its id. *)
Record NewMessage : Type :=
  { new_text : string;
    new_isUser : bool;
    new_isStreaming : bool;
    new_error : option string;
    new_persistenceStatus : option PersistenceStatus;
    new_attachments : JsVal }.

(** The argument of [updateMessage]: the fields to overwrite. *)
Record Patch : Type :=
  { set_metadata : option JsVal;
    set_token_count : option JsVal;
    set_wasManuallyStopped : option bool;
    set_persistenceStatus : option PersistenceStatus }.

Definition status_patch (s : PersistenceStatus) : Patch :=
  {| set_metadata := None; set_token_count := None;
     set_wasManuallyStopped := None; set_persistenceStatus := Some s |}.

Record ChatState : Type :=
  { messages : list ChatMessage;
    streamingMessageId : option string;
    isWaitingForResponse : bool;
    currentConversationId : option string;
    currentTaskId : option string;
    nextMessage : nat }.

(** [messages.find(m => m.id === id)]. *)
Definition find_message (i : string) (s : ChatState) : option ChatMessage :=
  List.find (fun m => String.eqb (id m) i) (messages s).

Definition map_message (i : string) (f : ChatMessage -> ChatMessage)
  (s : ChatState) : ChatState :=
  {| messages := map (fun m => if String.eqb (id m) i then f m else m) (messages s);
     streamingMessageId := streamingMessageId s;
     isWaitingForResponse := isWaitingForResponse s;
     currentConversationId := currentConversationId s;
     currentTaskId := currentTaskId s;
     nextMessage := nextMessage s |}.

Definition set_streamingMessageId (v : option string) (s : ChatState) : ChatState :=
  {| messages := messages s;
     streamingMessageId := v;
     isWaitingForResponse := isWaitingForResponse s;
     currentConversationId := currentConversationId s;
     currentTaskId := currentTaskId s;
     nextMessage := nextMessage s |}.

(** Modelled from the spec: the store's actions are not among the sources;
    each is modelled by what its name and its uses in the hook say. *)
Definition setIsWaitingForResponse (b : bool) (s : ChatState) : ChatState :=
  {| messages := messages s;
     streamingMessageId := streamingMessageId s;
     isWaitingForResponse := b;
     currentConversationId := currentConversationId s;
     currentTaskId := currentTaskId s;
     nextMessage := nextMessage s |}.

Definition setCurrentConversationId (v : option string) (s : ChatState) : ChatState :=
  {| messages := messages s;
     streamingMessageId := streamingMessageId s;
     isWaitingForResponse := isWaitingForResponse s;
     currentConversationId := v;
     currentTaskId := currentTaskId s;
     nextMessage := nextMessage s |}.

Definition setCurrentTaskId (v : option string) (s : ChatState) : ChatState :=
  {| messages := messages s;
     streamingMessageId := streamingMessageId s;
     isWaitingForResponse := isWaitingForResponse s;
     currentConversationId := currentConversationId s;
     currentTaskId := v;
     nextMessage := nextMessage s |}.

Definition message_id (n : nat) : string := "msg-" ++ index_key n.

(** Modelled from the spec: [addMessage] appends the message under a fresh id
    and returns it. *)
Definition addMessage (m : NewMessage) (s : ChatState) : ChatState * ChatMessage :=
  let msg :=
    {| id := message_id (nextMessage s);
       text := new_text m;
       isUser := new_isUser m;
       isStreaming := new_isStreaming m;
       wasManuallyStopped := false;
       persistenceStatus := new_persistenceStatus m;
       db_id := None;
       metadata := JUndefined;
       error_text := new_error m;
       token_count := JUndefined;
       attachments := new_attachments m |} in
  ({| messages := messages s ++ [msg];
      streamingMessageId := streamingMessageId s;
      isWaitingForResponse := isWaitingForResponse s;
      currentConversationId := currentConversationId s;
      currentTaskId := currentTaskId s;
      nextMessage := S (nextMessage s) |}, msg).

Definition with_text (t : string) (m : ChatMessage) : ChatMessage :=
  {| id := id m; text := t; isUser := isUser m; isStreaming := isStreaming m;
     wasManuallyStopped := wasManuallyStopped m;
     persistenceStatus := persistenceStatus m; db_id := db_id m;
     metadata := metadata m; error_text := error_text m;
     token_count := token_count m; attachments := attachments m |}.

Definition with_flags (streaming stopped : bool) (m : ChatMessage) : ChatMessage :=
  {| id := id m; text := text m; isUser := isUser m; isStreaming := streaming;
     wasManuallyStopped := stopped;
     persistenceStatus := persistenceStatus m; db_id := db_id m;
     metadata := metadata m; error_text := error_text m;
     token_count := token_count m; attachments := attachments m |}.

Definition with_error (e : string) (m : ChatMessage) : ChatMessage :=
  {| id := id m; text := text m; isUser := isUser m; isStreaming := false;
     wasManuallyStopped := wasManuallyStopped m;
     persistenceStatus := persistenceStatus m; db_id := db_id m;
     metadata := metadata m; error_text := Some e;
     token_count := token_count m; attachments := attachments m |}.

Definition apply_patch (p : Patch) (m : ChatMessage) : ChatMessage :=
  {| id := id m; text := text m; isUser := isUser m; isStreaming := isStreaming m;
     wasManuallyStopped :=
       match set_wasManuallyStopped p with Some b => b | None => wasManuallyStopped m end;
     persistenceStatus :=
       match set_persistenceStatus p with Some x => Some x | None => persistenceStatus m end;
     db_id := db_id m;
     metadata :=
       match set_metadata p with Some x => x | None => metadata m end;
     error_text := error_text m;
     token_count :=
       match set_token_count p with Some x => x | None => token_count m end;
     attachments := attachments m |}.

(** Modelled from the spec: [appendMessageChunk(id, chunk)] appends the chunk
    to the text of message [id]. *)
Definition appendMessageChunk (i chunk : string) (s : ChatState) : ChatState :=
  map_message i (fun m => with_text (text m ++ chunk) m) s.

Definition release_stream (i : string) (s : ChatState) : ChatState :=
  match streamingMessageId s with
  | Some j => if String.eqb j i then set_streamingMessageId None s else s
  | None => s
  end.

(** Modelled from the spec: [finalizeStreamingMessage(id)] clears the
    streaming flag of message [id] and, when that message is the one being
    streamed, the store's [streamingMessageId]. *)
Definition finalizeStreamingMessage (i : string) (s : ChatState) : ChatState :=
  release_stream i (map_message i (fun m => with_flags false (wasManuallyStopped m) m) s).

(** Modelled from the spec: [markAsManuallyStopped(id)] ends the streaming of
    message [id] and flags it as stopped by the user. *)
Definition markAsManuallyStopped (i : string) (s : ChatState) : ChatState :=
  release_stream i (map_message i (with_flags false true) s).

(** Modelled from the spec: [setMessageError(id, error)] records the error on
    message [id] and ends its streaming. *)
Definition setMessageError (i e : string) (s : ChatState) : ChatState :=
  release_stream i (map_message i (with_error e) s).

(** Modelled from the spec: [updateMessage(id, patch)] overwrites the given
    fields of message [id]. *)
Definition updateMessage (i : string) (p : Patch) (s : ChatState) : ChatState :=
  map_message i (apply_patch p) s.

(** Modelled from the spec: [selectIsProcessing], "the chat store reports
    processing": a reply is awaited or being streamed. *)
Definition selectIsProcessing (s : ChatState) : bool :=
  (isWaitingForResponse s
   || match streamingMessageId s with Some _ => true | None => false end)%bool.

End ChatStore.

(* ================================================================== *)
(** ** lib/hooks/use-chat-interface.ts *)
(* ================================================================== *)

Module ChatInterface.
Import Js ResultType ChatStore.

Definition CHUNK_APPEND_INTERVAL : Z := 30.

(** The period handed to [setInterval(checkStreamingState, 10000)]. *)
Definition STREAMING_CHECK_PERIOD : Z := 10000.

(** The value held by [lastStreamingCheckRef]. *)
Record StreamingCheck : Type :=
  { messageId : string; content : string; lastUpdateTime : Z }.

(** A row of the conversations table as the hook reads it:
    [result.data.id] and [result.data.app_id]. *)
Record Conversation : Type :=
  { conversation_uuid : string; app_id : option string }.

(** Calls that leave the hook, recorded in the order they are made: to the
    services, the router, the sidebar, and the store's [updateMessage]. *)
Inductive Effect : Type :=
| call_getConversationByExternalId (externalId : string)
| call_saveMessage (m : ChatMessage) (conversationId : string)
| call_saveStoppedAssistantMessage (m : ChatMessage) (conversationId : string)
| call_saveErrorPlaceholder (conversationId status errorText : string)
| call_stopDifyStreamingTask (appId taskId user : string)
| call_validateConfig (appId context : string)
| call_ensureAppReady
| call_initiateNewConversation (payload : JsVal) (appId user : string)
| call_streamDifyChat (payload : JsVal) (appId : string)
| call_router_replace (path : string)
| call_history_replaceState (path : string)
| call_updatePendingStatus (conversationId status : string)
| call_selectItem (kind conversationId : string)
| call_updateMessage (message : string) (fields : Patch).

(** Everything the hook owns or reaches: the chat store, its three pieces of
    React state, its refs, the welcome-screen flag of the input store, the
    browser's path, and the calls made so far.  [appendTimerRef] holds
    [Some true] for a pending timeout, [Some false] for the handle of a
    timeout that was cleared without resetting the ref. *)
Record Hook : Type :=
  { store : ChatState;
    difyConversationId : option string;
    dbConversationUUID : option string;
    conversationAppId : option string;
    isSubmittingRef : bool;
    chunkBufferRef : string;
    appendTimerRef : option bool;
    lastStreamingCheckRef : option StreamingCheck;
    isWelcomeScreen : bool;
    location_pathname : string;
    trace : list Effect }.

Definition with_store (f : ChatState -> ChatState) (h : Hook) : Hook :=
  {| store := f (store h);
     difyConversationId := difyConversationId h;
     dbConversationUUID := dbConversationUUID h;
     conversationAppId := conversationAppId h;
     isSubmittingRef := isSubmittingRef h;
     chunkBufferRef := chunkBufferRef h;
     appendTimerRef := appendTimerRef h;
     lastStreamingCheckRef := lastStreamingCheckRef h;
     isWelcomeScreen := isWelcomeScreen h;
     location_pathname := location_pathname h;
     trace := trace h |}.

Definition setDifyConversationId (v : option string) (h : Hook) : Hook :=
  {| store := store h;
     difyConversationId := v;
     dbConversationUUID := dbConversationUUID h;
     conversationAppId := conversationAppId h;
     isSubmittingRef := isSubmittingRef h;
     chunkBufferRef := chunkBufferRef h;
     appendTimerRef := appendTimerRef h;
     lastStreamingCheckRef := lastStreamingCheckRef h;
     isWelcomeScreen := isWelcomeScreen h;
     location_pathname := location_pathname h;
     trace := trace h |}.

Definition setDbConversationUUID (v : option string) (h : Hook) : Hook :=
  {| store := store h;
     difyConversationId := difyConversationId h;
     dbConversationUUID := v;
     conversationAppId := conversationAppId h;
     isSubmittingRef := isSubmittingRef h;
     chunkBufferRef := chunkBufferRef h;
     appendTimerRef := appendTimerRef h;
     lastStreamingCheckRef := lastStreamingCheckRef h;
     isWelcomeScreen := isWelcomeScreen h;
     location_pathname := location_pathname h;
     trace := trace h |}.

Definition setConversationAppId (v : option string) (h : Hook) : Hook :=
  {| store := store h;
     difyConversationId := difyConversationId h;
     dbConversationUUID := dbConversationUUID h;
     conversationAppId := v;
     isSubmittingRef := isSubmittingRef h;
     chunkBufferRef := chunkBufferRef h;
     appendTimerRef := appendTimerRef h;
     lastStreamingCheckRef := lastStreamingCheckRef h;
     isWelcomeScreen := isWelcomeScreen h;
     location_pathname := location_pathname h;
     trace := trace h |}.

Definition set_isSubmittingRef (v : bool) (h : Hook) : Hook :=
  {| store := store h;
     difyConversationId := difyConversationId h;
     dbConversationUUID := dbConversationUUID h;
     conversationAppId := conversationAppId h;
     isSubmittingRef := v;
     chunkBufferRef := chunkBufferRef h;
     appendTimerRef := appendTimerRef h;
     lastStreamingCheckRef := lastStreamingCheckRef h;
     isWelcomeScreen := isWelcomeScreen h;
     location_pathname := location_pathname h;
     trace := trace h |}.

Definition set_chunkBufferRef (v : string) (h : Hook) : Hook :=
  {| store := store h;
     difyConversationId := difyConversationId h;
     dbConversationUUID := dbConversationUUID h;
     conversationAppId := conversationAppId h;
     isSubmittingRef := isSubmittingRef h;
     chunkBufferRef := v;
     appendTimerRef := appendTimerRef h;
     lastStreamingCheckRef := lastStreamingCheckRef h;
     isWelcomeScreen := isWelcomeScreen h;
     location_pathname := location_pathname h;
     trace := trace h |}.

Definition set_appendTimerRef (v : option bool) (h : Hook) : Hook :=
  {| store := store h;
     difyConversationId := difyConversationId h;
     dbConversationUUID := dbConversationUUID h;
     conversationAppId := conversationAppId h;
     isSubmittingRef := isSubmittingRef h;
     chunkBufferRef := chunkBufferRef h;
     appendTimerRef := v;
     lastStreamingCheckRef := lastStreamingCheckRef h;
     isWelcomeScreen := isWelcomeScreen h;
     location_pathname := location_pathname h;
     trace := trace h |}.

Definition set_lastStreamingCheckRef (v : option StreamingCheck) (h : Hook) : Hook :=
  {| store := store h;
     difyConversationId := difyConversationId h;
     dbConversationUUID := dbConversationUUID h;
     conversationAppId := conversationAppId h;
     isSubmittingRef := isSubmittingRef h;
     chunkBufferRef := chunkBufferRef h;
     appendTimerRef := appendTimerRef h;
     lastStreamingCheckRef := v;
     isWelcomeScreen := isWelcomeScreen h;
     location_pathname := location_pathname h;
     trace := trace h |}.

Definition setIsWelcomeScreen (v : bool) (h : Hook) : Hook :=
  {| store := store h;
     difyConversationId := difyConversationId h;
     dbConversationUUID := dbConversationUUID h;
     conversationAppId := conversationAppId h;
     isSubmittingRef := isSubmittingRef h;
     chunkBufferRef := chunkBufferRef h;
     appendTimerRef := appendTimerRef h;
     lastStreamingCheckRef := lastStreamingCheckRef h;
     isWelcomeScreen := v;
     location_pathname := location_pathname h;
     trace := trace h |}.

Definition set_location_pathname (v : string) (h : Hook) : Hook :=
  {| store := store h;
     difyConversationId := difyConversationId h;
     dbConversationUUID := dbConversationUUID h;
     conversationAppId := conversationAppId h;
     isSubmittingRef := isSubmittingRef h;
     chunkBufferRef := chunkBufferRef h;
     appendTimerRef := appendTimerRef h;
     lastStreamingCheckRef := lastStreamingCheckRef h;
     isWelcomeScreen := isWelcomeScreen h;
     location_pathname := v;
     trace := trace h |}.

(** Record a call that leaves the hook. *)
Definition emit (e : Effect) (h : Hook) : Hook :=
  {| store := store h;
     difyConversationId := difyConversationId h;
     dbConversationUUID := dbConversationUUID h;
     conversationAppId := conversationAppId h;
     isSubmittingRef := isSubmittingRef h;
     chunkBufferRef := chunkBufferRef h;
     appendTimerRef := appendTimerRef h;
     lastStreamingCheckRef := lastStreamingCheckRef h;
     isWelcomeScreen := isWelcomeScreen h;
     location_pathname := location_pathname h;
     trace := trace h ++ [e] |}.

(** Truthiness of a [string | null]: set and not empty. *)
Definition given (v : option string) : bool :=
  match v with Some s => nonempty s | None => false end.

Definition same_id (a b : option string) : bool :=
  match a, b with
  | Some x, Some y => String.eqb x y
  | None, None => true
  | _, _ => false
  end.

Definition is_saved (s : option PersistenceStatus) : bool :=
  match s with Some saved => true | _ => false end.

(** What the hook reads from its surroundings during one handler: the values
    closed over at render time and the answers of the services it calls.
    A save, and the remote stop, either resolves ([true]) or rejects;
    [saved_row] is the id of the row that a save of a message writes when
    it resolves. *)
Record Outside : Type :=
  { currentUserId : option string;
    currentAppId : option string;
    currentAppInstance : option JsVal;
    currentPathname : option string;
    new_Date_toISOString : string;
    getConversationByExternalId :
      string -> Settled (Result (option Conversation));
    saveMessage : ChatMessage -> string -> bool;
    saveStoppedAssistantMessage : ChatMessage -> string -> bool;
    saved_row : ChatMessage -> string -> string;
    saveErrorPlaceholder : string -> string -> string -> bool;
    stopDifyStreamingTask : string -> string -> string -> bool }.

Definition flushChunkBuffer (i : option string) (h : Hook) : Hook :=
  let h :=
    match i with
    | Some i' =>
        if (nonempty i' && nonempty (chunkBufferRef h))%bool
        then set_chunkBufferRef ""
               (with_store (appendMessageChunk i' (chunkBufferRef h)) h)
        else h
    | None => h
    end in
  match appendTimerRef h with
  | Some _ => set_appendTimerRef None h
  | None => h
  end.

(** The route-listening effect, run for the current pathname; the lookup it
    starts is followed to its completion. *)
Definition route_effect (o : Outside) (h : Hook) : Hook :=
  match currentPathname o with
  | Some p =>
      if (nonempty p && startsWith p "/chat/"
          && negb (includes p "/chat/new")
          && negb (includes p "/chat/temp-"))%bool
      then
        let pathConversationId := remove_first p "/chat/" in
        let h := setDifyConversationId (Some pathConversationId) h in
        let h := emit (call_getConversationByExternalId pathConversationId) h in
        match getConversationByExternalId o pathConversationId with
        | Resolved (success (Some c)) =>
            let h := setDbConversationUUID (Some (conversation_uuid c)) h in
            if given (app_id c)
            then setConversationAppId (app_id c) h
            else setConversationAppId None h
        | Resolved (success None) =>
            setConversationAppId None (setDbConversationUUID None h)
        | Resolved (failure _) =>
            setConversationAppId None (setDbConversationUUID None h)
        | Rejected _ =>
            setConversationAppId None (setDbConversationUUID None h)
        end
      else if (String.eqb p "/chat/new"
               || (nonempty p && includes p "/chat/temp-"))%bool
      then
        setConversationAppId None
          (setDbConversationUUID None (setDifyConversationId None h))
      else h
  | None => h
  end.

(** Modelled from the spec: [saveMessage] and [saveStoppedAssistantMessage]
    belong to [use-chat-messages], which is not among the sources.  The
    persistence status is "tracking whether a chat message has been durably
    written to Supabase": a save that resolves leaves the message ['saved']
    in the store, with the id of its row as [db_id].  The hook reads both
    and writes neither.  A save that rejects leaves the store as it is, to
    the handler the hook attaches. *)
Definition with_saved (row : string) (m : ChatMessage) : ChatMessage :=
  {| id := id m; text := text m; isUser := isUser m;
     isStreaming := isStreaming m;
     wasManuallyStopped := wasManuallyStopped m;
     persistenceStatus := Some saved; db_id := Some row;
     metadata := metadata m; error_text := error_text m;
     token_count := token_count m; attachments := attachments m |}.

(** Modelled from the spec: what a save of message [i] writes to the store
    when it resolves. *)
Definition mark_saved (i row : string) (s : ChatState) : ChatState :=
  map_message i (with_saved row) s.

(** [saveMessage(m, conversationId).catch(onRejected)]: the call is
    recorded and followed to its end where it is made; when it rejects, the
    handler runs. *)
Definition save_then (o : Outside) (m : ChatMessage) (conversationId : string)
  (onRejected : Hook -> Hook) (h : Hook) : Hook :=
  let h := emit (call_saveMessage m conversationId) h in
  if saveMessage o m conversationId
  then with_store (mark_saved (id m) (saved_row o m conversationId)) h
  else onRejected h.

Definition save_stopped_then (o : Outside) (m : ChatMessage)
  (conversationId : string) (onRejected : Hook -> Hook) (h : Hook) : Hook :=
  let h := emit (call_saveStoppedAssistantMessage m conversationId) h in
  if saveStoppedAssistantMessage o m conversationId
  then with_store (mark_saved (id m) (saved_row o m conversationId)) h
  else onRejected h.

(** A rejection handler that only logs to the console. *)
Definition log_only (h : Hook) : Hook := h.

(** [updateMessage(id, fields)], recorded. *)
Definition update_message (i : string) (p : Patch) (h : Hook) : Hook :=
  with_store (updateMessage i p) (emit (call_updateMessage i p) h).

(** [updateMessage(id, { persistenceStatus: s })]. *)
Definition set_status (i : string) (s : PersistenceStatus) (h : Hook) : Hook :=
  update_message i (status_patch s) h.

(** The body of the 10-second interval, run at time [now]. *)
Definition checkStreamingState (o : Outside) (now : Z) (h : Hook) : Hook :=
  let state := store h in
  if given (streamingMessageId state) then
    match streamingMessageId state with
    | Some streamingId =>
        match find_message streamingId state with
        | Some streamingMessage =>
            if isStreaming streamingMessage then
              let messageContent := text streamingMessage in
              let messageId' := id streamingMessage in
              match lastStreamingCheckRef h with
              | None =>
                  set_lastStreamingCheckRef
                    (Some {| messageId := messageId';
                             content := messageContent;
                             lastUpdateTime := now |}) h
              | Some last =>
                  if (String.eqb messageId' (messageId last)
                      && String.eqb messageContent (content last))%bool
                  then
                    let timeSinceLastUpdate := (now - lastUpdateTime last)%Z in
                    if (timeSinceLastUpdate >? 30000)%Z then
                      let h := with_store (finalizeStreamingMessage messageId') h in
                      let h := with_store (setIsWaitingForResponse false) h in
                      let h := if given (currentTaskId state)
                               then with_store (setCurrentTaskId None) h
                               else h in
                      let h := set_lastStreamingCheckRef None h in
                      match dbConversationUUID h with
                      | Some currentDbConvId =>
                          if (nonempty currentDbConvId
                              && negb (is_saved (persistenceStatus streamingMessage))
                              && negb (given (db_id streamingMessage)))%bool
                          then
                            let h := set_status messageId' pending h in
                            save_then o streamingMessage currentDbConvId
                              (set_status messageId' error) h
                          else h
                      | None => h
                      end
                    else h
                  else
                    set_lastStreamingCheckRef
                      (Some {| messageId := messageId';
                               content := messageContent;
                               lastUpdateTime := now |}) h
              end
            else set_lastStreamingCheckRef None h
        | None => set_lastStreamingCheckRef None h
        end
    | None => set_lastStreamingCheckRef None h
    end
  else set_lastStreamingCheckRef None h.

(** [messages.filter(m => m.isUser && m.persistenceStatus !== 'saved'
    && !m.db_id).pop()]. *)
Definition recent_unsaved_user_message (s : ChatState) : option ChatMessage :=
  List.last
    (map Some
       (filter (fun m => (isUser m && negb (is_saved (persistenceStatus m))
                          && negb (given (db_id m)))%bool)
               (messages s)))
    None.

(** [window.location.pathname === '/chat/new' ||
     window.location.pathname.includes('/chat/temp-')]. *)
Definition urlIndicatesNew (h : Hook) : bool :=
  (String.eqb (location_pathname h) "/chat/new"
   || includes (location_pathname h) "/chat/temp-")%bool.

(** The user-message part of the stop handler, once a database
    conversation id is at hand. *)
Definition stop_save_user_message (o : Outside) (conversationId : string)
  (h : Hook) : Hook :=
  match recent_unsaved_user_message (store h) with
  | Some recentUserMessage =>
      let isNewConversationFlow :=
        (urlIndicatesNew h || negb (given (difyConversationId h)))%bool in
      if isNewConversationFlow
      then save_then o recentUserMessage conversationId log_only h
      else h
  | None => h
  end.

(** Source lines 1400 to 1419: the remote stop, tried only with an app
    configuration and a task id. *)
Definition stop_remote_task (o : Outside) (appConfig currentTaskId' : option string)
  (currentUserId' : string) (h : Hook) : Hook :=
  match currentTaskId' with
  | Some taskId =>
      if nonempty taskId then
        match appConfig with
        | Some appId =>
            let h := emit (call_stopDifyStreamingTask appId taskId currentUserId') h in
            if stopDifyStreamingTask o appId taskId currentUserId'
            then with_store (setCurrentTaskId None) h
            else h
        | None => with_store (setCurrentTaskId None) h
        end
      else h
  | None => h
  end.

(** Source lines 1421 to 1449: the interrupted message is flagged for
    saving. *)
Definition stop_mark_message (o : Outside) (streamingId : string) (h : Hook)
  : Hook :=
  match find_message streamingId (store h) with
  | Some assistantMessage =>
      let updatedMetadata :=
        JObj (set_field "stopped_at" (JStr (new_Date_toISOString o))
                (set_field "stopped_manually" (JBool true)
                   (own_properties
                      (js_or (metadata assistantMessage) (JObj []))))) in
      update_message streamingId
        {| set_metadata := Some updatedMetadata;
           set_token_count := None;
           set_wasManuallyStopped := Some true;
           set_persistenceStatus := Some pending |} h
  | None => h
  end.

(** Source lines 1451 to 1529: the user message that is still unsaved. *)
Definition stop_persist_user_message (o : Outside) (h : Hook) : Hook :=
  if given (dbConversationUUID h) then
    match dbConversationUUID h with
    | Some currentDbConvId => stop_save_user_message o currentDbConvId h
    | None => h
    end
  else if given (difyConversationId h) then
    match difyConversationId h with
    | Some difyId =>
        let h := emit (call_getConversationByExternalId difyId) h in
        match getConversationByExternalId o difyId with
        | Resolved (success (Some c)) =>
            stop_save_user_message o (conversation_uuid c) h
        | _ => h
        end
    | None => h
    end
  else h.

(** [handleStopProcessing] from the login check on (source lines 1360 to
    1537). *)
Definition stop_streaming (o : Outside) (h : Hook) : Hook :=
  let state := store h in
  let currentStreamingId := streamingMessageId state in
  let currentTaskId' := currentTaskId state in
  match currentUserId o with
  | Some currentUserId' =>
      if nonempty currentUserId' then
        let appConfig :=
          match currentAppId o, currentAppInstance o with
          | Some a, Some _ => if nonempty a then Some a else None
          | _, _ => None
          end in
        let h :=
          match currentStreamingId with
          | Some streamingId =>
              if nonempty streamingId then
                let h := match appendTimerRef h with
                         | Some _ => set_appendTimerRef None h
                         | None => h
                         end in
                let h := flushChunkBuffer (Some streamingId) h in
                let h := with_store (markAsManuallyStopped streamingId) h in
                let currentConvId := currentConversationId (store h) in
                let isNewConversationFlow :=
                  (urlIndicatesNew h && negb (given currentConvId))%bool in
                let h :=
                  match currentConvId with
                  | Some c =>
                      if (isNewConversationFlow && nonempty c)%bool
                      then emit (call_updatePendingStatus c
                                   "stream_completed_title_pending") h
                      else h
                  | None => h
                  end in
                let h := stop_remote_task o appConfig currentTaskId' currentUserId' h in
                let h := stop_mark_message o streamingId h in
                stop_persist_user_message o h
              else h
          | None => h
          end in
        let h := with_store (setIsWaitingForResponse false) h in
        set_isSubmittingRef false h
      else h
  | None => h
  end.

(** The repair that [handleStopProcessing] performs, and returns after, when
    the streamed message has content and no task id is set (source lines
    1326 to 1355). *)
Definition stop_repair (o : Outside) (streamingId : string)
  (streamingMessage : ChatMessage) (h : Hook) : Hook :=
  let h := with_store (finalizeStreamingMessage streamingId) h in
  let h := with_store (setIsWaitingForResponse false) h in
  let h :=
    match dbConversationUUID h with
    | Some currentDbConvId =>
        if (nonempty currentDbConvId
            && negb (is_saved (persistenceStatus streamingMessage))
            && negb (given (db_id streamingMessage)))%bool
        then
          let h := set_status streamingId pending h in
          save_then o streamingMessage currentDbConvId
            (set_status streamingId error) h
        else h
    | None => h
    end in
  set_isSubmittingRef false h.

Definition handleStopProcessing (o : Outside) (h : Hook) : Hook :=
  let state := store h in
  let currentStreamingId := streamingMessageId state in
  let currentTaskId' := currentTaskId state in
  match currentStreamingId with
  | Some streamingId =>
      if nonempty streamingId then
        match find_message streamingId state with
        | Some streamingMessage =>
            if isStreaming streamingMessage then
              let messageContent := text streamingMessage in
              let hasContent :=
                (nonempty messageContent
                 && Nat.ltb 0 (js_length (trim messageContent)))%bool in
              if (hasContent && negb (given currentTaskId'))%bool
              then stop_repair o streamingId streamingMessage h
              else stop_streaming o h
            else stop_streaming o h
        | None => stop_streaming o h
        end
      else stop_streaming o h
  | None => stop_streaming o h
  end.

(** *** handleSubmit *)

(** A thrown value: an [Error], or a value that carries no message. *)
Inductive Thrown : Type :=
| thrown_Error (e : Error)
| thrown_other.

Inductive Attempt (A : Type) : Type :=
| Ok (a : A)
| Threw (t : Thrown).
Arguments Ok {A} a.
Arguments Threw {A} t.

(** What [completionPromise] resolves to. *)
Record CompletionData : Type :=
  { usage : JsVal; completion_metadata : JsVal; retrieverResources : JsVal }.

(** What happens while the answer is being streamed, in the order it happens:
    the generator yields a chunk (at clock time [now]); the timeout armed by
    the loop fires; the user presses stop; the database-id callback given to
    [initiateNewConversation] is called; the hook's own 10-second interval
    runs [checkStreamingState].  These are the handlers of this hook that
    can run while the submitting flag is held.  Once a stop has released
    the flag another submission can start on the same hook; what it does is
    a run of its own and is not followed here. *)
Inductive StreamEvent : Type :=
| Chunk (now : Z) (answerChunk : string)
| TimerFired (now : Z)
| StopPressed
| DbIdCallback (difyId dbId : string)
| CheckFired (now : Z).

(** The answer generator: what it yields, and whether it ends by throwing.
    A generator that never ends, like a promise that never settles, leaves
    [handleSubmit] waiting; such a run has no end to speak of and is not
    among the values of this type. *)
Record AnswerStream : Type :=
  { events : list StreamEvent; throws : option Thrown }.

Record CreationResult : Type :=
  { creation_error : option Thrown;
    creation_answerStream : option AnswerStream;
    realConvId : option string;
    taskId : option string;
    creation_completionPromise : option (Attempt (option CompletionData)) }.

Record StreamServiceResponse : Type :=
  { answerStream : option AnswerStream;
    getConversationId : option string;
    getTaskId : option string;
    completionPromise : option (Attempt (option CompletionData)) }.

(** The services one submission talks to.  [initiateNewConversation] may call
    its database-id callback before it returns, and [streamDifyChat] its
    conversation-id callback; the first component says with what. *)
Record Services : Type :=
  { Date_now : Z;
    validateConfig : string -> string -> Attempt unit;
    ensureAppReady : Attempt string;
    initiateNewConversation :
      JsVal -> string -> string -> option (string * string) * Attempt CreationResult;
    streamDifyChat :
      JsVal -> string -> option string * Attempt StreamServiceResponse }.

(** The local variables of one run of [handleSubmit] that the [catch] and
    [finally] blocks read, next to the hook. *)
Record Run : Type :=
  { hook : Hook;
    assistantMessageId : option string;
    finalDbConvUUID : option string;
    finalRealConvId : option string;
    finalTaskId : option string;
    lastAppendTime : Z }.

Definition on_hook (f : Hook -> Hook) (r : Run) : Run :=
  {| hook := f (hook r);
     assistantMessageId := assistantMessageId r;
     finalDbConvUUID := finalDbConvUUID r;
     finalRealConvId := finalRealConvId r;
     finalTaskId := finalTaskId r;
     lastAppendTime := lastAppendTime r |}.

Definition set_assistantMessageId (v : option string) (r : Run) : Run :=
  {| hook := hook r;
     assistantMessageId := v;
     finalDbConvUUID := finalDbConvUUID r;
     finalRealConvId := finalRealConvId r;
     finalTaskId := finalTaskId r;
     lastAppendTime := lastAppendTime r |}.

Definition set_finalDbConvUUID (v : option string) (r : Run) : Run :=
  {| hook := hook r;
     assistantMessageId := assistantMessageId r;
     finalDbConvUUID := v;
     finalRealConvId := finalRealConvId r;
     finalTaskId := finalTaskId r;
     lastAppendTime := lastAppendTime r |}.

Definition set_finalRealConvId (v : option string) (r : Run) : Run :=
  {| hook := hook r;
     assistantMessageId := assistantMessageId r;
     finalDbConvUUID := finalDbConvUUID r;
     finalRealConvId := v;
     finalTaskId := finalTaskId r;
     lastAppendTime := lastAppendTime r |}.

Definition set_finalTaskId (v : option string) (r : Run) : Run :=
  {| hook := hook r;
     assistantMessageId := assistantMessageId r;
     finalDbConvUUID := finalDbConvUUID r;
     finalRealConvId := finalRealConvId r;
     finalTaskId := v;
     lastAppendTime := lastAppendTime r |}.

Definition set_lastAppendTime (v : Z) (r : Run) : Run :=
  {| hook := hook r;
     assistantMessageId := assistantMessageId r;
     finalDbConvUUID := finalDbConvUUID r;
     finalRealConvId := finalRealConvId r;
     finalTaskId := finalTaskId r;
     lastAppendTime := v |}.

(** What one run of [handleSubmit] keeps fixed: its arguments, the values it
    closed over, and the constants it computes before the [try]. *)
Record Submission : Type :=
  { message : string;
    files : option (list (list (string * JsVal)));
    inputs : JsVal;
    userId : string;
    appId : string;
    userMessage : ChatMessage;
    closed_difyConversationId : option string;
    closed_dbConversationUUID : option string;
    isNewConversationFlow : bool }.

Definition chat_path (conversationId : string) : string :=
  "/chat/" ++ conversationId.

Definition differs_from_path (p : option string) (conversationId : string) : bool :=
  match p with
  | Some x => negb (String.eqb x (chat_path conversationId))
  | None => true
  end.

(** The database-id callback handed to [initiateNewConversation]. *)
Definition onDbId (o : Outside) (c : Submission) (dbId : string) (r : Run) : Run :=
  let r := set_finalDbConvUUID (Some dbId) r in
  let r := on_hook (setDbConversationUUID (Some dbId)) r in
  if negb (is_saved (persistenceStatus (userMessage c)))
  then on_hook (save_then o (userMessage c) dbId log_only) r
  else r.

(** The body of the [for await] loop for one chunk, once the assistant
    message exists.  The flag says whether the loop was left by [break]. *)
Definition buffer_chunk (now : Z) (answerChunk assistantId : string) (r : Run)
  : Run * bool :=
  if same_id (streamingMessageId (store (hook r))) (Some assistantId) then
    let r := on_hook (fun h => set_chunkBufferRef (chunkBufferRef h ++ answerChunk) h) r in
    let buffer := chunkBufferRef (hook r) in
    if ((now - lastAppendTime r >=? CHUNK_APPEND_INTERVAL)%Z
        || includes buffer (String (ascii_of_nat 10) "")
        || Nat.ltb 200 (js_length buffer))%bool
    then
      (set_lastAppendTime now (on_hook (flushChunkBuffer (Some assistantId)) r),
       false)
    else
      match appendTimerRef (hook r) with
      | None => (on_hook (set_appendTimerRef (Some true)) r, false)
      | Some _ => (r, false)
      end
  else
    let wasStopped :=
      match find_message assistantId (store (hook r)) with
      | Some m => wasManuallyStopped m
      | None => false
      end in
    if negb wasStopped
    then (on_hook (with_store (markAsManuallyStopped assistantId)) r, true)
    else (r, true).

Definition streaming_placeholder : NewMessage :=
  {| new_text := "";
     new_isUser := false;
     new_isStreaming := true;
     new_error := None;
     new_persistenceStatus := None;
     new_attachments := JUndefined |}.

(** One iteration of the [for await] loop. *)
Definition on_chunk (c : Submission) (now : Z) (answerChunk : string) (r : Run)
  : Run * bool :=
  let r :=
    match streamingMessageId (store (hook r)), assistantMessageId r with
    | None, None =>
        let added := addMessage streaming_placeholder (store (hook r)) in
        let assistantMessage := snd added in
        let r := on_hook (with_store (fun _ => fst added)) r in
        let r := set_assistantMessageId (Some (id assistantMessage)) r in
        let r := on_hook (with_store
                            (set_streamingMessageId (Some (id assistantMessage)))) r in
        let r := on_hook (with_store (setIsWaitingForResponse false)) r in
        match finalRealConvId r with
        | Some conv =>
            if (isNewConversationFlow c && nonempty conv)%bool
            then on_hook (emit (call_updatePendingStatus conv "streaming_message")) r
            else r
        | None => r
        end
    | _, _ => r
    end in
  match assistantMessageId r with
  | Some assistantId =>
      if nonempty assistantId
      then buffer_chunk now answerChunk assistantId r
      else (r, false)
  | None => (r, false)
  end.

(** The callback of the timeout armed by the loop. *)
Definition on_timer (now : Z) (r : Run) : Run :=
  match appendTimerRef (hook r) with
  | Some true =>
      set_lastAppendTime now
        (on_hook (flushChunkBuffer (assistantMessageId r)) r)
  | _ => r
  end.

(** The [for await] loop over the answer stream, with what else happens
    while it waits for the next chunk. *)
Fixpoint stream_loop (o : Outside) (c : Submission) (evs : list StreamEvent)
  (r : Run) : Run * bool :=
  match evs with
  | [] => (r, false)
  | Chunk now answerChunk :: rest =>
      let step := on_chunk c now answerChunk r in
      if snd step then step else stream_loop o c rest (fst step)
  | TimerFired now :: rest => stream_loop o c rest (on_timer now r)
  | StopPressed :: rest =>
      stream_loop o c rest (on_hook (handleStopProcessing o) r)
  | DbIdCallback _ dbId :: rest => stream_loop o c rest (onDbId o c dbId r)
  | CheckFired now :: rest =>
      stream_loop o c rest (on_hook (checkStreamingState o now) r)
  end.

(** [a || b] on [string | null | undefined]. *)
Definition or_else (a b : option string) : option string :=
  if given a then a else b.

Definition drop_empty (a : option string) : option string :=
  if given a then a else None.

(** [v?.k]. *)
Definition opt_prop (v : JsVal) (k : string) : JsVal :=
  match v with
  | JObj fs => lookup_field k fs
  | _ => JUndefined
  end.

(** [await getConversationByExternalId(externalId)] inside its own
    [try/catch], storing the database id when a record is found; [reset]
    tells whether the other outcomes set [finalDbConvUUID] to [null]. *)
Definition lookup_db_id (o : Outside) (externalId : string) (reset : bool)
  (r : Run) : Run :=
  let r := on_hook (emit (call_getConversationByExternalId externalId)) r in
  match getConversationByExternalId o externalId with
  | Resolved (success (Some conv)) =>
      on_hook (setDbConversationUUID (Some (conversation_uuid conv)))
        (set_finalDbConvUUID (Some (conversation_uuid conv)) r)
  | _ => if reset then set_finalDbConvUUID None r else r
  end.

Definition difyFiles (c : Submission) : JsVal :=
  match files c with
  | Some (f :: fs) =>
      JArr (map (fun file =>
                   JObj [("type", JStr "document");
                         ("transfer_method", JStr "local_file");
                         ("upload_file_id", lookup_field "upload_file_id" file)])
                (f :: fs))
  | _ => JUndefined
  end.

Definition files_entry (c : Submission) : list (string * JsVal) :=
  if truthy (difyFiles c) then [("files", difyFiles c)] else [].

Definition basePayloadForNewConversation (c : Submission) : JsVal :=
  JObj ([("query", JStr (message c));
         ("user", JStr (userId c));
         ("inputs", js_or (inputs c) (JObj []))] ++ files_entry c).

Definition difyPayload (c : Submission) : JsVal :=
  JObj ([("query", JStr (message c));
         ("inputs", js_or (inputs c) (JObj []))]
        ++ files_entry c
        ++ [("user", JStr (userId c));
            ("response_mode", JStr "streaming");
            ("conversation_id",
             match closed_difyConversationId c with
             | Some d => JStr d
             | None => JNull
             end);
            ("auto_generate_name", JBool false)]).

Definition Opened : Type :=
  (option AnswerStream * option (Attempt (option CompletionData)))%type.

(** The new-conversation branch of the [try] block. *)
Definition open_new (o : Outside) (sv : Services) (c : Submission) (r : Run)
  : Run * Attempt Opened :=
  let payload := basePayloadForNewConversation c in
  let r := on_hook (emit (call_initiateNewConversation payload (appId c) (userId c))) r in
  let answer := initiateNewConversation sv payload (appId c) (userId c) in
  let r := match fst answer with
           | Some (_, dbId) => onDbId o c dbId r
           | None => r
           end in
  match snd answer with
  | Threw t => (r, Threw t)
  | Ok creationResult =>
      match creation_error creationResult with
      | Some e => (r, Threw e)
      | None =>
          let r := set_finalRealConvId (realConvId creationResult) r in
          let r := set_finalTaskId (taskId creationResult) r in
          let r :=
            match finalRealConvId r with
            | Some conv =>
                if nonempty conv then
                  let r :=
                    if negb (same_id (currentConversationId (store (hook r))) (Some conv))
                    then on_hook (with_store (setCurrentConversationId (Some conv))) r
                    else r in
                  let r :=
                    if differs_from_path (currentPathname o) conv
                    then on_hook (emit (call_router_replace (chat_path conv))) r
                    else r in
                  lookup_db_id o conv true r
                else r
            | None => r
            end in
          let r :=
            if given (finalTaskId r)
            then on_hook (with_store (setCurrentTaskId (finalTaskId r))) r
            else r in
          (r, Ok (creation_answerStream creationResult,
                  creation_completionPromise creationResult))
      end
  end.

(** The conversation-id callback handed to [streamDifyChat]. *)
Definition onConversationId (o : Outside) (c : Submission)
  (newlyFetchedConvId : string) (r : Run) : Run :=
  if (nonempty newlyFetchedConvId
      && negb (same_id (closed_difyConversationId c) (Some newlyFetchedConvId)))%bool
  then
    let r := on_hook (setDifyConversationId (Some newlyFetchedConvId)) r in
    let r := on_hook (with_store (setCurrentConversationId (Some newlyFetchedConvId))) r in
    let r :=
      if differs_from_path (currentPathname o) newlyFetchedConvId
      then on_hook (emit (call_router_replace (chat_path newlyFetchedConvId))) r
      else r in
    if negb (given (finalDbConvUUID r))
    then lookup_db_id o newlyFetchedConvId false r
    else r
  else r.

(** The existing-conversation branch of the [try] block. *)
Definition open_existing (o : Outside) (sv : Services) (c : Submission) (r : Run)
  : Run * Attempt Opened :=
  let r :=
    if given (closed_dbConversationUUID c)
    then set_finalDbConvUUID (closed_dbConversationUUID c) r
    else
      match closed_difyConversationId c with
      | Some d => if nonempty d then lookup_db_id o d true r else r
      | None => r
      end in
  let r :=
    match finalDbConvUUID r with
    | Some conv =>
        if (nonempty conv && negb (is_saved (persistenceStatus (userMessage c))))%bool
        then on_hook (save_then o (userMessage c) conv log_only) r
        else r
    | None => r
    end in
  let r := on_hook (emit (call_streamDifyChat (difyPayload c) (appId c))) r in
  let answer := streamDifyChat sv (difyPayload c) (appId c) in
  let r := match fst answer with
           | Some newlyFetchedConvId => onConversationId o c newlyFetchedConvId r
           | None => r
           end in
  match snd answer with
  | Threw t => (r, Threw t)
  | Ok streamServiceResponse =>
      let r := set_finalRealConvId
                 (drop_empty (or_else (getConversationId streamServiceResponse)
                                      (closed_difyConversationId c))) r in
      let r := set_finalTaskId (drop_empty (getTaskId streamServiceResponse)) r in
      let r :=
        match finalRealConvId r with
        | Some conv =>
            if negb (same_id (Some conv) (closed_difyConversationId c)) then
              let r := on_hook (setDifyConversationId (Some conv)) r in
              if negb (given (finalDbConvUUID r))
              then lookup_db_id o conv false r
              else r
            else r
        | None => r
        end in
      let r :=
        if (given (finalTaskId r)
            && negb (same_id (currentTaskId (store (hook r))) (finalTaskId r)))%bool
        then on_hook (with_store (setCurrentTaskId (finalTaskId r))) r
        else r in
      (r, Ok (answerStream streamServiceResponse,
              completionPromise streamServiceResponse))
  end.

(** Source lines 780 to 838: the metadata of the finished stream. *)
Definition completion_phase (done : option (Attempt (option CompletionData)))
  (r : Run) : Run :=
  match done with
  | Some (Ok (Some completionData)) =>
      match assistantMessageId r with
      | Some assistantId =>
          if nonempty assistantId then
            let existingMessage := find_message assistantId (store (hook r)) in
            let existingMetadata :=
              match existingMessage with
              | Some m => metadata m
              | None => JUndefined
              end in
            let existingTokens :=
              match existingMessage with
              | Some m => token_count m
              | None => JUndefined
              end in
            let enhancedMetadata :=
              JObj
                (set_field "frontend_metadata"
                   (JObj [("stopped_manually", opt_prop existingMetadata "stopped_manually");
                          ("stopped_at", opt_prop existingMetadata "stopped_at");
                          ("attachments", opt_prop existingMetadata "attachments");
                          ("sequence_index",
                           js_or (opt_prop existingMetadata "sequence_index") (JNum 1))])
                   (set_field "dify_retriever_resources"
                      (js_or (retrieverResources completionData) (JArr []))
                      (set_field "dify_usage"
                         (js_or (usage completionData) (JObj []))
                         (set_field "dify_metadata"
                            (js_or (completion_metadata completionData) (JObj []))
                            (own_properties (js_or existingMetadata (JObj []))))))) in
            on_hook
              (update_message assistantId
                 {| set_metadata := Some enhancedMetadata;
                    set_token_count :=
                      Some (js_or (opt_prop (usage completionData) "total_tokens")
                                  existingTokens);
                    set_wasManuallyStopped := None;
                    set_persistenceStatus := Some pending |}) r
          else r
      | None => r
      end
  | _ => r
  end.

(** Source lines 840 to 877: the ids are brought up to date. *)
Definition ids_phase (o : Outside) (c : Submission) (r : Run) : Run :=
  let r :=
    match finalRealConvId r with
    | Some conv =>
        if nonempty conv then
          let r :=
            if negb (same_id (closed_difyConversationId c) (Some conv))
            then on_hook (setDifyConversationId (Some conv)) r
            else r in
          let r :=
            if negb (same_id (currentConversationId (store (hook r))) (Some conv))
            then on_hook (with_store (setCurrentConversationId (Some conv))) r
            else r in
          if differs_from_path (currentPathname o) conv
          then on_hook (emit (call_router_replace (chat_path conv))) r
          else r
        else r
    | None => r
    end in
  let r :=
    if (given (finalTaskId r)
        && negb (same_id (currentTaskId (store (hook r))) (finalTaskId r)))%bool
    then on_hook (with_store (setCurrentTaskId (finalTaskId r))) r
    else r in
  match finalRealConvId r with
  | Some conv =>
      if (isNewConversationFlow c && nonempty conv)%bool
      then on_hook (emit (call_updatePendingStatus conv
                            "stream_completed_title_pending")) r
      else r
  | None => r
  end.

(** [text.trim().length > 0]. *)
Definition has_text (m : ChatMessage) : bool :=
  Nat.ltb 0 (js_length (trim (text m))).

(** Source lines 931 to 991: the assistant message is saved once the stream
    has ended. *)
Definition save_assistant (o : Outside) (assistantId currentDbConvId : string)
  (h : Hook) : Hook :=
  match find_message assistantId (store h) with
  | Some finalAssistantMessage =>
      let h :=
        if isStreaming finalAssistantMessage
        then with_store (finalizeStreamingMessage assistantId) h
        else h in
      let needsSaving :=
        (negb (given (db_id finalAssistantMessage))
         && negb (is_saved (persistenceStatus finalAssistantMessage))
         && has_text finalAssistantMessage)%bool in
      if needsSaving then
        let h := set_status assistantId pending h in
        save_then o finalAssistantMessage currentDbConvId
          (set_status assistantId error) h
      else h
  | None => h
  end.

(** Source lines 1002 to 1051: what runs when the last lookup, started
    without being awaited, finds the conversation. *)
Definition late_save (o : Outside) (c : Submission)
  (assistantId : option string) (conv : string) (h : Hook) : Hook :=
  let h := emit (call_getConversationByExternalId conv) h in
  match getConversationByExternalId o conv with
  | Resolved (success (Some found)) =>
      let uuid := conversation_uuid found in
      let h := setDbConversationUUID (Some uuid) h in
      let h :=
        if negb (is_saved (persistenceStatus (userMessage c)))
        then save_then o (userMessage c) uuid log_only h
        else h in
      match assistantId with
      | Some a =>
          if nonempty a then
            match find_message a (store h) with
            | Some assistantMessage =>
                if negb (is_saved (persistenceStatus assistantMessage))
                then save_then o assistantMessage uuid log_only h
                else h
            | None => h
            end
          else h
      | None => h
      end
  | _ => h
  end.

(** Source lines 879 to 1053: the messages are persisted.  The second
    component is the continuation of the lookup that is not awaited; it
    runs after the [finally] block. *)
Definition save_phase (o : Outside) (c : Submission) (r : Run)
  : Run * option (Hook -> Hook) :=
  let currentDbConvId := or_else (finalDbConvUUID r) (closed_dbConversationUUID c) in
  let looked :=
    match finalRealConvId r with
    | Some conv =>
        if (negb (given currentDbConvId) && nonempty conv)%bool then
          let r := on_hook (emit (call_getConversationByExternalId conv)) r in
          match getConversationByExternalId o conv with
          | Resolved (success (Some found)) =>
              (on_hook (setDbConversationUUID (Some (conversation_uuid found))) r,
               Some (conversation_uuid found))
          | _ => (r, currentDbConvId)
          end
        else (r, currentDbConvId)
    | None => (r, currentDbConvId)
    end in
  let r := fst looked in
  let currentDbConvId := snd looked in
  if given currentDbConvId then
    match currentDbConvId with
    | Some conv =>
        let r :=
          if (negb (is_saved (persistenceStatus (userMessage c)))
              && negb (given (db_id (userMessage c))))%bool
          then on_hook (save_then o (userMessage c) conv log_only) r
          else r in
        match assistantMessageId r with
        | Some assistantId =>
            if nonempty assistantId
            then (on_hook (save_assistant o assistantId conv) r, None)
            else (r, None)
        | None => (r, None)
        end
    | None => (r, None)
    end
  else
    match finalRealConvId r with
    | Some conv =>
        if nonempty conv
        then (r, Some (late_save o c (assistantMessageId r) conv))
        else (r, None)
    | None => (r, None)
    end.

(** [streamError?.message || '未知错误']. *)
Definition error_message_of (t : Thrown) : string :=
  match t with
  | thrown_Error e =>
      if nonempty (Error_message e) then Error_message e else "未知错误"
  | thrown_other => "未知错误"
  end.

(** The [catch] block (source lines 1054 to 1148). *)
Definition catch_block (o : Outside) (c : Submission) (t : Thrown) (r : Run)
  : Run :=
  let errorMessage := error_message_of t in
  if given (assistantMessageId r) then
    match assistantMessageId r with
    | Some assistantId =>
        let r := on_hook (with_store (setMessageError assistantId errorMessage)) r in
        match finalDbConvUUID r with
        | Some conv =>
            if nonempty conv then
              match find_message assistantId (store (hook r)) with
              | Some assistantMessage =>
                  if negb (is_saved (persistenceStatus assistantMessage)) then
                    let r := on_hook (set_status assistantId pending) r in
                    on_hook (save_then o assistantMessage conv
                               (set_status assistantId error)) r
                  else r
              | None => r
              end
            else r
        | None => r
        end
    | None => r
    end
  else
    let added :=
      addMessage
        {| new_text := "抱歉，处理您的请求时发生错误: " ++ errorMessage;
           new_isUser := false;
           new_isStreaming := false;
           new_error := Some errorMessage;
           new_persistenceStatus := Some pending;
           new_attachments := JUndefined |}
        (store (hook r)) in
    let errorAssistantMessage := snd added in
    let r := on_hook (with_store (fun _ => fst added)) r in
    match finalDbConvUUID r with
    | Some conv =>
        if nonempty conv then
          let r :=
            if negb (is_saved (persistenceStatus (userMessage c)))
            then on_hook (save_then o (userMessage c) conv log_only) r
            else r in
          let r := on_hook (save_then o errorAssistantMessage conv
                              (set_status (id errorAssistantMessage) error)) r in
          let errorText :=
            if nonempty errorMessage
            then ("助手回复失败: " ++ errorMessage)%string
            else "助手回复失败: 未知错误" in
          on_hook (emit (call_saveErrorPlaceholder conv "error" errorText)) r
        else r
    | None => r
    end.

(** The [finally] block (source lines 1149 to 1244). *)
Definition finally_block (o : Outside) (c : Submission) (r : Run) : Hook :=
  let r :=
    match appendTimerRef (hook r) with
    | Some _ => on_hook (set_appendTimerRef (Some false)) r
    | None => r
    end in
  let r :=
    match assistantMessageId r with
    | Some assistantId =>
        if nonempty assistantId then
          match find_message assistantId (store (hook r)) with
          | Some finalMessageState =>
              if isStreaming finalMessageState then
                let r := on_hook (with_store (finalizeStreamingMessage assistantId)) r in
                let currentDbConvId :=
                  or_else (finalDbConvUUID r) (closed_dbConversationUUID c) in
                let r :=
                  match currentDbConvId with
                  | Some conv =>
                      if (nonempty conv
                          && negb (is_saved (persistenceStatus finalMessageState))
                          && negb (given (db_id finalMessageState)))%bool
                      then
                        match find_message assistantId (store (hook r)) with
                        | Some latestMessage =>
                            if has_text latestMessage then
                              let r := on_hook (set_status assistantId pending) r in
                              if wasManuallyStopped latestMessage
                              then on_hook (save_stopped_then o latestMessage conv
                                              (set_status assistantId error)) r
                              else on_hook (save_then o latestMessage conv
                                              (set_status assistantId error)) r
                            else r
                        | None => r
                        end
                      else r
                  | None => r
                  end in
                let r :=
                  match currentConversationId (store (hook r)) with
                  | Some currentConvId =>
                      if (nonempty currentConvId
                          && String.eqb (location_pathname (hook r))
                                        (chat_path currentConvId))%bool
                      then on_hook (emit (call_selectItem "chat" currentConvId)) r
                      else r
                  | None => r
                  end in
                match finalRealConvId r with
                | Some conv =>
                    if (isNewConversationFlow c && nonempty conv)%bool
                    then on_hook (emit (call_updatePendingStatus conv
                                          "stream_completed_title_pending")) r
                    else r
                | None => r
                end
              else r
          | None => r
          end
        else r
    | None => r
    end in
  set_isSubmittingRef false (with_store (setIsWaitingForResponse false) (hook r)).

(** The [try] block (source lines 410 to 1053): how it leaves, the state it
    leaves in, and what it started without awaiting. *)
Definition try_block (o : Outside) (sv : Services) (c : Submission) (r : Run)
  : Run * option Thrown * option (Hook -> Hook) :=
  let opened := if isNewConversationFlow c
                then open_new o sv c r
                else open_existing o sv c r in
  let r := fst opened in
  match snd opened with
  | Threw t => (r, Some t, None)
  | Ok (None, _) =>
      (r, Some (thrown_Error
                  (new_Error "Answer stream is undefined after API call.")), None)
  | Ok (Some stream, done) =>
      let looped := stream_loop o c (events stream) r in
      let r := fst looped in
      match (if snd looped then None else throws stream) with
      | Some t => (r, Some t, None)
      | None =>
          let r := on_hook (flushChunkBuffer (assistantMessageId r)) r in
          let r := completion_phase done r in
          let r := ids_phase o c r in
          let saved := save_phase o c r in
          (fst saved, None, snd saved)
      end
  end.


Definition messageAttachments (fs : option (list (list (string * JsVal)))) : JsVal :=
  match fs with
  | Some (f :: rest) =>
      JArr (map (fun file =>
                   JObj [("id", lookup_field "upload_file_id" file);
                         ("name", lookup_field "name" file);
                         ("size", lookup_field "size" file);
                         ("type", lookup_field "mime_type" file);
                         ("upload_file_id", lookup_field "upload_file_id" file)])
                (f :: rest))
  | _ => JUndefined
  end.

Definition temp_path (now : Z) : string :=
  "/chat/temp-" ++ NilZero.string_of_int (Z.to_int now).

(** Source lines 283 to 328: the app to talk to. *)
Definition choose_app (sv : Services) (h : Hook) : Hook * Attempt string :=
  match conversationAppId h with
  | Some original =>
      if nonempty original then
        let h := emit (call_validateConfig original "message") h in
        match validateConfig sv original "message" with
        | Threw t => (h, Threw t)
        | Ok _ => (emit call_ensureAppReady h, ensureAppReady sv)
        end
      else (emit call_ensureAppReady h, ensureAppReady sv)
  | None => (emit call_ensureAppReady h, ensureAppReady sv)
  end.

(** The message [handleSubmit] adds for the user's text (source lines 349
    to 355). *)
Definition user_message (message' : string)
  (files' : option (list (list (string * JsVal)))) : NewMessage :=
  {| new_text := message';
     new_isUser := true;
     new_isStreaming := false;
     new_error := None;
     new_persistenceStatus := Some pending;
     new_attachments := messageAttachments files' |}.

(** Source lines 330 to 408: everything before the [try], for a logged-in
    user and a ready app. *)
Definition prepare (sv : Services) (message' : string)
  (files' : option (list (list (string * JsVal)))) (inputs' : JsVal)
  (currentUserId' appId' : string) (h : Hook) : Submission * Run :=
  let closedDify := difyConversationId h in
  let closedDb := dbConversationUUID h in
  let welcome := isWelcomeScreen h in
  let h := set_isSubmittingRef true h in
  let h := with_store (setIsWaitingForResponse true) h in
  let added := addMessage (user_message message' files') (store h) in
  let h := with_store (fun _ => fst added) h in
  let h :=
    if welcome then
      let h := setIsWelcomeScreen false h in
      if String.eqb (location_pathname h) "/chat/new"
      then set_location_pathname (temp_path (Date_now sv))
             (emit (call_history_replaceState (temp_path (Date_now sv))) h)
      else h
    else h in
  let h := with_store (setCurrentTaskId None) h in
  let isNew := (urlIndicatesNew h || negb (given closedDify))%bool in
  let h :=
    if isNew then
      let h := match closedDify with
               | Some _ => setDifyConversationId None h
               | None => h
               end in
      match currentConversationId (store h) with
      | Some _ =>
          if urlIndicatesNew h
          then with_store (setCurrentConversationId None) h
          else h
      | None => h
      end
    else h in
  let h := set_chunkBufferRef "" h in
  ({| message := message';
      files := files';
      inputs := inputs';
      userId := currentUserId';
      appId := appId';
      userMessage := snd added;
      closed_difyConversationId := closedDify;
      closed_dbConversationUUID := closedDb;
      isNewConversationFlow := isNew |},
   {| hook := h;
      assistantMessageId := None;
      finalDbConvUUID := None;
      finalRealConvId := None;
      finalTaskId := None;
      lastAppendTime := Date_now sv |}).

(** Source lines 410 to 1244: the [try], [catch] and [finally] blocks, then
    what the [try] block started without awaiting. *)
Definition complete (o : Outside) (sv : Services) (c : Submission) (r : Run)
  : Hook :=
  let tried := try_block o sv c r in
  let r := fst (fst tried) in
  let r := match snd (fst tried) with
           | Some t => catch_block o c t r
           | None => r
           end in
  let h := finally_block o c r in
  match snd tried with
  | Some continuation => continuation h
  | None => h
  end.

Definition submit (o : Outside) (sv : Services) (message' : string)
  (files' : option (list (list (string * JsVal)))) (inputs' : JsVal)
  (currentUserId' appId' : string) (h : Hook) : Hook :=
  let prepared := prepare sv message' files' inputs' currentUserId' appId' h in
  complete o sv (fst prepared) (snd prepared).

Definition handleSubmit (o : Outside) (sv : Services) (message' : string)
  (files' : option (list (list (string * JsVal)))) (inputs' : JsVal)
  (h : Hook) : Hook :=
  if isSubmittingRef h then h
  else if selectIsProcessing (store h) then h
  else
    match currentUserId o with
    | Some currentUserId' =>
        if nonempty currentUserId' then
          let chosen := choose_app sv h in
          let h := fst chosen in
          match snd chosen with
          | Ok appId' => submit o sv message' files' inputs' currentUserId' appId' h
          | Threw t =>
              let errorMessage :=
                match t with
                | thrown_Error e => Error_message e
                | thrown_other => "应用配置获取失败"
                end in
              with_store
                (fun s =>
                   fst (addMessage
                          {| new_text :=
                               "抱歉，无法获取应用配置: " ++ errorMessage
                               ++ "。请检查网络连接或联系管理员。";
                             new_isUser := false;
                             new_isStreaming := false;
                             new_error := Some errorMessage;
                             new_persistenceStatus := Some error;
                             new_attachments := JUndefined |} s)) h
          end
        else h
    | None => h
    end.

(** *** What a stream delivered *)




(** The state of a run while its assistant message [i] is being streamed:
    [total] is the text of the message followed by the buffer. *)
Definition streaming (i total : string) (r : Run) : Prop :=
  assistantMessageId r = Some i
  /\ streamingMessageId (store (hook r)) = Some i
  /\ exists m, find_message i (store (hook r)) = Some m
               /\ isUser m = false
               /\ (text m ++ chunkBufferRef (hook r))%string = total.



(** The ids of the stored messages, in order, each with the side of the
    conversation it is from. *)
Definition sides (s : ChatState) : list (string * bool) :=
  map (fun m => (id m, isUser m)) (messages s).



(** *** A save attempt that tracks the persistence status *)


(** *** Sample surroundings *)

Definition empty_store : ChatState :=
  {| messages := [];
     streamingMessageId := None;
     isWaitingForResponse := false;
     currentConversationId := None;
     currentTaskId := None;
     nextMessage := 0 |}.

(** A hook on the page of conversation [conv-1], known to the database as
    [db-1], with nothing in flight. *)
Definition idle_hook : Hook :=
  {| store := empty_store;
     difyConversationId := Some "conv-1";
     dbConversationUUID := Some "db-1";
     conversationAppId := None;
     isSubmittingRef := false;
     chunkBufferRef := "";
     appendTimerRef := None;
     lastStreamingCheckRef := None;
     isWelcomeScreen := false;
     location_pathname := "/chat/conv-1";
     trace := [] |}.

(** A logged-in user on the route [path]; no conversation is found, and
    every save and the remote stop succeed. *)
Definition outside_at (path : string) : Outside :=
  {| currentUserId := Some "user-1";
     currentAppId := Some "app-1";
     currentAppInstance := Some (JObj []);
     currentPathname := Some path;
     new_Date_toISOString := "2025-01-01T00:00:00.000Z";
     getConversationByExternalId := fun _ => Resolved (success None);
     saveMessage := fun _ _ => true;
     saveStoppedAssistantMessage := fun _ _ => true;
     saved_row := fun m _ => ("row-" ++ id m)%string;
     saveErrorPlaceholder := fun _ _ _ => true;
     stopDifyStreamingTask := fun _ _ _ => true |}.

(** The same surroundings with nobody logged in. *)
Definition logged_out : Outside :=
  {| currentUserId := None;
     currentAppId := Some "app-1";
     currentAppInstance := Some (JObj []);
     currentPathname := Some "/chat/conv-1";
     new_Date_toISOString := "2025-01-01T00:00:00.000Z";
     getConversationByExternalId := fun _ => Resolved (success None);
     saveMessage := fun _ _ => true;
     saveStoppedAssistantMessage := fun _ _ => true;
     saved_row := fun m _ => ("row-" ++ id m)%string;
     saveErrorPlaceholder := fun _ _ _ => true;
     stopDifyStreamingTask := fun _ _ _ => true |}.

(** An assistant message whose stream has delivered "partial" so far. *)
Definition partial_reply : ChatMessage :=
  {| id := "msg-0";
     text := "partial";
     isUser := false;
     isStreaming := true;
     wasManuallyStopped := false;
     persistenceStatus := None;
     db_id := None;
     metadata := JUndefined;
     error_text := None;
     token_count := JUndefined;
     attachments := JUndefined |}.

(** The hook while [partial_reply] is being streamed; [taskId] is the
    current task, [buffer] what the chunk buffer holds. *)
Definition streaming_with (taskId : option string) (buffer : string) : Hook :=
  {| store := {| messages := [partial_reply];
                 streamingMessageId := Some "msg-0";
                 isWaitingForResponse := false;
                 currentConversationId := Some "conv-1";
                 currentTaskId := taskId;
                 nextMessage := 1 |};
     difyConversationId := Some "conv-1";
     dbConversationUUID := Some "db-1";
     conversationAppId := None;
     isSubmittingRef := true;
     chunkBufferRef := buffer;
     appendTimerRef := None;
     lastStreamingCheckRef := None;
     isWelcomeScreen := false;
     location_pathname := "/chat/conv-1";
     trace := [] |}.

Definition streaming_hook : Hook := streaming_with None "".

(** Services that are ready, and answer with the given stream, the
    conversation [conv-1] and the task [task-1]. *)
Definition streaming_reply (evs : list StreamEvent) : Services :=
  {| Date_now := 1000;
     validateConfig := fun _ _ => Ok tt;
     ensureAppReady := Ok "app-1";
     initiateNewConversation :=
       fun _ _ _ =>
         (None,
          Ok {| creation_error := None;
                creation_answerStream := Some {| events := evs; throws := None |};
                realConvId := Some "conv-1";
                taskId := Some "task-1";
                creation_completionPromise := None |});
     streamDifyChat :=
       fun _ _ =>
         (None,
          Ok {| answerStream := Some {| events := evs; throws := None |};
                getConversationId := Some "conv-1";
                getTaskId := Some "task-1";
                completionPromise := None |}) |}.

(** A reply that arrives in three chunks, with one timeout in between. *)
Definition hello_stream : list StreamEvent :=
  [Chunk 1000 "Hel"; TimerFired 1040; Chunk 1050 "lo"; Chunk 1060 "!"].




(** *** The rest of the hook's interface *)

(** [clearConversationState] (source lines 1673 to 1678). *)
Definition clearConversationState (h : Hook) : Hook :=
  setConversationAppId None
    (setDbConversationUUID None (setDifyConversationId None h)).

(** *** What the streaming check looks for *)

(** At time [now] the message being streamed is flagged as streaming and
    has the id and the text recorded by a check more than 30000 ms ago. *)
Definition stalled (now : Z) (h : Hook) : Prop :=
  exists i m last,
    streamingMessageId (store h) = Some i
    /\ i <> ""
    /\ find_message i (store h) = Some m
    /\ isStreaming m = true
    /\ lastStreamingCheckRef h = Some last
    /\ id m = messageId last
    /\ text m = content last
    /\ (now - lastUpdateTime last > 30000)%Z.


(** *** Calls, by kind *)

(** The calls that open an answer stream. *)
Definition opens_stream (e : Effect) : bool :=
  match e with
  | call_initiateNewConversation _ _ _ | call_streamDifyChat _ _ => true
  | _ => false
  end.

Definition is_remote_stop (e : Effect) : bool :=
  match e with
  | call_stopDifyStreamingTask _ _ _ => true
  | _ => false
  end.

Definition is_pending_status (e : Effect) : bool :=
  match e with
  | call_updatePendingStatus _ _ => true
  | _ => false
  end.


(** The calls [handleStopProcessing] may make from the hook [h]: it updates
    messages, saves, looks the conversation up, and asks the service to stop
    the current task of the configured app on behalf of the user. *)
Definition stop_call (o : Outside) (h : Hook) (e : Effect) : Prop :=
  match e with
  | call_updateMessage _ _ | call_saveMessage _ _
  | call_getConversationByExternalId _ => True
  | call_stopDifyStreamingTask appId' taskId' user =>
      currentAppId o = Some appId'
      /\ currentAppInstance o <> None
      /\ currentTaskId (store h) = Some taskId'
      /\ taskId' <> ""
      /\ currentUserId o = Some user
  | _ => False
  end.

(** Between [h] and [h'] the hook made calls that [handleStopProcessing]
    may make from [h0], at most [n] of them remote stops. *)
Definition stop_calls (o : Outside) (h0 : Hook) (n : nat) (h h' : Hook) : Prop :=
  exists es,
    trace h' = trace h ++ es
    /\ Forall (stop_call o h0) es
    /\ List.length (filter is_remote_stop es) <= n.


(** The calls made so far that open an answer stream. *)
Definition opened_calls (h : Hook) : list Effect :=
  filter opens_stream (trace h).

(** The conversation the hook and the store are in is the one of [h0]. *)
Definition same_conversation (h0 h : Hook) : Prop :=
  difyConversationId h = difyConversationId h0
  /\ currentConversationId (store h) = currentConversationId (store h0).

End ChatInterface.

(* ================================================================== *)
(** ** The filters of searchUsersForGroup, as PostgREST reads them *)
(* ================================================================== *)

Module PostgREST.
Import Js Supabase.

(** The rows that answer a query are chosen by the PostgREST service behind
    Supabase, not by the application.  This module is a reference reading
    of the part of its filter language that [searchUsersForGroup] sends:
    [eq], [not.in], an [or] group of [ilike] conditions separated by commas,
    [order] and [limit].  Letters are folded as ASCII, and a pattern is
    matched byte by byte. *)

Definition Row : Type := list (string * JsVal).

Definition lower (c : ascii) : ascii :=
  let n := nat_of_ascii c in
  if (Nat.leb 65 n && Nat.leb n 90)%bool then ascii_of_nat (n + 32) else c.

(** SQL [ILIKE]: [%] stands for any run of characters, [_] for any one
    character, letters match without regard to case. *)
Fixpoint ilike (pattern : string) : string -> bool :=
  match pattern with
  | EmptyString => fun s => String.eqb s ""
  | String p rest =>
      if Ascii.eqb p "%"%char then
        fix skip (s : string) : bool :=
          (ilike rest s
           || match s with
              | EmptyString => false
              | String _ s' => skip s'
              end)%bool
      else
        fun s =>
          match s with
          | EmptyString => false
          | String c s' =>
              ((Ascii.eqb p "_"%char || Ascii.eqb (lower p) (lower c))
               && ilike rest s')%bool
          end
  end.

(** The pattern the service hands to [ILIKE]: in a filter, [*] stands for
    [%] as well. *)
Fixpoint wildcards (pattern : string) : string :=
  match pattern with
  | EmptyString => EmptyString
  | String c rest =>
      String (if Ascii.eqb c "*"%char then "%"%char else c) (wildcards rest)
  end.

(** The pieces of [s] between its occurrences of [sep]. *)
Fixpoint split_at (sep : ascii) (piece s : string) : list string :=
  match s with
  | EmptyString => [rev_string "" piece]
  | String c rest =>
      if Ascii.eqb c sep
      then rev_string "" piece :: split_at sep "" rest
      else split_at sep (String c piece) rest
  end.

(** [s] cut at its first [sep]. *)
Fixpoint cut_at (sep : ascii) (s : string) : option (string * string) :=
  match s with
  | EmptyString => None
  | String c rest =>
      if Ascii.eqb c sep then Some ("", rest)
      else match cut_at sep rest with
           | Some (a, b) => Some (String c a, b)
           | None => None
           end
  end.

(** A condition [column.operator.value]. *)
Definition parse_condition (s : string) : option (string * string * string) :=
  match cut_at "."%char s with
  | Some (column, rest) =>
      match cut_at "."%char rest with
      | Some (operator, value) => Some (column, operator, value)
      | None => None
      end
  | None => None
  end.

Definition text_of (v : JsVal) : option string :=
  match v with JStr s => Some s | _ => None end.

(** Whether a row passes one condition of an [or] group; [None] when the
    condition is not of the form the service accepts here. *)
Definition condition_holds (row : Row) (condition : string) : option bool :=
  match parse_condition condition with
  | Some (column, operator, value) =>
      if String.eqb operator "ilike" then
        match text_of (lookup_field column row) with
        | Some s => Some (ilike (wildcards value) s)
        | None => Some false
        end
      else None
  | None => None
  end.

Fixpoint any_holds (row : Row) (conditions : list string) : option bool :=
  match conditions with
  | [] => Some false
  | c :: rest =>
      match condition_holds row c, any_holds row rest with
      | Some a, Some b => Some (a || b)%bool
      | _, _ => None
      end
  end.

(** The elements of a list literal [(a,b,c)]. *)
Definition list_literal (s : string) : list string :=
  split_at ","%char ""
    (String.substring 1 (String.length s - 2) s).

(** Whether a row passes one builder call; calls that do not filter let
    every row pass. *)
Definition passes (row : Row) (c : Call) : option bool :=
  match c with
  | QEq column (JStr v) =>
      match text_of (lookup_field column row) with
      | Some s => Some (String.eqb s v)
      | None => Some false
      end
  | QNot column operator value =>
      if String.eqb operator "in" then
        match text_of (lookup_field column row) with
        | Some s => Some (negb (existsb (String.eqb s) (list_literal value)))
        | None => Some false
        end
      else None
  | QOr filters => any_holds row (split_at ","%char "" filters)
  | QSelect _ _ | QOrder _ _ | QLimit _ => Some true
  | _ => None
  end.

Fixpoint passes_all (row : Row) (cs : list Call) : option bool :=
  match cs with
  | [] => Some true
  | c :: rest =>
      match passes row c, passes_all row rest with
      | Some a, Some b => Some (a && b)%bool
      | _, _ => None
      end
  end.

Fixpoint keep (cs : list Call) (rows : list Row) : option (list Row) :=
  match rows with
  | [] => Some []
  | row :: rest =>
      match passes_all row cs, keep cs rest with
      | Some true, Some l => Some (row :: l)
      | Some false, Some l => Some l
      | _, _ => None
      end
  end.

Definition sort_key (column : string) (row : Row) : string :=
  match text_of (lookup_field column row) with Some s => s | None => "" end.

Fixpoint insert_by (column : string) (ascending : bool) (row : Row)
  (sorted : list Row) : list Row :=
  match sorted with
  | [] => [row]
  | x :: rest =>
      let before :=
        if ascending
        then String.leb (sort_key column row) (sort_key column x)
        else String.leb (sort_key column x) (sort_key column row) in
      if before then row :: sorted else x :: insert_by column ascending row rest
  end.

Fixpoint ordered (cs : list Call) (rows : list Row) : list Row :=
  match cs with
  | [] => rows
  | QOrder column ascending :: _ =>
      fold_right (insert_by column ascending) [] rows
  | _ :: rest => ordered rest rows
  end.

Fixpoint limited (cs : list Call) (rows : list Row) : list Row :=
  match cs with
  | [] => rows
  | QLimit n :: _ => firstn n rows
  | _ :: rest => limited rest rows
  end.

(** The rows a read query returns: filtered, then ordered, then limited. *)
Definition answer (q : Query) (table : list Row) : option (list Row) :=
  match keep (calls q) table with
  | Some rows => Some (limited (calls q) (ordered (calls q) rows))
  | None => None
  end.

(** A client whose [profiles] table holds the given rows. *)
Definition serving (profiles : list Row) : Client :=
  fun q =>
    match source q with
    | from table =>
        if String.eqb table "profiles" then
          match answer q profiles with
          | Some rows =>
              Resolved {| data := JArr (map JObj rows);
                          error := None; count := JNull |}
          | None =>
              Resolved {| data := JNull;
                          error := Some {| message := "failed to parse filter" |};
                          count := JNull |}
          end
        else Rejected JUndefined
    | rpc _ _ => Rejected JUndefined
    end.

(** *** Sample data *)

Definition alice : Row :=
  [("id", JStr "u1");
   ("username", JStr "alice");
   ("full_name", JStr "Alice Liddell");
   ("email", JStr "alice@example.org");
   ("avatar_url", JNull);
   ("role", JStr "user");
   ("status", JStr "active");
   ("created_at", JStr "2025-01-01T00:00:00Z")].

(** A search term that closes the first pattern and opens a condition on
    another column. *)
Definition crafted_term : string := "zz%,role.ilike.%".

End PostgREST.

(* ================================================================== *)
(** ** The chatflow hook ([lib/hooks/use-chatflow-interface.ts]) *)
(* ================================================================== *)

Module ChatflowInterface.
Import Js ChatStore ChatInterface.

(** Source lines 184 to 191: the query goes out as typed. *)
Definition formatChatflowMessage (query : string) (inputs : JsVal) : string :=
  query.

(** Source lines 196 to 210. *)
Definition formatFilesForDify (files : list (list (string * JsVal)))
  : list (list (string * JsVal)) :=
  map (fun file =>
         if truthy (lookup_field "upload_file_id" file) then
           [("type", js_or (lookup_field "type" file) (JStr "document"));
            ("transfer_method", JStr "local_file");
            ("upload_file_id", lookup_field "upload_file_id" file);
            ("name", lookup_field "name" file);
            ("size", lookup_field "size" file);
            ("mime_type", lookup_field "mime_type" file)]
         else file)
      files.

(** The calls [handleChatflowSubmit] makes on the execution store
    ([lib/stores/chatflow-execution-store]); the node events of a stream
    and the effect of source lines 68 to 84 reach that store on their
    own. *)
Inductive TrackerCall : Type :=
| call_startExecution
| call_setError (message : string).

(** The chat hook the chatflow hook wraps, and the calls made on the
    execution store so far. *)
Record Chatflow : Type :=
  { chatInterface : Hook;
    tracker : list TrackerCall }.

(** Source lines 31 to 65.  [handleSubmit] settles what it calls itself and
    hands back the hook, so the [catch] of lines 55 to 62 has nothing to
    report. *)
Definition handleChatflowSubmit (o : Outside) (sv : Services) (query : string)
  (inputs : JsVal) (files : option (list (list (string * JsVal))))
  (s : Chatflow) : Chatflow :=
  let started := tracker s ++ [call_startExecution] in
  let userMessage := formatChatflowMessage query inputs in
  let difyFiles :=
    match files with
    | Some files' => Some (formatFilesForDify files')
    | None => None
    end in
  {| chatInterface := handleSubmit o sv userMessage difyFiles inputs (chatInterface s);
     tracker := started |}.

(** [typeof v === 'object']. *)
Definition typeof_object (v : JsVal) : bool :=
  match v with
  | JNull | JArr _ | JObj _ => true
  | _ => false
  end.

(** [item && typeof item === 'object' && (item.file || item.name)], the
    test of source lines 276, 280 to 284, 319 and 324 to 328. *)
Definition looks_like_file (item : JsVal) : bool :=
  (truthy item && typeof_object item
   && truthy (js_or (opt_prop item "file") (opt_prop item "name")))%bool.

(** Source lines 269 to 291, on the entries of the form data in the order
    [Object.values] lists them. *)
Definition extractFilesFromFormData (formData : list (string * JsVal))
  : list JsVal :=
  fold_left
    (fun files value =>
       match value with
       | JArr items =>
           fold_left
             (fun files item =>
                if looks_like_file item then files ++ [item] else files)
             items files
       | _ => if looks_like_file value then files ++ [value] else files
       end)
    (map snd formData) [].

(** Source lines 296 to 298. *)
Definition hasFilesInFormData (formData : list (string * JsVal)) : bool :=
  Nat.ltb 0 (List.length (extractFilesFromFormData formData)).

Record FormDataSummary : Type :=
  { fieldCount : nat;
    hasFiles : bool;
    nonEmptyFields : list string }.

(** [value !== null && value !== undefined && value !== '']. *)
Definition filled (value : JsVal) : bool :=
  match value with
  | JNull | JUndefined => false
  | JStr s => negb (String.eqb s "")
  | _ => true
  end.

(** Source lines 303 to 339. *)
Definition getFormDataSummary (formData : list (string * JsVal))
  : FormDataSummary :=
  let walked :=
    fold_left
      (fun (state : list string * bool) (entry : string * JsVal) =>
         let (key, value) := entry in
         if filled value then
           (fst state ++ [key],
            match value with
            | JArr items =>
                if existsb looks_like_file items then true else snd state
            | _ => if looks_like_file value then true else snd state
            end)
         else state)
      formData ([], false) in
  {| fieldCount := List.length (fst walked);
     hasFiles := snd walked;
     nonEmptyFields := fst walked |}.

(** The values of one form field that pass for files: the items of an
    array, or the value itself. *)
Definition file_values (value : JsVal) : list JsVal :=
  match value with
  | JArr items => filter looks_like_file items
  | _ => if looks_like_file value then [value] else []
  end.

(** What [handleSubmit] reads of a file it is given (source lines 336 to
    347 and 424 to 430). *)
Definition fields_read (file : list (string * JsVal))
  : JsVal * JsVal * JsVal * JsVal :=
  (lookup_field "upload_file_id" file, lookup_field "name" file,
   lookup_field "size" file, lookup_field "mime_type" file).

(** Two submissions that differ at most in the files they hold, and not in
    what goes to Dify of them. *)
Definition same_request (c c' : Submission) : Prop :=
  message c' = message c
  /\ inputs c' = inputs c
  /\ userId c' = userId c
  /\ appId c' = appId c
  /\ userMessage c' = userMessage c
  /\ closed_difyConversationId c' = closed_difyConversationId c
  /\ closed_dbConversationUUID c' = closed_dbConversationUUID c
  /\ isNewConversationFlow c' = isNewConversationFlow c
  /\ difyFiles c' = difyFiles c.

End ChatflowInterface.

(* ================================================================== *)
(** ** The result viewer ([components/workflow/workflow-tracker/result-viewer.tsx]) *)
(* ================================================================== *)

Module ResultViewer.
Import Js.

(** Positions count the bytes of the UTF-8 text, where JavaScript counts
    UTF-16 code units.  [parseThinkContent] only takes positions from
    [indexOf] on the two tags, adds the length of a tag, and hands them to
    [substring]; the tags are ASCII, and in a UTF-8 text an ASCII tag is
    found where, and only where, the text holds it, so the pieces cut are
    the same texts either way. *)

(** [Math.min(Math.max(position, 0), s.length)]: how [indexOf] and
    [substring] read a position. *)
Definition clamp (s : string) (position : Z) : nat :=
  Z.to_nat (Z.min (Z.max position 0) (Z.of_nat (String.length s))).

(** [s.indexOf(p, position)]. *)
Definition indexOf (s p : string) (position : Z) : Z :=
  match String.index (clamp s position) p s with
  | Some i => Z.of_nat i
  | None => (-1)%Z
  end.

(** [s.substring(start, end)], and [s.substring(start)] for no [end]. *)
Definition js_substring (s : string) (start : Z) (end' : option Z) : string :=
  let a := clamp s start in
  let b := match end' with
           | Some e => clamp s e
           | None => String.length s
           end in
  String.substring (Nat.min a b) (Nat.max a b - Nat.min a b) s.

Record ThinkContent : Type :=
  { hasThinkBlock : bool;
    thinkContent : string;
    mainContent : string;
    isThinkComplete : bool }.

Definition thinkStartTag : string := "<think>".
Definition thinkEndTag : string := "</think>".

(** Source lines 40 to 92. *)
Definition parseThinkContent (content : string) : ThinkContent :=
  if includes content thinkStartTag then
    let startIndex := indexOf content thinkStartTag 0 in
    let endIndex := indexOf content thinkEndTag startIndex in
    if negb (endIndex =? -1)%Z then
      let thinkContent' :=
        js_substring content
          (startIndex + Z.of_nat (String.length thinkStartTag)) (Some endIndex) in
      let mainContent' :=
        trim (js_substring content
                (endIndex + Z.of_nat (String.length thinkEndTag)) None) in
      {| hasThinkBlock := true;
         thinkContent := trim thinkContent';
         mainContent := mainContent';
         isThinkComplete := true |}
    else
      let thinkContent' :=
        js_substring content
          (startIndex + Z.of_nat (String.length thinkStartTag)) None in
      {| hasThinkBlock := true;
         thinkContent := trim thinkContent';
         mainContent := "";
         isThinkComplete := false |}
  else
    {| hasThinkBlock := false;
       thinkContent := "";
       mainContent := content;
       isThinkComplete := true |}.

End ResultViewer.

(* ================================================================== *)
(** * Properties of the data layer *)
(* ================================================================== *)

Section DataLayer.
Import Js Supabase ResultType GroupPermissions.

Lemma try_catch_resolves {A} (body : Promise A) (fallback : A) :
  exists a, outcome (try_catch body (fun _ => ret fallback)) = Resolved a.
Proof.
  unfold try_catch.
  destruct (outcome body) as [a|e] eqn:Hbody.
  - exists a. exact Hbody.
  - exists fallback. reflexivity.
Qed.

Lemma run_never_rejects (env : Env) (c : Invocation) :
  exists res, outcome (run env c) = Resolved res.
Proof.
  destruct c; cbn [run];
    try (unfold incrementAppUsage); try (unfold searchUsersForGroup);
    apply try_catch_resolves.
Qed.

(** Unfold one exported function down to the client's answers. *)
Ltac open_function :=
  unfold run, getGroups, createGroup, updateGroup, deleteGroup, getGroupMembers,
    addGroupMember, removeGroupMember, getGroupAppPermissions,
    setGroupAppPermission, removeGroupAppPermission,
    removeAllGroupAppPermissions, getUserAccessibleApps,
    checkUserAppPermission, incrementAppUsage, searchUsersForGroup,
    try_catch, bind, lift, await, ret in *;
  cbn [issued outcome app] in *.

(** Case analysis on the answer of the client that blocks reduction. *)
Ltac next_answer supabase :=
  match goal with
  | H : context [supabase ?q] |- _ =>
      let E := fresh "Hanswer" in
      destruct (supabase q) as [?r|?reason] eqn:E; cbn [issued outcome app] in *
  | |- context [supabase ?q] =>
      let E := fresh "Hanswer" in
      destruct (supabase q) as [?r|?reason] eqn:E; cbn [issued outcome app] in *
  end.

Ltac next_error :=
  match goal with
  | H : context [match error ?r with Some _ => _ | None => _ end] |- _ =>
      let E := fresh "Herror" in
      destruct (error r) as [?e|] eqn:E; cbn [issued outcome app] in *
  | |- context [match error ?r with Some _ => _ | None => _ end] =>
      let E := fresh "Herror" in
      destruct (error r) as [?e|] eqn:E; cbn [issued outcome app] in *
  end.

Lemma single_query_shape (env : Env) (c : Invocation) (supabase : Client)
  (q : Query) (rest : list Query) :
  c <> call_getGroups ->
  createClient env = Resolved supabase ->
  issued (run env c) = q :: rest ->
  rest = []
  /\ (forall reason, supabase q = Rejected reason ->
        outcome (run env c) = Resolved (failure (new_Error (catch_message c))))
  /\ (forall r e, supabase q = Resolved r -> error r = Some e ->
        outcome (run env c) = Resolved (failure (new_Error (message e))))
  /\ (forall r, supabase q = Resolved r -> error r = None ->
        outcome (run env c) = Resolved (success (carried env c (data r)))).
Proof.
  intros Hc Hclient Hissued.
  destruct c; try congruence; clear Hc;
    try (destruct is_enabled);
    open_function; rewrite Hclient in *; cbn [issued outcome app] in *;
    next_answer supabase; try next_error;
    try (match goal with
         | H : context [truthy ?v] |- _ =>
             destruct (truthy v) eqn:?; cbn [negb issued outcome app] in *
         end);
    injection Hissued as <- <-;
    (split; [reflexivity|]);
    repeat split; intros; cbn [carried]; try congruence;
    match goal with
    | H1 : ?x = Resolved ?a, H2 : ?x = Resolved ?b |- _ =>
        rewrite H1 in H2; injection H2 as <-
    end;
    match goal with
    | H : truthy _ = _ |- _ => rewrite H; reflexivity
    end.
Qed.

Lemma count_members_issues (supabase : Client) (group : JsVal) (q : Query)
  (reason : JsVal) :
  In q (issued (count_members supabase group)) ->
  supabase q = Rejected reason ->
  exists e, outcome (count_members supabase group) = Rejected e.
Proof.
  unfold count_members, bind, lift, await.
  destruct (get_prop group "id") as [gid|e]; cbn [issued outcome app].
  - destruct (supabase _) as [r|e] eqn:Hq; cbn [issued outcome app].
    + destruct (error r); cbn [issued outcome app In];
        intros [<-|[]] Hrej; congruence.
    + intros _ _. now exists e.
  - intros [].
Qed.

Lemma Promise_all_rejects {A} (ps : list (Promise A)) :
  (exists p e, In p ps /\ outcome p = Rejected e) ->
  exists e, outcome (Promise_all ps) = Rejected e.
Proof.
  induction ps as [|p ps IH]; intros (p0 & e & Hin & Hrej).
  - destruct Hin.
  - cbn [Promise_all outcome].
    destruct (outcome p) as [a|e'] eqn:Hp.
    + destruct Hin as [->|Hin]; [congruence|].
      destruct IH as [e'' ->]; [now exists p0, e|].
      now exists e''.
    + now exists e'.
Qed.

Lemma Promise_all_issued {A} (ps : list (Promise A)) (q : Query) :
  In q (issued (Promise_all ps)) -> exists p, In p ps /\ In q (issued p).
Proof.
  induction ps as [|p ps IH]; cbn [Promise_all issued ret].
  - intros [].
  - intros Hin. apply in_app_or in Hin as [Hin|Hin].
    + exists p. split; [now left|assumption].
    + destruct (IH Hin) as (p' & Hp' & Hq). exists p'. split; [now right|assumption].
Qed.

Lemma getGroups_shape (env : Env) (supabase : Client) (q : Query)
  (rest : list Query) :
  createClient env = Resolved supabase ->
  issued (getGroups env) = q :: rest ->
  (forall reason, supabase q = Rejected reason ->
     outcome (getGroups env) = Resolved (failure (new_Error "获取群组列表失败")))
  /\ (forall r e, supabase q = Resolved r -> error r = Some e ->
        outcome (getGroups env) = Resolved (failure (new_Error (message e))))
  /\ (forall r rows, supabase q = Resolved r -> error r = None ->
        js_or (data r) (JArr []) = JArr rows ->
        rest = issued (Promise_all (map (count_members supabase) rows))
        /\ match outcome (Promise_all (map (count_members supabase) rows)) with
           | Resolved groups =>
               outcome (getGroups env) = Resolved (success (JArr groups))
           | Rejected _ =>
               outcome (getGroups env)
               = Resolved (failure (new_Error "获取群组列表失败"))
           end).
Proof.
  intros Hclient Hissued.
  unfold getGroups, try_catch, bind, lift, await, ret in *.
  rewrite Hclient in *. cbn [issued outcome app] in *.
  destruct (supabase _) as [r|reason] eqn:Hq; cbn [issued outcome app] in *.
  - destruct (error r) as [e|] eqn:He; cbn [issued outcome app] in *.
    + injection Hissued as <- <-.
      repeat split; intros; congruence.
    + destruct (as_array (js_or (data r) (JArr []))) as [rows|e] eqn:Harr;
        cbn [issued outcome app] in *.
      * destruct (outcome (Promise_all (map (count_members supabase) rows)))
          as [groups|e] eqn:Hall; cbn [issued outcome app] in *;
          injection Hissued as <- <-;
          (split; [intros; congruence|]); (split; [intros; congruence|]);
          intros r' rows' Hr' _ Hrows';
          rewrite Hq in Hr'; injection Hr' as <-;
          rewrite Hrows' in Harr; cbn [as_array] in Harr;
          injection Harr as <-; rewrite Hall;
          (split; [now rewrite app_nil_r|reflexivity]).
      * injection Hissued as <- <-.
        (split; [intros; congruence|]); (split; [intros; congruence|]).
        intros r' rows' Hr' _ Hrows'.
        rewrite Hq in Hr'; injection Hr' as <-.
        rewrite Hrows' in Harr. discriminate Harr.
  - injection Hissued as <- <-.
    repeat split; intros; congruence.
Qed.

Lemma count_members_tolerates_error (supabase : Client) (group : JsVal)
  (q : Query) (r : Response) (e : PostgrestError) :
  In q (issued (count_members supabase group)) ->
  supabase q = Resolved r ->
  error r = Some e ->
  outcome (count_members supabase group)
  = Resolved (JObj (set_field "member_count" (JNum 0) (own_properties group))).
Proof.
  unfold count_members, bind, lift, await, ret.
  destruct (get_prop group "id") as [gid|e']; cbn [issued outcome app].
  - destruct (supabase _) as [r'|e'] eqn:Hq; cbn [issued outcome app].
    + destruct (error r') as [e'|] eqn:He; cbn [issued outcome app In];
        intros [<-|[]] Hr Herr; rewrite Hq in Hr; injection Hr as <-;
        [reflexivity|congruence].
    + cbn [In]. intros [<-|[]] Hr. congruence.
  - intros [].
Qed.

Lemma getGroups_rejection (env : Env) (supabase : Client) (q : Query)
  (reason : JsVal) :
  createClient env = Resolved supabase ->
  In q (issued (getGroups env)) ->
  supabase q = Rejected reason ->
  outcome (getGroups env) = Resolved (failure (new_Error "获取群组列表失败")).
Proof.
  intros Hclient Hin Hrej.
  unfold getGroups, try_catch, bind, lift, await, ret in *.
  rewrite Hclient in *. cbn [issued outcome app] in *.
  destruct (supabase _) as [r|reason'] eqn:Hq; cbn [issued outcome app] in *;
    [|reflexivity].
  destruct (error r) as [e|] eqn:He; cbn [issued outcome app In] in *.
  - destruct Hin as [<-|[]]. congruence.
  - destruct (as_array (js_or (data r) (JArr []))) as [rows|e] eqn:Harr;
      cbn [issued outcome app In] in *; [|reflexivity].
    destruct (outcome (Promise_all (map (count_members supabase) rows)))
      as [groups|e] eqn:Hall; cbn [issued outcome app In] in *; [|reflexivity].
    exfalso.
    destruct Hin as [<-|Hin]; [congruence|].
    rewrite app_nil_r in Hin.
    apply Promise_all_issued in Hin as (p & Hp & Hqp).
    apply in_map_iff in Hp as (group & <- & Hgroup).
    destruct (count_members_issues supabase group q reason Hqp Hrej) as [e He'].
    destruct (Promise_all_rejects (map (count_members supabase) rows)) as [e' He''].
    + exists (count_members supabase group), e. split; [|assumption].
      apply in_map_iff. now exists group.
    + congruence.
Qed.

Lemma Invocation_is_getGroups (c : Invocation) :
  c = call_getGroups \/ c <> call_getGroups.
Proof. destruct c; (now left) || (right; discriminate). Qed.

Lemma run_without_client (env : Env) (c : Invocation) (reason : JsVal) :
  createClient env = Rejected reason ->
  run env c
  = {| issued := [];
       outcome := Resolved (failure (new_Error (catch_message c))) |}.
Proof.
  intros Hclient.
  destruct c; open_function; rewrite Hclient; reflexivity.
Qed.

(** C1, the claim as stated, fails: in [getGroups] a member-count query
    that reports an error does not make the call fail; the group is
    returned with [member_count] 0 in a success Result. *)
Lemma getGroups_succeeds_when_a_count_query_reports_an_error :
  ~ (forall (env : Env) (supabase : Client) (q : Query) (r : Response)
            (e : PostgrestError),
        createClient env = Resolved supabase ->
        In q (issued (getGroups env)) ->
        supabase q = Resolved r ->
        error r = Some e ->
        exists err, outcome (getGroups env) = Resolved (failure err)).
Proof.
  intros claim.
  destruct (claim (sample_env counting_fails) counting_fails
              {| source := from "group_members";
                 calls := [QSelect "*" [("count", JStr "exact"); ("head", JBool true)];
                           QEq "group_id" (JStr "g1")] |}
              {| data := JNull;
                 error := Some {| message := "permission denied" |};
                 count := JNull |}
              {| message := "permission denied" |}
              eq_refl (or_intror (or_introl eq_refl)) eq_refl eq_refl)
    as [err Herr].
  vm_compute in Herr. discriminate Herr.
Qed.

(** C1, as amended: every exported function of group-permissions.ts
    resolves to a Result and never rejects.  The Result is a failure
    carrying an Error when [createClient] or an awaited Supabase call
    raises (the message is the function's fixed one), and when the
    function's own query reports an error (the message is the reported
    one).  Otherwise it is a success carrying the data, a null list of rows
    being replaced by the empty list.  In [getGroups] the success carries the
    groups with their member counts, and a member-count query that reports
    an error counts as 0 members instead of failing the call. *)
Theorem group_permissions_return_results (env : Env) (c : Invocation) :
  (exists res, outcome (run env c) = Resolved res)
  /\ (forall reason,
        createClient env = Rejected reason ->
        outcome (run env c) = Resolved (failure (new_Error (catch_message c))))
  /\ (forall supabase q reason,
        createClient env = Resolved supabase ->
        In q (issued (run env c)) ->
        supabase q = Rejected reason ->
        outcome (run env c) = Resolved (failure (new_Error (catch_message c))))
  /\ (forall supabase q rest r e,
        createClient env = Resolved supabase ->
        issued (run env c) = q :: rest ->
        supabase q = Resolved r ->
        error r = Some e ->
        outcome (run env c) = Resolved (failure (new_Error (message e))))
  /\ (forall supabase q rest r,
        c <> call_getGroups ->
        createClient env = Resolved supabase ->
        issued (run env c) = q :: rest ->
        supabase q = Resolved r ->
        error r = None ->
        outcome (run env c) = Resolved (success (carried env c (data r))))
  /\ (returns_rows c = true -> carried env c JNull = JArr [])
  /\ (forall supabase q rest r rows,
        c = call_getGroups ->
        createClient env = Resolved supabase ->
        issued (run env c) = q :: rest ->
        supabase q = Resolved r ->
        error r = None ->
        js_or (data r) (JArr []) = JArr rows ->
        match outcome (Promise_all (map (count_members supabase) rows)) with
        | Resolved groups =>
            outcome (run env c) = Resolved (success (JArr groups))
        | Rejected _ =>
            outcome (run env c)
            = Resolved (failure (new_Error (catch_message c)))
        end)
  /\ (forall supabase group q r e,
        In q (issued (count_members supabase group)) ->
        supabase q = Resolved r ->
        error r = Some e ->
        outcome (count_members supabase group)
        = Resolved (JObj (set_field "member_count" (JNum 0)
                            (own_properties group)))).
Proof.
  split; [apply run_never_rejects|].
  split; [intros reason Hclient; now rewrite (run_without_client env c reason)|].
  split.
  { intros supabase q reason Hclient Hin Hrej.
    destruct (Invocation_is_getGroups c) as [->|Hc].
    - exact (getGroups_rejection env supabase q reason Hclient Hin Hrej).
    - destruct (issued (run env c)) as [|q0 rest] eqn:Hissued; [destruct Hin|].
      destruct (single_query_shape env c supabase q0 rest Hc Hclient Hissued)
        as (-> & Hrejected & _).
      destruct Hin as [->|[]]. exact (Hrejected reason Hrej). }
  split.
  { intros supabase q rest r e Hclient Hissued Hq He.
    destruct (Invocation_is_getGroups c) as [->|Hc].
    - exact (proj1 (proj2 (getGroups_shape env supabase q rest Hclient Hissued))
               r e Hq He).
    - exact (proj1 (proj2 (proj2
               (single_query_shape env c supabase q rest Hc Hclient Hissued)))
               r e Hq He). }
  split.
  { intros supabase q rest r Hc Hclient Hissued Hq He.
    exact (proj2 (proj2 (proj2
             (single_query_shape env c supabase q rest Hc Hclient Hissued)))
             r Hq He). }
  split; [destruct c; cbn; intros; (reflexivity || discriminate)|].
  split.
  { intros supabase q rest r rows -> Hclient Hissued Hq He Hrows.
    exact (proj2 (proj2 (proj2 (getGroups_shape env supabase q rest Hclient Hissued))
                    r rows Hq He Hrows)). }
  exact count_members_tolerates_error.
Qed.

(** The amended C1 at work: with a client that answers every query with no
    rows and no error, [getGroupMembers] resolves to a success carrying the
    empty list. *)
Lemma group_permissions_return_results_witness :
  outcome (run (sample_env answers_nothing) (call_getGroupMembers "g1"))
  = Resolved (success (JArr [])).
Proof.
  destruct (group_permissions_return_results
              (sample_env answers_nothing) (call_getGroupMembers "g1"))
    as (_ & _ & _ & _ & Hsuccess & _).
  refine (Hsuccess answers_nothing _ [] _ _ eq_refl eq_refl eq_refl eq_refl).
  discriminate.
Defined.

(** C6: the three permission functions call the Supabase RPC of the same
    name, once, and return what it answers without any permission logic of
    their own.  [getUserAccessibleApps] returns the rows, or the empty list
    for no data.  [checkUserAppPermission] returns the first row of an
    array, or the answer itself when it is not an array; when there is no
    row (an empty array, no data, or a falsy first row) it returns a record
    with [has_access] false and [quota_remaining] null.
    [incrementAppUsage] returns the first row likewise, [undefined] for an
    empty array, and its increment is 1 by default. *)
Theorem permission_decisions_are_delegated
  (env : Env) (supabase : Client) (userId serviceInstanceId : string)
  (increment : option Z) :
  createClient env = Resolved supabase ->
  let accessible :=
    {| source := rpc "get_user_accessible_apps" [("p_user_id", JStr userId)];
       calls := [] |} in
  let check :=
    {| source := rpc "check_user_app_permission"
                     [("p_user_id", JStr userId);
                      ("p_service_instance_id", JStr serviceInstanceId)];
       calls := [] |} in
  let usage (n : Z) :=
    {| source := rpc "increment_app_usage"
                     [("p_user_id", JStr userId);
                      ("p_service_instance_id", JStr serviceInstanceId);
                      ("p_increment", JNum n)];
       calls := [] |} in
  let no_access :=
    JObj [("has_access", JBool false);
          ("quota_remaining", JNull);
          ("error_message", JStr "权限检查失败")] in
  (issued (getUserAccessibleApps env userId) = [accessible]
   /\ forall r, supabase accessible = Resolved r -> error r = None ->
        outcome (getUserAccessibleApps env userId)
        = Resolved (success (match data r with
                             | JUndefined | JNull => JArr []
                             | d => if truthy d then d else JArr []
                             end)))
  /\ (issued (checkUserAppPermission env userId serviceInstanceId) = [check]
      /\ forall r, supabase check = Resolved r -> error r = None ->
           outcome (checkUserAppPermission env userId serviceInstanceId)
           = Resolved (success (match data r with
                                | JArr [] => no_access
                                | JArr (row :: _) =>
                                    if truthy row then row else no_access
                                | JUndefined | JNull => no_access
                                | d => if truthy d then d else no_access
                                end)))
  /\ (issued (incrementAppUsage env userId serviceInstanceId increment)
      = [usage (match increment with Some n => n | None => 1%Z end)]
      /\ incrementAppUsage env userId serviceInstanceId None
         = incrementAppUsage env userId serviceInstanceId (Some 1%Z)
      /\ forall n r, supabase (usage n) = Resolved r -> error r = None ->
           outcome (incrementAppUsage env userId serviceInstanceId (Some n))
           = Resolved (success (match data r with
                                | JArr [] => JUndefined
                                | JArr (row :: _) => row
                                | d => d
                                end))).
Proof.
  intros Hclient accessible check usage no_access.
  repeat split.
  - open_function. rewrite Hclient. cbn [issued outcome app].
    destruct (supabase _) as [r|e]; [destruct (error r)|]; reflexivity.
  - intros r Hq He. open_function. rewrite Hclient. cbn [issued outcome app].
    fold accessible. rewrite Hq. cbn [issued outcome app]. rewrite He.
    cbn [issued outcome app]. unfold js_or.
    now destruct (data r) as [ | | b | z | t | xs | fs ].
  - open_function. rewrite Hclient. cbn [issued outcome app].
    destruct (supabase _) as [r|e]; [destruct (error r)|]; try reflexivity.
    destruct (truthy (first_row (data r))); reflexivity.
  - intros r Hq He. open_function. rewrite Hclient. cbn [issued outcome app].
    fold check. rewrite Hq. cbn [issued outcome app]. rewrite He.
    destruct (data r) as [ | | b | z | t | [|row rest] | fs ];
      cbn [first_row first_item truthy negb];
      try reflexivity;
      match goal with
      | |- context [truthy ?v] => now destruct (truthy v)
      | |- context [negb ?b] => now destruct b
      end.
  - open_function. rewrite Hclient. cbn [issued outcome app].
    destruct (supabase _) as [r|e]; [destruct (error r)|]; reflexivity.
  - intros n r Hq He. open_function. rewrite Hclient. cbn [issued outcome app].
    fold (usage n). rewrite Hq. cbn [issued outcome app]. rewrite He.
    now destruct (data r) as [ | | b | z | t | [|row rest] | fs ].
Qed.

(** C6 at work: when the check RPC answers with no row, the result is a
    success with [has_access] false and [quota_remaining] null; when it
    answers with rows, the result is the first of them. *)
Lemma permission_decisions_are_delegated_witness :
  outcome (checkUserAppPermission (sample_env (answers_rows (JArr []))) "u1" "app1")
  = Resolved (success (JObj [("has_access", JBool false);
                             ("quota_remaining", JNull);
                             ("error_message", JStr "权限检查失败")]))
  /\ outcome (checkUserAppPermission
                (sample_env (answers_rows
                               (JArr [JObj [("has_access", JBool true);
                                            ("quota_remaining", JNum 3)];
                                      JObj [("has_access", JBool false)]])))
                "u1" "app1")
     = Resolved (success (JObj [("has_access", JBool true);
                                ("quota_remaining", JNum 3)])).
Proof.
  split.
  - destruct (permission_decisions_are_delegated
                (sample_env (answers_rows (JArr []))) (answers_rows (JArr []))
                "u1" "app1" None eq_refl)
      as (_ & (_ & Hcheck) & _).
    exact (Hcheck _ eq_refl eq_refl).
  - destruct (permission_decisions_are_delegated
                (sample_env (answers_rows
                               (JArr [JObj [("has_access", JBool true);
                                            ("quota_remaining", JNum 3)];
                                      JObj [("has_access", JBool false)]])))
                (answers_rows
                   (JArr [JObj [("has_access", JBool true);
                                ("quota_remaining", JNum 3)];
                          JObj [("has_access", JBool false)]]))
                "u1" "app1" None eq_refl)
      as (_ & (_ & Hcheck) & _).
    exact (Hcheck _ eq_refl eq_refl).
Defined.

(** C9: [setGroupAppPermission] with [is_enabled] true sends one upsert of
    the permission row, in which a falsy quota (0 among them) is stored as
    null; with [is_enabled] false it sends one delete for the (group, service
    instance) pair and, when the delete reports no error, returns a success
    carrying a record with empty id, [is_enabled] false, [usage_quota] null
    and [used_count] 0, whatever the arguments and the stored row were. *)
Theorem setGroupAppPermission_is_asymmetric
  (env : Env) (supabase : Client) (groupId serviceInstanceId : string)
  (usage_quota : JsVal) :
  createClient env = Resolved supabase ->
  let upsert (quota : JsVal) :=
    {| source := from "group_app_permissions";
       calls := [QUpsert
                   (JArr [JObj [("group_id", JStr groupId);
                                ("service_instance_id", JStr serviceInstanceId);
                                ("is_enabled", JBool true);
                                ("usage_quota", quota)]]);
                 QSelect upsert_select [];
                 QSingle] |} in
  let removal :=
    {| source := from "group_app_permissions";
       calls := [QDelete; QEq "group_id" (JStr groupId);
                 QEq "service_instance_id" (JStr serviceInstanceId)] |} in
  issued (setGroupAppPermission env groupId serviceInstanceId true usage_quota)
  = [upsert (if truthy usage_quota then usage_quota else JNull)]
  /\ issued (setGroupAppPermission env groupId serviceInstanceId true (JNum 0))
     = [upsert JNull]
  /\ issued (setGroupAppPermission env groupId serviceInstanceId false usage_quota)
     = [removal]
  /\ forall r, supabase removal = Resolved r -> error r = None ->
       outcome (setGroupAppPermission env groupId serviceInstanceId false usage_quota)
       = Resolved (success
                     (JObj [("id", JStr "");
                            ("group_id", JStr groupId);
                            ("service_instance_id", JStr serviceInstanceId);
                            ("is_enabled", JBool false);
                            ("usage_quota", JNull);
                            ("used_count", JNum 0);
                            ("created_at", JStr (new_Date_toISOString env));
                            ("app", JUndefined)])).
Proof.
  intros Hclient upsert removal.
  repeat split.
  - open_function. rewrite Hclient. cbn [issued outcome app].
    destruct (supabase _) as [r|e]; [destruct (error r)|]; reflexivity.
  - open_function. rewrite Hclient. cbn [issued outcome app].
    destruct (supabase _) as [r|e]; [destruct (error r)|]; reflexivity.
  - open_function. rewrite Hclient. cbn [issued outcome app].
    destruct (supabase _) as [r|e]; [destruct (error r)|]; reflexivity.
  - intros r Hq He. open_function. rewrite Hclient. cbn [issued outcome app].
    fold removal. rewrite Hq. cbn [issued outcome app]. rewrite He. reflexivity.
Qed.

(** C9 at work: disabling a permission on a client that reports no error. *)
Lemma setGroupAppPermission_is_asymmetric_witness :
  outcome (setGroupAppPermission (sample_env answers_nothing) "g1" "app1" false
             (JNum 5))
  = Resolved (success
                (JObj [("id", JStr "");
                       ("group_id", JStr "g1");
                       ("service_instance_id", JStr "app1");
                       ("is_enabled", JBool false);
                       ("usage_quota", JNull);
                       ("used_count", JNum 0);
                       ("created_at", JStr "2025-01-01T00:00:00.000Z");
                       ("app", JUndefined)])).
Proof.
  destruct (setGroupAppPermission_is_asymmetric
              (sample_env answers_nothing) answers_nothing "g1" "app1" (JNum 5)
              eq_refl)
    as (_ & _ & _ & Hdisabled).
  exact (Hdisabled _ eq_refl eq_refl).
Defined.

(** C10 at a search term the code can receive: with the term
    [zz%,role.ilike.%] the filter sent to the service is a group of six
    conditions, three of them on the [role] column, and the service, read
    as in [PostgREST], returns a user whose username, full name and email
    do not match the term. *)
Theorem searchUsersForGroup_crafted_term_returns_other_users :
  nonempty (trim PostgREST.crafted_term) = true
  /\ calls (search_query PostgREST.crafted_term [])
     = [QSelect "id, username, full_name, email, avatar_url, role, status" [];
        QEq "status" (JStr "active");
        QLimit 20;
        QOr "username.ilike.%zz%,role.ilike.%%,full_name.ilike.%zz%,role.ilike.%%,email.ilike.%zz%,role.ilike.%%";
        QOrder "created_at" false]
  /\ outcome (searchUsersForGroup (sample_env (PostgREST.serving [PostgREST.alice]))
                PostgREST.crafted_term None)
     = Resolved (success (JArr [JObj PostgREST.alice]))
  /\ PostgREST.ilike ("%" ++ PostgREST.crafted_term ++ "%") "alice" = false
  /\ PostgREST.ilike ("%" ++ PostgREST.crafted_term ++ "%") "Alice Liddell" = false
  /\ PostgREST.ilike ("%" ++ PostgREST.crafted_term ++ "%") "alice@example.org" = false.
Proof.
  vm_compute. repeat split.
Qed.

(** ** The queries the data layer sends *)

Lemma count_members_of_object (supabase : Client) (fs : list (string * JsVal)) :
  issued (count_members supabase (JObj fs)) = [count_query (lookup_field "id" fs)]
  /\ (forall reason,
        supabase (count_query (lookup_field "id" fs)) = Rejected reason ->
        outcome (count_members supabase (JObj fs)) = Rejected reason)
  /\ (forall r,
        supabase (count_query (lookup_field "id" fs)) = Resolved r ->
        outcome (count_members supabase (JObj fs))
        = Resolved (JObj (set_field "member_count"
                            (member_count_of (Resolved r)) fs))).
Proof.
  unfold count_members, bind, lift, await, ret, count_query.
  cbn [get_prop issued outcome app own_properties member_count_of].
  destruct (supabase _) as [r|reason]; cbn [issued outcome app].
  - split; [now destruct (error r)|]. split; [intros; congruence|].
    intros r' [= <-]. now destruct (error r).
  - repeat split; intros; congruence.
Qed.

Lemma Promise_all_count_members (supabase : Client)
  (groups : list (list (string * JsVal))) :
  issued (Promise_all (map (count_members supabase) (map JObj groups)))
  = map (fun fs => count_query (lookup_field "id" fs)) groups
  /\ ((forall fs, In fs groups ->
         exists r, supabase (count_query (lookup_field "id" fs)) = Resolved r) ->
      outcome (Promise_all (map (count_members supabase) (map JObj groups)))
      = Resolved
          (map (fun fs =>
                  JObj (set_field "member_count"
                          (member_count_of
                             (supabase (count_query (lookup_field "id" fs))))
                          fs))
               groups)).
Proof.
  induction groups as [|fs groups [IHissued IHoutcome]]; cbn [map Promise_all].
  - split; reflexivity.
  - destruct (count_members_of_object supabase fs) as (Hissued & _ & Hanswered).
    cbn [issued outcome]. rewrite Hissued, IHissued. split; [reflexivity|].
    intros Hall.
    destruct (Hall fs (or_introl eq_refl)) as [r Hr].
    rewrite (Hanswered r Hr), IHoutcome, Hr; [reflexivity|].
    intros fs' Hfs'. apply Hall. now right.
Qed.

(** [getGroups] sends one query for the groups and then one count query
    per group returned, in the order of the groups, whatever the count
    queries answer.  When none of them rejects, the result lists every
    group, in that order, with the fields of its row and a [member_count]:
    the count the service gave, or 0 when the count is missing or the
    count query reported an error. *)
Theorem getGroups_counts_the_members_of_every_group
  (env : Env) (supabase : Client) (r : Response)
  (groups : list (list (string * JsVal))) :
  createClient env = Resolved supabase ->
  supabase groups_query = Resolved r ->
  error r = None ->
  data r = JArr (map JObj groups) ->
  issued (getGroups env)
  = groups_query :: map (fun fs => count_query (lookup_field "id" fs)) groups
  /\ ((forall fs, In fs groups ->
         exists r', supabase (count_query (lookup_field "id" fs)) = Resolved r') ->
      outcome (getGroups env)
      = Resolved
          (success
             (JArr (map (fun fs =>
                           JObj (set_field "member_count"
                                   (member_count_of
                                      (supabase (count_query (lookup_field "id" fs))))
                                   fs))
                        groups)))).
Proof.
  intros Hclient Hgroups Herror Hdata.
  destruct (Promise_all_count_members supabase groups) as [Hissued Houtcome].
  unfold getGroups, try_catch, bind, lift, await, ret.
  rewrite Hclient. cbn [issued outcome app]. fold groups_query.
  rewrite Hgroups. cbn [issued outcome app]. rewrite Herror, Hdata.
  cbn [js_or truthy as_array issued outcome app].
  split.
  - destruct (outcome (Promise_all _)); cbn [issued outcome app];
      rewrite Hissued, ?app_nil_r; reflexivity.
  - intros Hall. rewrite (Houtcome Hall). reflexivity.
Qed.

(** At work: two groups, the count of the second one reporting an error. *)
Lemma getGroups_counts_the_members_of_every_group_witness :
  let supabase : Client :=
    fun q =>
      match source q with
      | from table =>
          if String.eqb table "groups"
          then Resolved {| data := JArr [JObj [("id", JStr "g1")];
                                         JObj [("id", JStr "g2")]];
                           error := None; count := JNull |}
          else
            match calls q with
            | [_; QEq _ (JStr g)] =>
                if String.eqb g "g1"
                then Resolved {| data := JNull; error := None; count := JNum 3 |}
                else Resolved {| data := JNull;
                                 error := Some {| message := "denied" |};
                                 count := JNull |}
            | _ => Rejected JUndefined
            end
      | rpc _ _ => Rejected JUndefined
      end in
  outcome (getGroups (sample_env supabase))
  = Resolved (success (JArr [JObj [("id", JStr "g1"); ("member_count", JNum 3)];
                             JObj [("id", JStr "g2"); ("member_count", JNum 0)]])).
Proof.
  intros supabase.
  refine (proj2 (getGroups_counts_the_members_of_every_group
                   (sample_env supabase) supabase _
                   [[("id", JStr "g1")]; [("id", JStr "g2")]]
                   eq_refl eq_refl eq_refl eq_refl) _).
  intros fs [<-|[<-|[]]]; eexists; reflexivity.
Defined.

Lemma search_query_reads (searchTerm : string) (excludeUserIds : list string) :
  existsb is_write (calls (search_query searchTerm excludeUserIds)) = false
  /\ existsb changes_rows (calls (search_query searchTerm excludeUserIds)) = false.
Proof.
  unfold search_query. cbn [calls].
  destruct (Nat.ltb 0 (List.length excludeUserIds));
    destruct (nonempty (trim searchTerm)); split; reflexivity.
Qed.

(** The one query of a function other than [getGroups]. *)
Lemma one_query (env : Env) (c : Invocation) (supabase : Client) :
  createClient env = Resolved supabase ->
  c <> call_getGroups ->
  exists q,
    issued (run env c) = [q]
    /\ (existsb changes_rows (calls q) = true ->
        existsb is_eq_filter (calls q) = true)
    /\ (reads_only c = true -> existsb is_write (calls q) = false).
Proof.
  intros Hclient Hc.
  destruct c; try congruence; clear Hc;
    try (destruct is_enabled);
    open_function; rewrite Hclient; cbn [issued outcome app];
    (destruct (supabase _) as [r|reason];
     [destruct (error r); cbn [issued outcome app];
      try (destruct (negb _))|]);
    (eexists; split; [reflexivity|]);
    try (destruct (search_query_reads searchTerm
                     match excludeUserIds with Some l => l | None => [] end)
           as [Hwrite Hchange];
         rewrite Hwrite, Hchange; split; [discriminate|reflexivity]);
    cbn [calls existsb changes_rows is_eq_filter is_write reads_only orb];
    (split; [intros; reflexivity || discriminate
            |intros; reflexivity || discriminate]).
Qed.

(** Every function other than [getGroups] sends exactly one query when the
    client can be created, whatever the query answers; no function sends
    any query when [createClient] throws. *)
Theorem group_permissions_send_one_query (env : Env) (c : Invocation) :
  (forall reason, createClient env = Rejected reason -> issued (run env c) = [])
  /\ (forall supabase,
        createClient env = Resolved supabase ->
        c <> call_getGroups ->
        exists q, issued (run env c) = [q]).
Proof.
  split.
  - intros reason Hclient. now rewrite (run_without_client env c reason).
  - intros supabase Hclient Hc.
    destruct (one_query env c supabase Hclient Hc) as (q & Hq & _).
    now exists q.
Qed.

Lemma count_members_reads (supabase : Client) (group : JsVal) (q : Query) :
  In q (issued (count_members supabase group)) ->
  existsb is_write (calls q) = false.
Proof.
  unfold count_members, bind, lift, await, ret.
  destruct (get_prop group "id") as [gid|e]; cbn [issued outcome app].
  - destruct (supabase _) as [r|e]; [destruct (error r)|];
      cbn [issued outcome app In]; intros [<-|[]]; reflexivity.
  - intros [].
Qed.

(** No function can change or remove rows it was not pointed at: every
    query with an [update] or a [delete] that a function sends also carries
    an equality filter on a string.  The functions that list (getGroups,
    getGroupMembers, getGroupAppPermissions, searchUsersForGroup) send no
    query that writes. *)
Theorem group_permissions_writes_are_filtered
  (env : Env) (c : Invocation) (q : Query) :
  In q (issued (run env c)) ->
  (existsb changes_rows (calls q) = true -> existsb is_eq_filter (calls q) = true)
  /\ (reads_only c = true -> existsb is_write (calls q) = false).
Proof.
  intros Hq.
  destruct (createClient env) as [supabase|reason] eqn:Hclient;
    [|rewrite (run_without_client env c reason Hclient) in Hq; destruct Hq].
  destruct (Invocation_is_getGroups c) as [->|Hc].
  - assert (Hread : existsb is_write (calls q) = false).
    { cbn [run] in Hq.
      unfold getGroups, try_catch, bind, lift, await, ret in Hq.
      rewrite Hclient in Hq. cbn [issued outcome app] in Hq.
      destruct (supabase _) as [r|reason]; cbn [issued outcome app] in Hq.
      - destruct (error r); cbn [issued outcome app In] in Hq.
        + destruct Hq as [<-|[]]. reflexivity.
        + destruct (as_array _) as [rows|e]; cbn [issued outcome app In] in Hq.
          * assert (Hin : {| source := from "groups";
                              calls := [QSelect "*" []; QOrder "created_at" false] |} = q
                          \/ In q (issued (Promise_all (map (count_members supabase) rows)))).
            { destruct (outcome (Promise_all _)); cbn [issued outcome app In] in Hq;
                rewrite ?app_nil_r in Hq; exact Hq. }
            destruct Hin as [<-|Hin]; [reflexivity|].
            apply Promise_all_issued in Hin as (p & Hp & Hqp).
            apply in_map_iff in Hp as (group & <- & _).
            exact (count_members_reads supabase group q Hqp).
          * destruct Hq as [<-|[]]. reflexivity.
      - destruct Hq as [<-|[]]. reflexivity. }
    split; [|intros _; exact Hread].
    intros Hchanges. exfalso.
    assert (Hsub : forall cs, existsb is_write cs = false ->
                              existsb changes_rows cs = false).
    { induction cs as [|x cs IH]; [reflexivity|].
      cbn [existsb]. intros H. apply orb_false_iff in H as [Hx Hcs].
      rewrite (IH Hcs). now destruct x. }
    rewrite (Hsub _ Hread) in Hchanges. discriminate.
  - destruct (one_query env c supabase Hclient Hc) as (q0 & Hq0 & Hfiltered & Hreads).
    rewrite Hq0 in Hq. destruct Hq as [<-|[]]. now split.
Qed.

(** At work: [deleteGroup] sends its one query. *)
Lemma group_permissions_send_one_query_witness :
  exists q, issued (run (sample_env answers_nothing) (call_deleteGroup "g1")) = [q].
Proof.
  apply (proj2 (group_permissions_send_one_query
                  (sample_env answers_nothing) (call_deleteGroup "g1"))
           answers_nothing eq_refl).
  discriminate.
Defined.

(** At work: the delete of [removeAllGroupAppPermissions] is filtered. *)
Lemma group_permissions_writes_are_filtered_witness :
  existsb is_eq_filter
    [QDelete; QEq "service_instance_id" (JStr "app1")] = true.
Proof.
  refine (proj1 (group_permissions_writes_are_filtered
                   (sample_env answers_nothing)
                   (call_removeAllGroupAppPermissions "app1")
                   {| source := from "group_app_permissions";
                      calls := [QDelete;
                                QEq "service_instance_id" (JStr "app1")] |}
                   (or_introl eq_refl)) eq_refl).
Defined.

(** [createGroup] stores a missing or empty description as null and any
    other one as given, while [updateGroup] sends the fields it was given
    unchanged, an empty description included. *)
Theorem createGroup_stores_empty_description_as_null
  (env : Env) (supabase : Client) (name groupId : string)
  (description : option string) (values : JsVal) :
  createClient env = Resolved supabase ->
  let insert (d : JsVal) :=
    {| source := from "groups";
       calls := [QInsert (JArr [JObj [("name", JStr name); ("description", d)]]);
                 QSelect "*" [];
                 QSingle] |} in
  issued (createGroup env name description)
  = [insert match description with
            | Some d => if String.eqb d "" then JNull else JStr d
            | None => JNull
            end]
  /\ createGroup env name (Some "") = createGroup env name None
  /\ issued (updateGroup env groupId values)
     = [{| source := from "groups";
           calls := [QUpdate values; QEq "id" (JStr groupId);
                     QSelect "*" []; QSingle] |}].
Proof.
  intros Hclient insert. repeat split.
  - open_function. rewrite Hclient. cbn [issued outcome app].
    assert (Hdescription :
              js_or (of_optional_string description) JNull
              = match description with
                | Some d => if String.eqb d "" then JNull else JStr d
                | None => JNull
                end).
    { destruct description as [d|]; [|reflexivity].
      unfold js_or. cbn [of_optional_string truthy].
      now destruct (String.eqb d ""). }
    rewrite Hdescription.
    destruct (supabase _) as [r|e]; [destruct (error r)|]; reflexivity.
  - open_function. rewrite Hclient. cbn [issued outcome app].
    destruct (supabase _) as [r|e]; [destruct (error r)|]; reflexivity.
Qed.

(** At work: an empty description is inserted as null. *)
Lemma createGroup_stores_empty_description_as_null_witness :
  issued (createGroup (sample_env answers_nothing) "staff" (Some ""))
  = [{| source := from "groups";
        calls := [QInsert (JArr [JObj [("name", JStr "staff");
                                       ("description", JNull)]]);
                  QSelect "*" [];
                  QSingle] |}].
Proof.
  exact (proj1 (createGroup_stores_empty_description_as_null
                  (sample_env answers_nothing) answers_nothing "staff" "g1"
                  (Some "") JNull eq_refl)).
Defined.

End DataLayer.

(* ================================================================== *)
(** * searchUsersForGroup against the reference filters *)
(* ================================================================== *)

Section ProfileSearch.
Import Js Supabase ResultType GroupPermissions PostgREST.

(** ** Strings *)

Lemma rev_string_twice (t a b : string) :
  rev_string a (rev_string b t) = rev_string (t ++ a) b.
Proof.
  revert a b. induction t as [|c t IH]; intros a b; cbn [rev_string append].
  - reflexivity.
  - now rewrite IH.
Qed.

Lemma rev_string_involutive (t : string) : rev_string "" (rev_string "" t) = t.
Proof.
  rewrite rev_string_twice. cbn [rev_string].
  induction t as [|c t IH]; cbn [append]; [reflexivity|now rewrite IH].
Qed.

Lemma includes_cons (c : ascii) (s : string) (sep : ascii) :
  includes (String c s) (String sep "") = false ->
  Ascii.eqb c sep = false /\ includes s (String sep "") = false.
Proof.
  cbn [includes String.prefix]. intros H.
  apply orb_false_iff in H as [Hhead Htail]. split; [|exact Htail].
  destruct (ascii_dec sep c) as [->|Hne].
  - destruct s; discriminate Hhead.
  - apply Ascii.eqb_neq. congruence.
Qed.

(** A piece without separator is read to its end. *)
Lemma split_at_piece (sep : ascii) (t rest piece : string) :
  includes t (String sep "") = false ->
  split_at sep piece (t ++ rest) = split_at sep (rev_string piece t) rest.
Proof.
  revert piece. induction t as [|c t IH]; intros piece Hfree;
    cbn [append split_at rev_string].
  - reflexivity.
  - apply includes_cons in Hfree as [Hc Hfree]. rewrite Hc. now apply IH.
Qed.

Lemma split_at_one (sep : ascii) (t : string) :
  includes t (String sep "") = false ->
  split_at sep "" t = [t].
Proof.
  intros Hfree.
  replace t with (t ++ "")%string at 1
    by (clear; induction t as [|c t IH]; cbn; [reflexivity|now rewrite IH]).
  rewrite (split_at_piece sep t "" "" Hfree). cbn [split_at].
  now rewrite rev_string_involutive.
Qed.

Lemma split_at_next (sep : ascii) (t rest : string) :
  includes t (String sep "") = false ->
  split_at sep "" (t ++ String sep rest) = t :: split_at sep "" rest.
Proof.
  intros Hfree. rewrite (split_at_piece sep t _ "" Hfree). cbn [split_at].
  now rewrite Ascii.eqb_refl, rev_string_involutive.
Qed.

(** What [join] writes, [split_at] reads back. *)
Lemma split_at_join (ids : list string) :
  ids <> [] ->
  (forall i, In i ids -> includes i "," = false) ->
  split_at ","%char "" (join "," ids) = ids.
Proof.
  intros Hsome Hfree. unfold join.
  induction ids as [|i ids IH]; [congruence|].
  destruct ids as [|j ids].
  - cbn [String.concat]. apply split_at_one. apply Hfree. now left.
  - change (String.concat "," (i :: j :: ids))
      with (i ++ String "," (String.concat "," (j :: ids)))%string.
    rewrite split_at_next by (apply Hfree; now left).
    rewrite IH; [reflexivity|discriminate|].
    intros k Hk. apply Hfree. now right.
Qed.

Lemma substring_prefix (s rest : string) :
  String.substring 0 (String.length s) (s ++ rest) = s.
Proof.
  induction s as [|c s IH]; cbn [String.length append String.substring].
  - now destruct rest.
  - now rewrite IH.
Qed.

Lemma length_snoc (s : string) (c : ascii) :
  String.length (s ++ String c "") = S (String.length s).
Proof.
  induction s as [|a s IH]; cbn [String.length append]; [reflexivity|now rewrite IH].
Qed.

(** The list the code writes for [not.in] is the list the service reads. *)
Lemma list_literal_join (ids : list string) :
  ids <> [] ->
  (forall i, In i ids -> includes i "," = false) ->
  list_literal ("(" ++ join "," ids ++ ")") = ids.
Proof.
  intros Hsome Hfree. unfold list_literal.
  cbn [append String.length]. rewrite length_snoc.
  cbn [Nat.sub String.substring]. rewrite Nat.sub_0_r.
  rewrite substring_prefix. now apply split_at_join.
Qed.


(** ** The reference answer *)

Lemma keep_passes (cs : list Call) (rows kept : list Row) (row : Row) :
  keep cs rows = Some kept ->
  In row kept ->
  In row rows /\ passes_all row cs = Some true.
Proof.
  revert kept. induction rows as [|x rows IH]; intros kept; cbn [keep].
  - intros [= <-] [].
  - destruct (passes_all x cs) as [[|]|] eqn:Hx; [| |discriminate];
      (destruct (keep cs rows) as [l|]; [|discriminate]); intros [= <-].
    + intros [<-|Hin].
      * split; [now left|exact Hx].
      * destruct (IH l eq_refl Hin). split; [now right|assumption].
    + intros Hin. destruct (IH l eq_refl Hin). split; [now right|assumption].
Qed.

Lemma passes_all_each (row : Row) (cs : list Call) (c : Call) :
  passes_all row cs = Some true -> In c cs -> passes row c = Some true.
Proof.
  induction cs as [|x cs IH]; cbn [passes_all In]; [intros _ []|].
  destruct (passes row x) as [a|] eqn:Hx; [|discriminate].
  destruct (passes_all row cs) as [b|]; [|discriminate].
  intros [= Hab]. apply andb_true_iff in Hab as [-> ->].
  intros [<-|Hin]; [exact Hx|now apply IH].
Qed.

Lemma insert_by_in (column : string) (ascending : bool) (row x : Row)
  (sorted : list Row) :
  In x (insert_by column ascending row sorted) -> x = row \/ In x sorted.
Proof.
  induction sorted as [|y sorted IH]; cbn [insert_by In].
  - intros [<-|[]]. now left.
  - destruct (if ascending then _ else _); cbn [In].
    + intros [<-|H]; [now left|now right].
    + intros [<-|H]; [right; now left|].
      destruct (IH H) as [->|Hin]; [now left|right; now right].
Qed.

Lemma ordered_in (cs : list Call) (rows : list Row) (x : Row) :
  In x (ordered cs rows) -> In x rows.
Proof.
  induction cs as [|c cs IH]; cbn [ordered]; [easy|].
  destruct c; try exact IH.
  clear IH. induction rows as [|row rows IH]; cbn [fold_right]; [easy|].
  intros H. apply insert_by_in in H as [->|H]; [now left|right; now apply IH].
Qed.

Lemma firstn_in {A} (n : nat) (l : list A) (x : A) : In x (firstn n l) -> In x l.
Proof.
  revert l. induction n as [|n IH]; intros [|a l]; cbn [firstn In]; try easy.
  intros [->|H]; [now left|right; now apply IH].
Qed.

(** The builder calls of [search_query], piece by piece. *)
Lemma search_query_calls (searchTerm : string) (excludeUserIds : list string) :
  exists rest,
    calls (search_query searchTerm excludeUserIds)
    = QSelect "id, username, full_name, email, avatar_url, role, status" []
      :: QEq "status" (JStr "active") :: QLimit 20 :: rest
    /\ (excludeUserIds <> [] ->
        In (QNot "id" "in" ("(" ++ join "," excludeUserIds ++ ")")) rest)
    /\ (nonempty (trim searchTerm) = true ->
        In (QOr ("username.ilike.%" ++ searchTerm
                 ++ "%,full_name.ilike.%" ++ searchTerm
                 ++ "%,email.ilike.%" ++ searchTerm ++ "%")) rest).
Proof.
  unfold search_query. cbn [calls].
  destruct excludeUserIds as [|i ids]; cbn [List.length Nat.ltb Nat.leb];
    destruct (nonempty (trim searchTerm)); cbn [app];
    eexists; (split; [reflexivity|]); split; intros H;
    congruence || (cbn [In]; auto).
Qed.

(** The three conditions of the [or] group when the term holds no comma. *)
Lemma or_group_conditions (searchTerm : string) :
  includes searchTerm "," = false ->
  split_at ","%char ""
    ("username.ilike.%" ++ searchTerm
     ++ "%,full_name.ilike.%" ++ searchTerm
     ++ "%,email.ilike.%" ++ searchTerm ++ "%")
  = ["username.ilike.%" ++ searchTerm ++ "%";
     "full_name.ilike.%" ++ searchTerm ++ "%";
     "email.ilike.%" ++ searchTerm ++ "%"]%string.
Proof.
  intros Hfree.
  cbn [append split_at Ascii.eqb Bool.eqb].
  rewrite (split_at_piece _ searchTerm _ _ Hfree).
  cbn [append split_at Ascii.eqb Bool.eqb].
  rewrite (split_at_piece _ searchTerm _ _ Hfree).
  cbn [append split_at Ascii.eqb Bool.eqb].
  rewrite (split_at_piece _ searchTerm _ _ Hfree).
  cbn [append split_at Ascii.eqb Bool.eqb].
  change (rev_string "" (String "%" ?x)) with (rev_string "%" x).
  rewrite !rev_string_twice. reflexivity.
Qed.


Lemma condition_matches (row : Row) (column searchTerm : string) :
  (column = "username" \/ column = "full_name" \/ column = "email") ->
  condition_holds row (column ++ ".ilike.%" ++ searchTerm ++ "%") = Some true ->
  exists s, lookup_field column row = JStr s
            /\ ilike (wildcards ("%" ++ searchTerm ++ "%")) s = true.
Proof.
  intros [ -> | [ -> | -> ] ]; unfold condition_holds, parse_condition;
    cbn [append cut_at Ascii.eqb Bool.eqb String.eqb];
    (destruct (lookup_field _ row) as [ | | ? | ? | s | ? | ? ]; cbn [text_of];
     try discriminate; intros [= H]; now exists s).
Qed.

(** With a table read as in [PostgREST], whatever the search term and the
    excluded ids, [searchUsersForGroup] returns at most 20 users, all of them
    rows of the table with status [active].  When no excluded id holds a
    comma, no returned user has an excluded id; when the trimmed term is not
    empty and the term holds no comma, every returned user matches
    [%term%] in username, full name or email, as the service reads that
    pattern ([*] for [%]). *)
Theorem searchUsersForGroup_returns_active_matching_users
  (env : Env) (profiles : list Row) (searchTerm : string)
  (excludeUserIds : option (list string)) (users : list JsVal) :
  createClient env = Resolved (serving profiles) ->
  outcome (searchUsersForGroup env searchTerm excludeUserIds)
  = Resolved (success (JArr users)) ->
  List.length users <= 20
  /\ forall user, In user users ->
       exists row,
         user = JObj row
         /\ In row profiles
         /\ lookup_field "status" row = JStr "active"
         /\ (forall ids i,
               excludeUserIds = Some ids ->
               (forall j, In j ids -> includes j "," = false) ->
               lookup_field "id" row = JStr i ->
               ~ In i ids)
         /\ (nonempty (trim searchTerm) = true ->
             includes searchTerm "," = false ->
             exists column s,
               In column ["username"; "full_name"; "email"]
               /\ lookup_field column row = JStr s
               /\ ilike (wildcards ("%" ++ searchTerm ++ "%")) s = true).
Proof.
  intros Hclient.
  unfold searchUsersForGroup, try_catch, bind, lift, await, ret.
  rewrite Hclient. cbn [issued outcome app].
  set (ids0 := match excludeUserIds with Some l => l | None => [] end).
  destruct (search_query_calls searchTerm ids0) as (rest & Hcalls & Hnot & Hor).
  assert (Hsource : source (search_query searchTerm ids0) = from "profiles")
    by reflexivity.
  set (q := search_query searchTerm ids0) in *. clearbody q.
  unfold serving. rewrite Hsource.
  cbn [String.eqb Ascii.eqb Bool.eqb].
  unfold answer.
  destruct (keep (calls q) profiles) as [kept|] eqn:Hkeep;
    cbn [issued outcome app error data js_or truthy]; [|discriminate].
  intros [= <-].
  rewrite Hcalls. cbn [limited].
  rewrite <- Hcalls.
  split.
  - rewrite length_map. apply firstn_le_length.
  - intros user Huser. apply in_map_iff in Huser as (row & <- & Hrow).
    apply firstn_in, ordered_in in Hrow.
    destruct (keep_passes _ _ _ row Hkeep Hrow) as [Hin Hpasses].
    exists row. split; [reflexivity|]. split; [exact Hin|].
    rewrite Hcalls in Hpasses.
    split; [|split].
    + pose proof (passes_all_each row _ (QEq "status" (JStr "active")) Hpasses
                    (or_intror (or_introl eq_refl))) as Hstatus.
      cbn [passes] in Hstatus.
      destruct (lookup_field "status" row) as [ | | ? | ? | s | ? | ? ]; cbn [text_of] in Hstatus;
        try discriminate.
      injection Hstatus as Hs. apply String.eqb_eq in Hs. now subst s.
    + intros ids i -> Hfree Hid Hexcluded.
      assert (Hsome : ids <> []) by (intros ->; destruct Hexcluded).
      pose proof (passes_all_each row _ _ Hpasses
                    (or_intror (or_intror (or_intror (Hnot Hsome))))) as Hpass.
      cbn [passes String.eqb Ascii.eqb Bool.eqb] in Hpass.
      rewrite Hid in Hpass. cbn [text_of] in Hpass.
      subst ids0. rewrite (list_literal_join ids Hsome Hfree) in Hpass.
      injection Hpass as Hpass. apply negb_true_iff in Hpass.
      assert (Hfound : existsb (String.eqb i) ids = true).
      { apply existsb_exists. exists i. split; [exact Hexcluded|apply String.eqb_refl]. }
      congruence.
    + intros Hterm Hfree.
      pose proof (passes_all_each row _ _ Hpasses
                    (or_intror (or_intror (or_intror (Hor Hterm))))) as Hpass.
      cbn [passes] in Hpass. rewrite (or_group_conditions searchTerm Hfree) in Hpass.
      cbn [any_holds] in Hpass.
      destruct (condition_holds row ("username.ilike.%" ++ searchTerm ++ "%"))
        as [[|]|] eqn:H1; [| |discriminate].
      { destruct (condition_matches row "username" searchTerm (or_introl eq_refl) H1)
          as (s & Hs & Hmatch).
        exists "username", s. cbn [In]. auto. }
      destruct (condition_holds row ("full_name.ilike.%" ++ searchTerm ++ "%"))
        as [[|]|] eqn:H2; [| |discriminate].
      { destruct (condition_matches row "full_name" searchTerm
                    (or_intror (or_introl eq_refl)) H2) as (s & Hs & Hmatch).
        exists "full_name", s. cbn [In]. auto. }
      destruct (condition_holds row ("email.ilike.%" ++ searchTerm ++ "%"))
        as [[|]|] eqn:H3; [| |discriminate].
      { destruct (condition_matches row "email" searchTerm
                    (or_intror (or_intror eq_refl)) H3) as (s & Hs & Hmatch).
        exists "email", s. cbn [In]. auto. }
      discriminate Hpass.
Qed.


(** At work: searching [ali] in a table that holds alice. *)
Lemma searchUsersForGroup_returns_active_matching_users_witness :
  exists column s,
    In column ["username"; "full_name"; "email"]
    /\ lookup_field column alice = JStr s
    /\ ilike "%ali%" s = true.
Proof.
  destruct (searchUsersForGroup_returns_active_matching_users
              (sample_env (serving [alice])) [alice] "ali" None [JObj alice]
              eq_refl eq_refl) as [_ Hall].
  destruct (Hall (JObj alice) (or_introl eq_refl))
    as (row & Hrow & _ & _ & _ & Hmatch).
  injection Hrow as <-.
  exact (Hmatch eq_refl eq_refl).
Defined.

End ProfileSearch.

(* ================================================================== *)
(** * Properties of the chat hook *)
(* ================================================================== *)

Section ChatHook.
Import Js ResultType ChatStore ChatInterface.

(** ** Strings *)

Lemma substring_all (s : string) : String.substring 0 (String.length s) s = s.
Proof. induction s as [|c s IH]; cbn; [reflexivity|now rewrite IH]. Qed.

Lemma remove_chat_prefix (x : string) : remove_first ("/chat/" ++ x) "/chat/" = x.
Proof.
  cbn. replace (String.prefix "" x) with true by now destruct x.
  rewrite Nat.sub_0_r. apply substring_all.
Qed.

Lemma includes_empty (p : string) : includes "" p = true -> p = "".
Proof.
  destruct p; cbn; [reflexivity|discriminate].
Qed.

Lemma nonempty_true (s : string) : s <> "" -> nonempty s = true.
Proof.
  intros Hs. unfold nonempty. destruct (String.eqb_spec s ""); [contradiction|reflexivity].
Qed.

Lemma append_empty_r (s : string) : (s ++ "")%string = s.
Proof. induction s as [|c s IH]; cbn; [reflexivity|now rewrite IH]. Qed.

Lemma append_assoc (a b c : string) : ((a ++ b) ++ c)%string = (a ++ (b ++ c))%string.
Proof. induction a as [|x a IH]; cbn; [reflexivity|now rewrite IH]. Qed.

(** ** The store *)

Lemma find_message_id (i : string) (s : ChatState) (m : ChatMessage) :
  find_message i s = Some m -> id m = i.
Proof.
  unfold find_message. intros Hfind.
  apply find_some in Hfind as [_ Heq]. now apply String.eqb_eq.
Qed.

Lemma find_message_map (i j : string) (f : ChatMessage -> ChatMessage)
  (s : ChatState) :
  (forall m, id (f m) = id m) ->
  find_message i (map_message j f s)
  = option_map (fun m => if String.eqb (id m) j then f m else m)
      (find_message i s).
Proof.
  intros Hid. unfold find_message, map_message. cbn [messages].
  induction (messages s) as [|m l IH]; cbn [map find option_map]; [reflexivity|].
  replace (id (if String.eqb (id m) j then f m else m)) with (id m)
    by (destruct (String.eqb (id m) j); [now rewrite Hid|reflexivity]).
  destruct (String.eqb (id m) i); [reflexivity|exact IH].
Qed.

Lemma find_message_map_same (i : string) (f : ChatMessage -> ChatMessage)
  (s : ChatState) (m : ChatMessage) :
  (forall m, id (f m) = id m) ->
  find_message i s = Some m ->
  find_message i (map_message i f s) = Some (f m).
Proof.
  intros Hid Hfind. rewrite find_message_map by exact Hid.
  rewrite Hfind. cbn [option_map].
  now rewrite (find_message_id i s m Hfind), String.eqb_refl.
Qed.

Lemma find_message_release (i j : string) (s : ChatState) :
  find_message i (release_stream j s) = find_message i s.
Proof.
  unfold release_stream.
  destruct (streamingMessageId s) as [k|]; [|reflexivity].
  destruct (String.eqb k j); reflexivity.
Qed.

Lemma find_after_finalize (i : string) (s : ChatState) (m : ChatMessage) :
  find_message i s = Some m ->
  find_message i (finalizeStreamingMessage i s)
  = Some (with_flags false (wasManuallyStopped m) m).
Proof.
  intros Hfind. unfold finalizeStreamingMessage.
  rewrite find_message_release.
  now apply (find_message_map_same i (fun m => with_flags false (wasManuallyStopped m) m)).
Qed.

Lemma find_after_update (i : string) (p : Patch) (s : ChatState) (m : ChatMessage) :
  find_message i s = Some m ->
  find_message i (updateMessage i p s) = Some (apply_patch p m).
Proof.
  intros Hfind. unfold updateMessage.
  now apply (find_message_map_same i (apply_patch p)).
Qed.

Lemma find_after_append (i chunk : string) (s : ChatState) (m : ChatMessage) :
  find_message i s = Some m ->
  find_message i (appendMessageChunk i chunk s)
  = Some (with_text (text m ++ chunk) m).
Proof.
  intros Hfind. unfold appendMessageChunk.
  now apply (find_message_map_same i (fun m => with_text (text m ++ chunk) m)).
Qed.

Lemma find_after_saved (i row : string) (s : ChatState) (m : ChatMessage) :
  find_message i s = Some m ->
  find_message i (mark_saved i row s) = Some (with_saved row m).
Proof.
  intros Hfind. unfold mark_saved.
  now apply (find_message_map_same i (with_saved row)).
Qed.

Lemma find_after_mark (i : string) (s : ChatState) (m : ChatMessage) :
  find_message i s = Some m ->
  find_message i (markAsManuallyStopped i s) = Some (with_flags false true m).
Proof.
  intros Hfind. unfold markAsManuallyStopped.
  rewrite find_message_release.
  now apply (find_message_map_same i (with_flags false true)).
Qed.

Lemma find_message_saved (i j row : string) (s : ChatState) :
  find_message i (mark_saved j row s)
  = option_map (fun m => if String.eqb (id m) j then with_saved row m else m)
      (find_message i s).
Proof. unfold mark_saved. now apply find_message_map. Qed.

Lemma sides_same_messages (s s' : ChatState) :
  messages s' = messages s -> sides s' = sides s.
Proof. unfold sides. now intros ->. Qed.

Lemma sides_map (j : string) (f : ChatMessage -> ChatMessage) (s : ChatState) :
  (forall m, id (f m) = id m) ->
  (forall m, isUser (f m) = isUser m) ->
  sides (map_message j f s) = sides s.
Proof.
  intros Hid Huser. unfold sides, map_message. cbn [messages].
  rewrite map_map. apply map_ext. intros m.
  destruct (String.eqb (id m) j); [now rewrite Hid, Huser|reflexivity].
Qed.

Lemma sides_release (j : string) (s : ChatState) :
  sides (release_stream j s) = sides s.
Proof.
  unfold release_stream.
  destruct (streamingMessageId s) as [k|]; [|reflexivity].
  destruct (String.eqb k j); reflexivity.
Qed.

Lemma sides_update (j : string) (p : Patch) (s : ChatState) :
  sides (updateMessage j p s) = sides s.
Proof. now apply sides_map. Qed.

Lemma sides_append (j chunk : string) (s : ChatState) :
  sides (appendMessageChunk j chunk s) = sides s.
Proof. now apply sides_map. Qed.


Lemma sides_mark (j : string) (s : ChatState) :
  sides (markAsManuallyStopped j s) = sides s.
Proof.
  unfold markAsManuallyStopped. rewrite sides_release. now apply sides_map.
Qed.


(** A save writes to the message it saved, and to no other. *)
Lemma find_saved_other (i j row : string) (s : ChatState) :
  i <> j -> find_message i (mark_saved j row s) = find_message i s.
Proof.
  intros Hij. rewrite find_message_saved.
  destruct (find_message i s) as [m|] eqn:Hfind; [|reflexivity].
  cbn [option_map]. rewrite (find_message_id i s m Hfind).
  destruct (String.eqb_spec i j); [contradiction|reflexivity].
Qed.

Lemma release_own_stream (i : string) (s : ChatState) :
  streamingMessageId s = Some i ->
  streamingMessageId (release_stream i s) = None.
Proof.
  intros Hs. unfold release_stream. rewrite Hs, String.eqb_refl. reflexivity.
Qed.

(** ** The submission guard *)

(** C8: a call to [handleSubmit] made while a submission is in flight, or
    while the chat store reports processing, returns at once and changes
    nothing: the store and its messages, the conversation and task ids, the
    refs, and the record of calls to the services are what they were. *)
Theorem handleSubmit_reentrancy_guard
  (o : Outside) (sv : Services) (message' : string)
  (files' : option (list (list (string * JsVal)))) (inputs' : JsVal) (h : Hook) :
  isSubmittingRef h = true \/ selectIsProcessing (store h) = true ->
  handleSubmit o sv message' files' inputs' h = h.
Proof.
  intros [Hsubmitting|Hprocessing]; unfold handleSubmit.
  - now rewrite Hsubmitting.
  - rewrite Hprocessing. now destruct (isSubmittingRef h).
Qed.

(** C8 at work: a second submission while the first is in flight. *)
Lemma handleSubmit_reentrancy_guard_witness :
  handleSubmit (outside_at "/chat/conv-1") (streaming_reply [Chunk 1000 "hi"])
    "again" None JUndefined (set_isSubmittingRef true idle_hook)
  = set_isSubmittingRef true idle_hook.
Proof.
  apply handleSubmit_reentrancy_guard. left. reflexivity.
Defined.

(** ** The route-listening effect *)

(** C4, the claim as stated, fails: on the route /chat/newton, whose last
    segment is not "new" and does not start with "temp-", the effect leaves
    the Dify conversation id alone and looks nothing up, because the path
    contains "/chat/new". *)
Lemma route_chat_newton_is_not_resolved :
  "newton" <> "new"
  /\ startsWith "newton" "temp-" = false
  /\ difyConversationId (route_effect (outside_at "/chat/newton") idle_hook)
     <> Some "newton"
  /\ route_effect (outside_at "/chat/newton") idle_hook = idle_hook.
Proof.
  repeat split; try discriminate; reflexivity.
Qed.

(** C4, as amended: on a route /chat/x whose path contains neither
    "/chat/new" nor "/chat/temp-", the effect sets the Dify conversation id
    to x and looks the conversation up by that external id; when a record is
    found the database id becomes its id and the conversation app id its
    app_id (null when it has none), and when no record is found or the
    lookup fails both become null.  On /chat/new and on any path containing
    "/chat/temp-" the three ids are reset to null. *)
Theorem route_effect_resolves_conversation_ids (o : Outside) (h : Hook) (p : string) :
  currentPathname o = Some p ->
  (forall x : string,
     p = ("/chat/" ++ x)%string ->
     includes p "/chat/new" = false ->
     includes p "/chat/temp-" = false ->
     difyConversationId (route_effect o h) = Some x
     /\ trace (route_effect o h)
        = trace h ++ [call_getConversationByExternalId x]
     /\ match getConversationByExternalId o x with
        | Resolved (success (Some c)) =>
            dbConversationUUID (route_effect o h) = Some (conversation_uuid c)
            /\ conversationAppId (route_effect o h)
               = (if given (app_id c) then app_id c else None)
        | _ =>
            dbConversationUUID (route_effect o h) = None
            /\ conversationAppId (route_effect o h) = None
        end)
  /\ (p = "/chat/new" \/ includes p "/chat/temp-" = true ->
      difyConversationId (route_effect o h) = None
      /\ dbConversationUUID (route_effect o h) = None
      /\ conversationAppId (route_effect o h) = None).
Proof.
  intros Hpath. split.
  - intros x -> Hnew Htemp. unfold route_effect. rewrite Hpath, Hnew, Htemp.
    replace (nonempty ("/chat/" ++ x)%string
             && startsWith ("/chat/" ++ x)%string "/chat/"
             && negb false && negb false)%bool with true
      by (cbn; now destruct x).
    rewrite remove_chat_prefix.
    destruct (getConversationByExternalId o x) as [[[c|]|e]|e];
      try (repeat split; reflexivity).
    destruct (given (app_id c)); repeat split; reflexivity.
  - intros Hreset. unfold route_effect. rewrite Hpath.
    destruct Hreset as [->|Htemp].
    + repeat split; reflexivity.
    + rewrite Htemp.
      replace (nonempty p && startsWith p "/chat/" && negb (includes p "/chat/new")
               && negb true)%bool with false
        by (cbn; now rewrite !andb_false_r).
      replace (nonempty p) with true.
      * rewrite orb_true_r. repeat split; reflexivity.
      * destruct p; [discriminate Htemp|reflexivity].
Qed.

(** The amended C4 at work: the route of conversation [abc]. *)
Lemma route_effect_resolves_conversation_ids_witness :
  difyConversationId (route_effect (outside_at "/chat/abc") idle_hook) = Some "abc"
  /\ dbConversationUUID (route_effect (outside_at "/chat/abc") idle_hook) = None.
Proof.
  destruct (route_effect_resolves_conversation_ids
              (outside_at "/chat/abc") idle_hook "/chat/abc" eq_refl)
    as [Hresolve _].
  destruct (Hresolve "abc" eq_refl eq_refl eq_refl) as (Hdify & _ & Hdb & _).
  split; assumption.
Defined.

(** Reduce the projections of the hook's setters, leaving the store's
    actions folded. *)
Ltac hook_simpl :=
  cbn [store difyConversationId dbConversationUUID conversationAppId
       isSubmittingRef chunkBufferRef appendTimerRef lastStreamingCheckRef
       isWelcomeScreen location_pathname trace
       with_store setDifyConversationId setDbConversationUUID
       setConversationAppId set_isSubmittingRef set_chunkBufferRef
       set_appendTimerRef set_lastStreamingCheckRef setIsWelcomeScreen
       set_location_pathname emit save_then save_stopped_then log_only
       set_status update_message
       hook assistantMessageId finalDbConvUUID finalRealConvId finalTaskId
       lastAppendTime on_hook set_assistantMessageId set_finalDbConvUUID
       set_finalRealConvId set_finalTaskId set_lastAppendTime
       messages streamingMessageId isWaitingForResponse currentConversationId
       currentTaskId nextMessage setIsWaitingForResponse
       setCurrentConversationId setCurrentTaskId set_streamingMessageId
       fst snd] in *.

Ltac store_simpl :=
  cbn [updateMessage appendMessageChunk map_message mark_saved
       set_streamingMessageId
       setIsWaitingForResponse setCurrentConversationId setCurrentTaskId
       messages streamingMessageId isWaitingForResponse currentConversationId
       currentTaskId nextMessage] in *.

Lemma find_message_setIsWaitingForResponse (i : string) (b : bool) (s : ChatState) :
  find_message i (setIsWaitingForResponse b s) = find_message i s.
Proof. reflexivity. Qed.

Lemma find_message_setCurrentTaskId (i : string) (v : option string) (s : ChatState) :
  find_message i (setCurrentTaskId v s) = find_message i s.
Proof. reflexivity. Qed.

Lemma find_message_setCurrentConversationId (i : string) (v : option string)
  (s : ChatState) :
  find_message i (setCurrentConversationId v s) = find_message i s.
Proof. reflexivity. Qed.

Lemma find_message_set_streamingMessageId (i : string) (v : option string)
  (s : ChatState) :
  find_message i (set_streamingMessageId v s) = find_message i s.
Proof. reflexivity. Qed.

(** Follow message [i] through a chain of store actions. *)
Ltac find_chain :=
  repeat first
    [ rewrite find_message_setIsWaitingForResponse
    | rewrite find_message_setCurrentTaskId
    | rewrite find_message_setCurrentConversationId
    | rewrite find_message_set_streamingMessageId
    | eapply find_after_update
    | eapply find_after_finalize
    | eapply find_after_append
    | eapply find_after_saved
    | eapply find_after_mark ];
  try eassumption.

(** ** The zombie-stream check *)

(** C3: the check runs on a 10-second interval; when the streamed message
    has the id and the text recorded by an earlier check more than 30000 ms
    ago, the check finalizes it (its streaming flag is cleared), sets
    isWaitingForResponse to false, clears the current task id and, when a
    database conversation id is known and the message is unsaved, marks it
    pending and attempts to save it (marking it error if the save fails;
    a save that succeeds leaves it saved). *)
Theorem zombie_stream_is_repaired
  (o : Outside) (now : Z) (h : Hook) (m : ChatMessage) (last : StreamingCheck) :
  streamingMessageId (store h) = Some (id m) ->
  id m <> "" ->
  find_message (id m) (store h) = Some m ->
  isStreaming m = true ->
  lastStreamingCheckRef h = Some last ->
  messageId last = id m ->
  content last = text m ->
  (now - lastUpdateTime last > 30000)%Z ->
  currentTaskId (store h) <> Some "" ->
  let h' := checkStreamingState o now h in
  let attempt :=
    match dbConversationUUID h with
    | Some conv =>
        if (nonempty conv && negb (is_saved (persistenceStatus m))
            && negb (given (db_id m)))%bool
        then Some conv else None
    | None => None
    end in
  STREAMING_CHECK_PERIOD = 10000%Z
  /\ isWaitingForResponse (store h') = false
  /\ currentTaskId (store h') = None
  /\ streamingMessageId (store h') = None
  /\ lastStreamingCheckRef h' = None
  /\ (exists m',
        find_message (id m) (store h') = Some m'
        /\ isStreaming m' = false
        /\ text m' = text m
        /\ persistenceStatus m'
           = match attempt with
             | Some conv => if saveMessage o m conv then Some saved else Some error
             | None => persistenceStatus m
             end)
  /\ trace h'
     = trace h
       ++ match attempt with
          | Some conv =>
              [call_updateMessage (id m) (status_patch pending);
               call_saveMessage m conv]
              ++ (if saveMessage o m conv then []
                  else [call_updateMessage (id m) (status_patch error)])
          | None => []
          end.
Proof.
  intros Hstream Hid Hfind Hstreaming Hlast Hmid Hcontent Hold Htask h' attempt.
  subst h' attempt. unfold checkStreamingState.
  rewrite Hstream, Hfind, Hstreaming, Hlast, Hmid, Hcontent.
  cbn [given]. rewrite (nonempty_true _ Hid), !String.eqb_refl. cbn [andb].
  replace (now - lastUpdateTime last >? 30000)%Z with true
    by (symmetry; apply Z.gtb_lt; lia).
  assert (Hfinal : find_message (id m) (finalizeStreamingMessage (id m) (store h))
                   = Some (with_flags false (wasManuallyStopped m) m))
    by now apply find_after_finalize.
  assert (Hreleased : streamingMessageId (finalizeStreamingMessage (id m) (store h)) = None).
  { unfold finalizeStreamingMessage. apply release_own_stream. exact Hstream. }
  split; [reflexivity|].
  unfold save_then, set_status, update_message.
  assert (Htask' : given (currentTaskId (store h)) = false -> currentTaskId (store h) = None).
  { destruct (currentTaskId (store h)) as [t|]; [|reflexivity].
    cbn [given]. unfold nonempty.
    destruct (String.eqb_spec t ""); [congruence|discriminate]. }
  assert (Hkept : currentTaskId (finalizeStreamingMessage (id m) (store h))
                  = currentTaskId (store h)).
  { unfold finalizeStreamingMessage, release_stream. store_simpl.
    rewrite Hstream, String.eqb_refl. reflexivity. }
  destruct (given (currentTaskId (store h))) eqn:Hgiven; hook_simpl;
    (destruct (dbConversationUUID h) as [conv|]; hook_simpl;
     [destruct (nonempty conv && negb (is_saved (persistenceStatus m))
                && negb (given (db_id m)))%bool;
      [destruct (saveMessage o m conv)|]|]);
    hook_simpl; store_simpl;
    rewrite ?Hreleased, ?Hkept, ?app_nil_r;
    repeat split; auto;
    try (eexists; split; [find_chain|repeat split]);
    now rewrite <- ?app_assoc.
Qed.

(** C3 at work: a first check at time 0 records the streamed message, a
    second check 40 seconds later, the message unchanged, repairs it. *)
Lemma zombie_stream_is_repaired_witness :
  let o := outside_at "/chat/conv-1" in
  let h1 := checkStreamingState o 0 streaming_hook in
  let h2 := checkStreamingState o 40000 h1 in
  lastStreamingCheckRef h1
  = Some {| messageId := "msg-0"; content := "partial"; lastUpdateTime := 0 |}
  /\ isWaitingForResponse (store h2) = false
  /\ currentTaskId (store h2) = None
  /\ streamingMessageId (store h2) = None.
Proof.
  intros o h1 h2. split; [reflexivity|].
  destruct (zombie_stream_is_repaired o 40000 h1 partial_reply
              {| messageId := "msg-0"; content := "partial"; lastUpdateTime := 0 |})
    as (_ & Hwaiting & Htask & Hstream & _);
    try reflexivity; try discriminate; try lia.
  repeat split; assumption.
Defined.

(** ** The stop handler *)

Lemma find_message_same_messages (i : string) (s s' : ChatState) :
  messages s' = messages s -> find_message i s' = find_message i s.
Proof. unfold find_message. now intros ->. Qed.

Lemma lookup_set_field_same (k : string) (v : JsVal) (fs : list (string * JsVal)) :
  lookup_field k (set_field k v fs) = v.
Proof.
  induction fs as [|[k' v'] fs IH]; cbn.
  - now rewrite String.eqb_refl.
  - destruct (String.eqb k k') eqn:Hk; cbn; rewrite ?String.eqb_refl, ?Hk; auto.
Qed.

Lemma lookup_set_field_other (k k' : string) (v : JsVal) (fs : list (string * JsVal)) :
  String.eqb k k' = false ->
  lookup_field k (set_field k' v fs) = lookup_field k fs.
Proof.
  intros Hk. induction fs as [|[k0 v0] fs IH]; cbn.
  - now rewrite Hk.
  - destruct (String.eqb k' k0) eqn:Hk0; cbn.
    + apply String.eqb_eq in Hk0 as <-. now rewrite Hk.
    + now rewrite IH.
Qed.

Lemma last_in (l : list ChatMessage) (u : ChatMessage) :
  List.last (map Some l) None = Some u -> In u l.
Proof.
  induction l as [|m l IH]; [discriminate|].
  destruct l as [|m' l'].
  - cbn. intros [= ->]. now left.
  - intros H. right. now apply IH.
Qed.

Lemma recent_unsaved_user_message_side (s : ChatState) (u : ChatMessage) :
  recent_unsaved_user_message s = Some u -> In (id u, true) (sides s).
Proof.
  unfold recent_unsaved_user_message. intros Hlast.
  apply last_in, filter_In in Hlast as [Hin Hu].
  apply andb_true_iff in Hu as [Hu _]. apply andb_true_iff in Hu as [Hu _].
  unfold sides. apply in_map_iff. exists u. now rewrite Hu.
Qed.

Lemma stop_save_user_message_frame (o : Outside) (conv i : string) (h : Hook) :
  ~ In (i, true) (sides (store h)) ->
  find_message i (store (stop_save_user_message o conv h)) = find_message i (store h)
  /\ chunkBufferRef (stop_save_user_message o conv h) = chunkBufferRef h.
Proof.
  intros Hside. unfold stop_save_user_message, save_then, log_only.
  destruct (recent_unsaved_user_message (store h)) as [u|] eqn:Hu; [|now split].
  destruct (urlIndicatesNew h || negb (given (difyConversationId h)))%bool;
    [|now split].
  destruct (saveMessage o u conv); [|now split].
  split; [|reflexivity].
  cbn [with_store store emit]. apply find_saved_other.
  intros ->. apply Hside. now apply recent_unsaved_user_message_side.
Qed.

Lemma stop_persist_user_message_frame (o : Outside) (i : string) (h : Hook) :
  ~ In (i, true) (sides (store h)) ->
  find_message i (store (stop_persist_user_message o h)) = find_message i (store h)
  /\ chunkBufferRef (stop_persist_user_message o h) = chunkBufferRef h.
Proof.
  intros Hside. unfold stop_persist_user_message.
  destruct (given (dbConversationUUID h)).
  - destruct (dbConversationUUID h);
      [now apply stop_save_user_message_frame|now split].
  - destruct (given (difyConversationId h)); [|now split].
    destruct (difyConversationId h) as [d|]; [|now split].
    destruct (getConversationByExternalId o d) as [[[c|]|e]|e]; try now split.
    exact (stop_save_user_message_frame o (conversation_uuid c) i
             (emit (call_getConversationByExternalId d) h) Hside).
Qed.

Lemma stop_remote_task_frame (o : Outside) (a t : option string) (u : string)
  (h : Hook) :
  messages (store (stop_remote_task o a t u h)) = messages (store h)
  /\ chunkBufferRef (stop_remote_task o a t u h) = chunkBufferRef h.
Proof.
  unfold stop_remote_task.
  destruct t as [t|]; [|now split].
  destruct (nonempty t); [|now split].
  destruct a as [a|]; [|now split].
  hook_simpl. destruct (stopDifyStreamingTask o a t u); now split.
Qed.

Lemma with_text_same (m : ChatMessage) : with_text (text m ++ "") m = m.
Proof. rewrite append_empty_r. now destruct m. Qed.

Lemma flush_into_message (i : string) (h : Hook) (m : ChatMessage) :
  i <> "" ->
  find_message i (store h) = Some m ->
  chunkBufferRef (flushChunkBuffer (Some i) h) = ""
  /\ find_message i (store (flushChunkBuffer (Some i) h))
     = Some (with_text (text m ++ chunkBufferRef h) m)
  /\ streamingMessageId (store (flushChunkBuffer (Some i) h))
     = streamingMessageId (store h).
Proof.
  intros Hi Hfind. unfold flushChunkBuffer. rewrite (nonempty_true i Hi). cbn [andb].
  unfold nonempty. destruct (String.eqb_spec (chunkBufferRef h) "") as [Hempty|Hfull];
    cbn [negb].
  - rewrite Hempty, with_text_same.
    destruct (appendTimerRef h); hook_simpl; auto.
  - hook_simpl.
    destruct (appendTimerRef h); hook_simpl;
      (repeat split; try reflexivity; now apply find_after_append).
Qed.

Lemma flush_sides (i : option string) (h : Hook) :
  sides (store (flushChunkBuffer i h)) = sides (store h).
Proof.
  unfold flushChunkBuffer.
  destruct i as [i|]; [|now destruct (appendTimerRef h)].
  destruct (nonempty i && nonempty (chunkBufferRef h))%bool;
    [|now destruct (appendTimerRef h)].
  cbn [appendTimerRef set_chunkBufferRef with_store].
  destruct (appendTimerRef h); cbn [store with_store set_chunkBufferRef
                                      set_appendTimerRef];
    apply sides_append.
Qed.

Lemma stop_streaming_resets_flags (o : Outside) (h : Hook) (user : string) :
  currentUserId o = Some user ->
  user <> "" ->
  isWaitingForResponse (store (stop_streaming o h)) = false
  /\ isSubmittingRef (stop_streaming o h) = false.
Proof.
  intros Huser Hlogged. unfold stop_streaming.
  rewrite Huser, (nonempty_true user Hlogged). now split.
Qed.

Lemma stop_repair_resets_flags (o : Outside) (i : string) (m : ChatMessage)
  (h : Hook) :
  isWaitingForResponse (store (stop_repair o i m h)) = false
  /\ isSubmittingRef (stop_repair o i m h) = false.
Proof.
  unfold stop_repair, save_then, set_status, update_message. hook_simpl.
  destruct (dbConversationUUID h) as [conv|]; [|now split].
  destruct (nonempty conv && negb (is_saved (persistenceStatus m))
            && negb (given (db_id m)))%bool; [|now split].
  destruct (saveMessage o m conv); now split.
Qed.

Lemma stop_without_repair (o : Outside) (h : Hook) (m : ChatMessage) :
  streamingMessageId (store h) = Some (id m) ->
  find_message (id m) (store h) = Some m ->
  (isStreaming m && nonempty (text m)
   && Nat.ltb 0 (js_length (trim (text m)))
   && negb (given (currentTaskId (store h))))%bool = false ->
  handleStopProcessing o h = stop_streaming o h.
Proof.
  intros Hstream Hfind Hcase. unfold handleStopProcessing.
  rewrite Hstream, Hfind.
  destruct (nonempty (id m)); [|reflexivity].
  destruct (isStreaming m); [|reflexivity].
  cbn [andb] in Hcase. now rewrite Hcase.
Qed.

(** C7, the claim as stated, fails on two inputs.  When the streamed
    message already has content and no task id is set, the handler
    finalizes it and returns: the chunk buffer is not flushed into the
    message and the message is not marked as stopped.  When no user is
    logged in (and a task id is set), the handler returns without resetting
    anything: the submitting flag stays set. *)
Lemma stop_returns_early_without_marking :
  (let h := streaming_with None "tail" in
   let h' := handleStopProcessing (outside_at "/chat/conv-1") h in
   streamingMessageId (store h) = Some "msg-0"
   /\ chunkBufferRef h' = "tail"
   /\ option_map text (find_message "msg-0" (store h')) = Some "partial"
   /\ option_map wasManuallyStopped (find_message "msg-0" (store h')) = Some false
   /\ option_map metadata (find_message "msg-0" (store h')) = Some JUndefined)
  /\ (let h := streaming_with (Some "task-1") "tail" in
      let h' := handleStopProcessing logged_out h in
      streamingMessageId (store h) = Some "msg-0"
      /\ h' = h
      /\ isSubmittingRef h' = true).
Proof.
  vm_compute. repeat split.
Qed.

(** C7, as amended: for a logged-in user, [handleStopProcessing] leaves
    isWaitingForResponse and the submitting flag false, whether or not the
    remote stop call succeeds.  When a message is being streamed and it is
    not the case that it has content while no task id is set, the pending
    chunk buffer is flushed into that message and the message is marked as
    manually stopped, with metadata recording stopped_manually and the stop
    time, and with status pending.  (The streamed message has an id of its
    own: the handler goes on to save the latest unsaved user message, and a
    save that succeeds writes to the message with the id it was given.) *)
Theorem stop_marks_message_and_frees_interface
  (o : Outside) (h : Hook) (user : string) :
  currentUserId o = Some user ->
  user <> "" ->
  (isWaitingForResponse (store (handleStopProcessing o h)) = false
   /\ isSubmittingRef (handleStopProcessing o h) = false)
  /\ (forall m,
        streamingMessageId (store h) = Some (id m) ->
        id m <> "" ->
        find_message (id m) (store h) = Some m ->
        ~ In (id m, true) (sides (store h)) ->
        (isStreaming m && nonempty (text m)
         && Nat.ltb 0 (js_length (trim (text m)))
         && negb (given (currentTaskId (store h))))%bool = false ->
        chunkBufferRef (handleStopProcessing o h) = ""
        /\ exists m',
             find_message (id m) (store (handleStopProcessing o h)) = Some m'
             /\ text m' = (text m ++ chunkBufferRef h)%string
             /\ wasManuallyStopped m' = true
             /\ persistenceStatus m' = Some pending
             /\ opt_prop (metadata m') "stopped_manually" = JBool true
             /\ opt_prop (metadata m') "stopped_at"
                = JStr (new_Date_toISOString o)).
Proof.
  intros Huser Hlogged. split.
  - unfold handleStopProcessing.
    destruct (streamingMessageId (store h)) as [i|];
      [|now apply (stop_streaming_resets_flags o h user)].
    destruct (nonempty i); [|now apply (stop_streaming_resets_flags o h user)].
    destruct (find_message i (store h)) as [m|];
      [|now apply (stop_streaming_resets_flags o h user)].
    destruct (isStreaming m); [|now apply (stop_streaming_resets_flags o h user)].
    match goal with |- context [if ?b then _ else _] => destruct b end;
      [apply stop_repair_resets_flags|now apply (stop_streaming_resets_flags o h user)].
  - intros m Hstream Hid Hfind Hside Hcase.
    rewrite (stop_without_repair o h m Hstream Hfind Hcase).
    unfold stop_streaming.
    rewrite Huser, (nonempty_true user Hlogged), Hstream, (nonempty_true _ Hid).
    set (appConfig := match currentAppId o, currentAppInstance o with
                      | Some a, Some _ => if nonempty a then Some a else None
                      | _, _ => None
                      end).
    set (h0 := match appendTimerRef h with
               | Some _ => set_appendTimerRef None h
               | None => h
               end).
    assert (Hfind0 : find_message (id m) (store h0) = Some m)
      by (subst h0; now destruct (appendTimerRef h)).
    assert (Hbuffer0 : chunkBufferRef h0 = chunkBufferRef h)
      by (subst h0; now destruct (appendTimerRef h)).
    destruct (flush_into_message (id m) h0 m Hid Hfind0)
      as (Hflushed & Hfind1 & _).
    rewrite Hbuffer0 in Hfind1.
    set (h1 := flushChunkBuffer (Some (id m)) h0) in *.
    set (h2 := with_store (markAsManuallyStopped (id m)) h1).
    assert (Hfind2 : find_message (id m) (store h2)
                     = Some (with_flags false true
                               (with_text (text m ++ chunkBufferRef h) m)))
      by (subst h2; hook_simpl; now apply find_after_mark).
    assert (Hbuffer2 : chunkBufferRef h2 = "") by (subst h2; exact Hflushed).
    set (h3 := match currentConversationId (store h2) with
               | Some c =>
                   if (urlIndicatesNew h2 && negb (given (currentConversationId (store h2)))
                       && nonempty c)%bool
                   then emit (call_updatePendingStatus c "stream_completed_title_pending") h2
                   else h2
               | None => h2
               end).
    assert (Hstore3 : store h3 = store h2 /\ chunkBufferRef h3 = chunkBufferRef h2).
    { subst h3. destruct (currentConversationId (store h2)); [|now split].
      match goal with |- context [if ?b then _ else _] => destruct b end;
        now split. }
    destruct Hstore3 as [Hstore3 Hbuffer3].
    set (h4 := stop_remote_task o appConfig (currentTaskId (store h)) user h3).
    destruct (stop_remote_task_frame o appConfig (currentTaskId (store h)) user h3)
      as [Hmessages4 Hbuffer4].
    fold h4 in Hmessages4, Hbuffer4.
    assert (Hfind4 : find_message (id m) (store h4)
                     = Some (with_flags false true
                               (with_text (text m ++ chunkBufferRef h) m))).
    { rewrite (find_message_same_messages (id m) (store h3) (store h4) Hmessages4).
      now rewrite Hstore3. }
    assert (Hsides : sides (store (stop_mark_message o (id m) h4)) = sides (store h)).
    { unfold stop_mark_message. rewrite Hfind4. unfold update_message.
      hook_simpl. rewrite sides_update.
      rewrite (sides_same_messages _ _ Hmessages4), Hstore3.
      subst h2 h1. hook_simpl. rewrite sides_mark, flush_sides.
      subst h0. now destruct (appendTimerRef h). }
    rewrite <- Hsides in Hside.
    destruct (stop_persist_user_message_frame o (id m)
                (stop_mark_message o (id m) h4) Hside)
      as [Hfind6 Hbuffer6].
    hook_simpl. rewrite find_message_setIsWaitingForResponse, Hfind6, Hbuffer6.
    unfold stop_mark_message. rewrite Hfind4.
    unfold update_message. hook_simpl.
    split; [congruence|].
    eexists. split; [find_chain|].
    cbn [apply_patch with_flags with_text text wasManuallyStopped persistenceStatus
         metadata set_metadata set_wasManuallyStopped set_persistenceStatus opt_prop].
    repeat split.
    + rewrite lookup_set_field_other by reflexivity. apply lookup_set_field_same.
    + apply lookup_set_field_same.
Qed.

(** The amended C7 at work: stop pressed while [task-1] streams into
    [msg-0] with "tail" still buffered. *)
Lemma stop_marks_message_and_frees_interface_witness :
  let h' := handleStopProcessing (outside_at "/chat/conv-1")
              (streaming_with (Some "task-1") "tail") in
  isSubmittingRef h' = false
  /\ chunkBufferRef h' = ""
  /\ exists m', find_message "msg-0" (store h') = Some m'
                /\ text m' = "partialtail"
                /\ wasManuallyStopped m' = true.
Proof.
  intros h'.
  destruct (stop_marks_message_and_frees_interface (outside_at "/chat/conv-1")
              (streaming_with (Some "task-1") "tail") "user-1" eq_refl)
    as [[_ Hflag] Hmark]; [discriminate|].
  destruct (Hmark partial_reply eq_refl) as [Hbuffer (m' & Hfind & Htext & Hstopped & _)];
    try reflexivity; try discriminate.
  { intros [Huser|[]]. discriminate Huser. }
  split; [exact Hflag|]. split; [exact Hbuffer|].
  exists m'. repeat split; assumption.
Defined.

(** ** Chunk buffering *)




















(** *** What follows the stream keeps the texts *)







(** Split on every condition the goal branches on. *)
Ltac branch :=
  repeat match goal with
         | |- context [if ?b then _ else _] => destruct b; hook_simpl
         | |- context [match ?x with Some _ => _ | None => _ end] =>
             destruct x; hook_simpl
         | |- context [match ?x with Resolved _ => _ | Rejected _ => _ end] =>
             destruct x; hook_simpl
         | |- context [match ?x with success _ => _ | failure _ => _ end] =>
             destruct x; hook_simpl
         | |- context [match ?x with Ok _ => _ | Threw _ => _ end] =>
             destruct x; hook_simpl
         end.









(** *** Opening the conversation leaves the stream's state alone *)













Ltac split_cases :=
  repeat match goal with
         | |- context [if ?b then _ else _] => destruct b
         | |- context [match ?x with Some _ => _ | None => _ end] => destruct x
         | |- context [match ?x with Ok _ => _ | Threw _ => _ end] => destruct x
         | |- context [match ?x with (_, _) => _ end] => destruct x
         | |- _ => progress cbn [fst snd]
         end.








(** *** The submission up to the first chunk *)





(** *** From the submission to the final text *)



Lemma choose_app_store (sv : Services) (h : Hook) :
  store (fst (choose_app sv h)) = store h.
Proof. unfold choose_app. split_cases; reflexivity. Qed.





(** ** Persistence status *)














(** ** The streaming check on a stream that is alive *)

(** Unless the streamed message has been unchanged for more than 30000 ms
    since it was recorded, the check changes nothing but its own record:
    the store and the calls are as before.  The record is dropped when no
    flagged message is being streamed, written with the current time when
    there is none yet or when the id or the text has changed, and kept as
    it is (the clock is not restarted) while the text stays the same. *)
Theorem checkStreamingState_leaves_live_streams_alone
  (o : Outside) (now : Z) (h : Hook) :
  ~ stalled now h ->
  let h' := checkStreamingState o now h in
  h' = set_lastStreamingCheckRef (lastStreamingCheckRef h') h
  /\ ((forall i m, streamingMessageId (store h) = Some i ->
         i <> "" -> find_message i (store h) = Some m -> isStreaming m = false) ->
      lastStreamingCheckRef h' = None)
  /\ (forall i m,
        streamingMessageId (store h) = Some i ->
        i <> "" ->
        find_message i (store h) = Some m ->
        isStreaming m = true ->
        lastStreamingCheckRef h'
        = match lastStreamingCheckRef h with
          | Some last =>
              if (String.eqb (id m) (messageId last)
                  && String.eqb (text m) (content last))%bool
              then Some last
              else Some {| messageId := id m; content := text m;
                           lastUpdateTime := now |}
          | None => Some {| messageId := id m; content := text m;
                            lastUpdateTime := now |}
          end).
Proof.
  intros Hlive h'. subst h'. unfold checkStreamingState.
  destruct (streamingMessageId (store h)) as [i|] eqn:Hstreaming; cbn [given];
    [|split; [reflexivity|split; [reflexivity|discriminate]]].
  destruct (nonempty i) eqn:Hi.
  2:{ split; [reflexivity|split; [reflexivity|]].
      intros i' m [= <-] Hi'. now rewrite (nonempty_true i Hi') in Hi. }
  assert (Hi' : i <> "") by (intros ->; discriminate Hi).
  destruct (find_message i (store h)) as [m|] eqn:Hfind.
  2:{ split; [reflexivity|split; [reflexivity|]].
      intros i' m' [= <-] _ Hfind'. congruence. }
  destruct (isStreaming m) eqn:Hm.
  2:{ split; [reflexivity|split; [reflexivity|]].
      intros i' m' [= <-] _ Hfind' Hm'. congruence. }
  assert (Hflagged : forall P : Prop,
             (forall i0 m0, Some i = Some i0 -> i0 <> "" ->
                            find_message i0 (store h) = Some m0 ->
                            isStreaming m0 = false) -> P).
  { intros P Hnone. specialize (Hnone i m eq_refl Hi' Hfind). congruence. }
  assert (Hthis : forall i0 m0, Some i = Some i0 ->
                                find_message i0 (store h) = Some m0 -> m0 = m).
  { intros i0 m0 [= <-] Hfind0. congruence. }
  destruct (lastStreamingCheckRef h) as [last|] eqn:Hlast.
  - destruct (String.eqb (id m) (messageId last)
              && String.eqb (text m) (content last))%bool eqn:Hsame.
    + destruct (now - lastUpdateTime last >? 30000)%Z eqn:Hold.
      * exfalso. apply Hlive.
        apply andb_true_iff in Hsame as [Hid Htext].
        apply String.eqb_eq in Hid, Htext.
        exists i, m, last. repeat split; try assumption. lia.
      * split; [|split; [apply Hflagged|]].
        -- rewrite Hlast. destruct h. cbn in *. now rewrite Hlast.
        -- intros i0 m0 Hi0 _ Hfind0 _. rewrite (Hthis i0 m0 Hi0 Hfind0), Hsame.
           exact Hlast.
    + split; [reflexivity|split; [apply Hflagged|]].
      intros i0 m0 Hi0 _ Hfind0 _. now rewrite (Hthis i0 m0 Hi0 Hfind0), Hsame.
  - split; [reflexivity|split; [apply Hflagged|]].
    intros i0 m0 Hi0 _ Hfind0 _. now rewrite (Hthis i0 m0 Hi0 Hfind0).
Qed.

(** At work: the first check of a stream only records it. *)
Lemma checkStreamingState_leaves_live_streams_alone_witness :
  store (checkStreamingState (outside_at "/chat/conv-1") 5000 streaming_hook)
  = store streaming_hook
  /\ lastStreamingCheckRef
       (checkStreamingState (outside_at "/chat/conv-1") 5000 streaming_hook)
     = Some {| messageId := "msg-0"; content := "partial"; lastUpdateTime := 5000 |}.
Proof.
  assert (Hlive : ~ stalled 5000 streaming_hook).
  { intros (i & m & last & _ & _ & _ & _ & Hlast & _). discriminate Hlast. }
  destruct (checkStreamingState_leaves_live_streams_alone
              (outside_at "/chat/conv-1") 5000 streaming_hook Hlive)
    as (Hsame & _ & Hrecord).
  split.
  - now rewrite Hsame.
  - exact (Hrecord "msg-0" partial_reply eq_refl ltac:(discriminate) eq_refl eq_refl).
Defined.


(** ** Flushing the buffer *)

Lemma flush_without_append (i : option string) (h : Hook) :
  given i = false \/ chunkBufferRef h = "" ->
  flushChunkBuffer i h
  = match appendTimerRef h with
    | Some _ => set_appendTimerRef None h
    | None => h
    end.
Proof.
  unfold flushChunkBuffer, given. intros Hno.
  destruct i as [i|]; [|reflexivity].
  destruct Hno as [ -> | -> ]; [reflexivity|].
  now rewrite andb_false_r.
Qed.

Lemma flush_clears (i : option string) (h : Hook) :
  appendTimerRef (flushChunkBuffer i h) = None
  /\ (given i = true -> chunkBufferRef (flushChunkBuffer i h) = "").
Proof.
  unfold flushChunkBuffer, given.
  destruct i as [i|].
  - destruct (nonempty i); cbn [andb].
    + destruct (nonempty (chunkBufferRef h)) eqn:Hbuffer; hook_simpl.
      * destruct (appendTimerRef h) eqn:Htimer; hook_simpl; split;
          try reflexivity; assumption.
      * unfold nonempty in Hbuffer. apply negb_false_iff, String.eqb_eq in Hbuffer.
        destruct (appendTimerRef h) eqn:Htimer; hook_simpl; split;
          try reflexivity; try assumption; intros _; exact Hbuffer.
    + destruct (appendTimerRef h) eqn:Htimer; hook_simpl; split;
        try reflexivity; try assumption; discriminate.
  - destruct (appendTimerRef h) eqn:Htimer; hook_simpl; split;
      try reflexivity; try assumption; discriminate.
Qed.

(** [flushChunkBuffer] done twice is the same as done once.  It always
    leaves the timer reference empty; with a message id it leaves the
    buffer empty; without one, or with an empty buffer, it leaves the store
    and the buffer as they were. *)
Theorem flushChunkBuffer_is_idempotent (i : option string) (h : Hook) :
  flushChunkBuffer i (flushChunkBuffer i h) = flushChunkBuffer i h
  /\ appendTimerRef (flushChunkBuffer i h) = None
  /\ (given i = true -> chunkBufferRef (flushChunkBuffer i h) = "")
  /\ (given i = false \/ chunkBufferRef h = "" ->
      store (flushChunkBuffer i h) = store h
      /\ chunkBufferRef (flushChunkBuffer i h) = chunkBufferRef h).
Proof.
  destruct (flush_clears i h) as [Htimer Hbuffer].
  split; [|split; [exact Htimer|split; [exact Hbuffer|]]].
  - rewrite (flush_without_append i (flushChunkBuffer i h)).
    + now rewrite Htimer.
    + destruct (given i); [right; now apply Hbuffer|now left].
  - intros Hno. rewrite (flush_without_append i h Hno).
    destruct (appendTimerRef h); split; reflexivity.
Qed.

(** At work: a flush with nothing buffered leaves the streamed message as
    it is. *)
Lemma flushChunkBuffer_is_idempotent_witness :
  store (flushChunkBuffer (Some "msg-0") streaming_hook) = store streaming_hook.
Proof.
  exact (proj1 (proj2 (proj2 (proj2
           (flushChunkBuffer_is_idempotent (Some "msg-0") streaming_hook)))
           (or_intror eq_refl))).
Defined.


(** ** The calls of the stop handler *)

(** Split on every condition the goal branches on, keeping the equations. *)
Ltac branch_eq :=
  repeat match goal with
         | |- context [if ?b then _ else _] => destruct b eqn:?; hook_simpl
         | |- context [match ?x with Some _ => _ | None => _ end] =>
             destruct x eqn:?; hook_simpl
         | |- context [match ?x with Resolved _ => _ | Rejected _ => _ end] =>
             destruct x eqn:?; hook_simpl
         | |- context [match ?x with success _ => _ | failure _ => _ end] =>
             destruct x eqn:?; hook_simpl
         | |- context [match ?x with Ok _ => _ | Threw _ => _ end] =>
             destruct x eqn:?; hook_simpl
         end.

Lemma pending_status_never_due (urlNew : bool) (c : string) :
  (urlNew && negb (given (Some c)) && nonempty c)%bool = false.
Proof. cbn [given]. now destruct urlNew, (nonempty c). Qed.


Lemma stop_calls_none (o : Outside) (h0 h h' : Hook) :
  trace h' = trace h -> stop_calls o h0 0 h h'.
Proof.
  intros Htrace. exists []. rewrite app_nil_r.
  split; [exact Htrace|]. split; [constructor|reflexivity].
Qed.

Lemma stop_calls_then (o : Outside) (h0 : Hook) (n k : nat) (a b c : Hook) :
  stop_calls o h0 n a b -> stop_calls o h0 k b c -> stop_calls o h0 (n + k) a c.
Proof.
  intros (es & Hes & Hok & Hn) (es' & Hes' & Hok' & Hk).
  exists (es ++ es'). split; [now rewrite Hes', Hes, app_assoc|].
  split; [now apply Forall_app|].
  rewrite filter_app, length_app. lia.
Qed.

Lemma stop_calls_local (o : Outside) (h0 h : Hook) (e : Effect) :
  stop_call o h0 e -> is_remote_stop e = false ->
  stop_calls o h0 0 h (emit e h).
Proof.
  intros He Hlocal. exists [e]. split; [reflexivity|].
  split; [now constructor|]. cbn [filter]. now rewrite Hlocal.
Qed.

Lemma stop_calls_more (o : Outside) (h0 : Hook) (n k : nat) (h h' : Hook) :
  n <= k -> stop_calls o h0 n h h' -> stop_calls o h0 k h h'.
Proof.
  intros Hnk (es & Hes & Hok & Hn). exists es. repeat split; try assumption. lia.
Qed.

Lemma stop_save_user_message_calls (o : Outside) (h0 : Hook) (conv : string)
  (h : Hook) :
  stop_calls o h0 0 h (stop_save_user_message o conv h).
Proof.
  unfold stop_save_user_message, save_then, log_only.
  destruct (recent_unsaved_user_message (store h)) as [u|];
    [|now apply stop_calls_none].
  destruct (urlIndicatesNew h || negb (given (difyConversationId h)))%bool;
    [|now apply stop_calls_none].
  destruct (saveMessage o u conv); now apply stop_calls_local.
Qed.

Lemma stop_persist_user_message_calls (o : Outside) (h0 h : Hook) :
  stop_calls o h0 0 h (stop_persist_user_message o h).
Proof.
  unfold stop_persist_user_message.
  destruct (given (dbConversationUUID h)).
  - destruct (dbConversationUUID h);
      [apply stop_save_user_message_calls|now apply stop_calls_none].
  - destruct (given (difyConversationId h)); [|now apply stop_calls_none].
    destruct (difyConversationId h) as [d|]; [|now apply stop_calls_none].
    destruct (getConversationByExternalId o d) as [[[c|]|e]|e];
      try now apply stop_calls_local.
    apply (stop_calls_then o h0 0 0 _ (emit (call_getConversationByExternalId d) h)).
    + now apply stop_calls_local.
    + apply stop_save_user_message_calls.
Qed.

Lemma stop_mark_message_calls (o : Outside) (h0 : Hook) (i : string) (h : Hook) :
  stop_calls o h0 0 h (stop_mark_message o i h).
Proof.
  unfold stop_mark_message, update_message.
  destruct (find_message i (store h)); [|now apply stop_calls_none].
  match goal with
  | |- stop_calls _ _ _ _ (with_store _ (emit ?e _)) =>
      exact (stop_calls_local o h0 h e I eq_refl)
  end.
Qed.

Lemma stop_remote_task_calls (o : Outside) (h0 : Hook) (appConfig : option string)
  (user : string) (h : Hook) :
  currentUserId o = Some user ->
  (forall a, appConfig = Some a ->
             currentAppId o = Some a /\ currentAppInstance o <> None) ->
  stop_calls o h0 1 h
    (stop_remote_task o appConfig (currentTaskId (store h0)) user h).
Proof.
  intros Huser Happ. unfold stop_remote_task.
  destruct (currentTaskId (store h0)) as [t|] eqn:Htask;
    [|apply (stop_calls_more o h0 0); [lia|now apply stop_calls_none]].
  destruct (nonempty t) eqn:Ht;
    [|apply (stop_calls_more o h0 0); [lia|now apply stop_calls_none]].
  destruct appConfig as [a|];
    [|apply (stop_calls_more o h0 0); [lia|now apply stop_calls_none]].
  destruct (Happ a eq_refl) as [Ha Hinstance].
  assert (Hcalls : stop_calls o h0 1 h (emit (call_stopDifyStreamingTask a t user) h)).
  { exists [call_stopDifyStreamingTask a t user]. split; [reflexivity|].
    split; [|reflexivity]. constructor; [|constructor].
    cbn [stop_call]. repeat split; try assumption.
    intros ->. discriminate Ht. }
  destruct (stopDifyStreamingTask o a t user); exact Hcalls.
Qed.

Lemma flush_trace (i : option string) (h : Hook) :
  trace (flushChunkBuffer i h) = trace h.
Proof.
  unfold flushChunkBuffer.
  destruct i as [i|].
  - destruct (nonempty i && nonempty (chunkBufferRef h))%bool; hook_simpl;
      destruct (appendTimerRef h); reflexivity.
  - destruct (appendTimerRef h); reflexivity.
Qed.

Lemma stop_streaming_calls (o : Outside) (h : Hook) :
  stop_calls o h 1 h (stop_streaming o h).
Proof.
  unfold stop_streaming.
  destruct (currentUserId o) as [user|] eqn:Huser;
    [|apply (stop_calls_more o h 0); [lia|now apply stop_calls_none]].
  destruct (nonempty user) eqn:Hlogged;
    [|apply (stop_calls_more o h 0); [lia|now apply stop_calls_none]].
  destruct (streamingMessageId (store h)) as [i|] eqn:Hstreaming;
    [|apply (stop_calls_more o h 0); [lia|now apply stop_calls_none]].
  destruct (nonempty i) eqn:Hi;
    [|apply (stop_calls_more o h 0); [lia|now apply stop_calls_none]].
  set (appConfig := match currentAppId o, currentAppInstance o with
                    | Some a, Some _ => if nonempty a then Some a else None
                    | _, _ => None
                    end).
  assert (Happ : forall a, appConfig = Some a ->
                           currentAppId o = Some a /\ currentAppInstance o <> None).
  { subst appConfig. intros a.
    destruct (currentAppId o) as [a'|]; [|discriminate].
    destruct (currentAppInstance o); [|discriminate].
    destruct (nonempty a'); [|discriminate].
    intros [= ->]. split; [reflexivity|discriminate]. }
  set (h1 := match appendTimerRef h with
             | Some _ => set_appendTimerRef None h
             | None => h
             end).
  set (h3 := with_store (markAsManuallyStopped i) (flushChunkBuffer (Some i) h1)).
  assert (H3 : trace h3 = trace h).
  { subst h3 h1. hook_simpl. rewrite flush_trace. now destruct (appendTimerRef h). }
  set (h4 := match currentConversationId (store h3) with
             | Some c =>
                 if (urlIndicatesNew h3
                     && negb (given (currentConversationId (store h3)))
                     && nonempty c)%bool
                 then emit (call_updatePendingStatus c
                              "stream_completed_title_pending") h3
                 else h3
             | None => h3
             end).
  assert (H4 : h4 = h3).
  { subst h4. destruct (currentConversationId (store h3)) as [c|]; [|reflexivity].
    now rewrite pending_status_never_due. }
  rewrite H4.
  match goal with
  | |- stop_calls _ _ _ _ (set_isSubmittingRef _ (with_store _ ?h7)) =>
      assert (H7 : stop_calls o h 1 h h7)
  end.
  { apply (stop_calls_then o h 1 0 _ (stop_mark_message o i
             (stop_remote_task o appConfig (currentTaskId (store h)) user h3))).
    - apply (stop_calls_then o h 1 0 _
               (stop_remote_task o appConfig (currentTaskId (store h)) user h3)).
      + apply (stop_calls_then o h 0 1 _ h3); [now apply stop_calls_none|].
        now apply stop_remote_task_calls.
      + apply stop_mark_message_calls.
    - apply stop_persist_user_message_calls. }
  destruct H7 as (es & Hes & Hok & Hn). exists es. hook_simpl. auto.
Qed.


Lemma stop_repair_calls (o : Outside) (h0 : Hook) (i : string) (m : ChatMessage)
  (h : Hook) :
  stop_calls o h0 0 h (stop_repair o i m h).
Proof.
  unfold stop_repair, set_status, update_message, save_then. hook_simpl.
  destruct (dbConversationUUID h) as [conv|]; [|now apply stop_calls_none].
  destruct (nonempty conv && negb (is_saved (persistenceStatus m))
            && negb (given (db_id m)))%bool; [|now apply stop_calls_none].
  hook_simpl.
  destruct (saveMessage o m conv); hook_simpl.
  - exists [call_updateMessage i (status_patch pending); call_saveMessage m conv].
    hook_simpl. rewrite <- app_assoc. split; [reflexivity|].
    split; [repeat constructor|reflexivity].
  - exists [call_updateMessage i (status_patch pending); call_saveMessage m conv;
            call_updateMessage i (status_patch error)].
    hook_simpl. rewrite <- !app_assoc. split; [reflexivity|].
    split; [repeat constructor|reflexivity].
Qed.

Lemma stop_call_kinds (o : Outside) (h : Hook) (es : list Effect) :
  Forall (stop_call o h) es ->
  existsb is_pending_status es = false /\ existsb opens_stream es = false.
Proof.
  induction 1 as [|e es He _ [IHpending IHopens]]; [now split|].
  cbn [existsb]. rewrite IHpending, IHopens.
  destruct e; cbn in He |- *; try contradiction; now split.
Qed.

(** Whatever the state, [handleStopProcessing] makes only these calls: it
    updates messages, saves, looks the conversation up, and asks the service
    to stop a task, the last at most once and only for the store's task id,
    with the configured app and the logged-in user.  It never updates the
    pending status of a conversation (the condition of the call it has for
    that cannot hold) and never opens a stream.  With nothing being
    streamed it makes no call at all and only resets the two flags, and
    that only for a logged-in user. *)
Theorem handleStopProcessing_makes_few_calls (o : Outside) (h : Hook) :
  (exists es,
     trace (handleStopProcessing o h) = trace h ++ es
     /\ Forall (stop_call o h) es
     /\ List.length (filter is_remote_stop es) <= 1
     /\ existsb is_pending_status es = false
     /\ existsb opens_stream es = false)
  /\ (streamingMessageId (store h) = None ->
      handleStopProcessing o h
      = if given (currentUserId o)
        then set_isSubmittingRef false (with_store (setIsWaitingForResponse false) h)
        else h).
Proof.
  split.
  - assert (Hcalls : stop_calls o h 1 h (handleStopProcessing o h)).
    { unfold handleStopProcessing.
      destruct (streamingMessageId (store h)) as [i|];
        [|apply stop_streaming_calls].
      destruct (nonempty i); [|apply stop_streaming_calls].
      destruct (find_message i (store h)) as [m|]; [|apply stop_streaming_calls].
      destruct (isStreaming m); [|apply stop_streaming_calls].
      match goal with
      | |- context [if ?b then _ else _] => destruct b
      end; [|apply stop_streaming_calls].
      apply (stop_calls_more o h 0); [lia|apply stop_repair_calls]. }
    destruct Hcalls as (es & Hes & Hok & Hn).
    destruct (stop_call_kinds o h es Hok) as [Hpending Hopens].
    exists es. auto.
  - intros Hnone. unfold handleStopProcessing, stop_streaming, given.
    rewrite Hnone.
    destruct (currentUserId o) as [user|]; [|reflexivity].
    now destruct (nonempty user).
Qed.

(** At work: a stop with nothing being streamed. *)
Lemma handleStopProcessing_makes_few_calls_witness :
  handleStopProcessing (outside_at "/chat/conv-1") idle_hook
  = set_isSubmittingRef false (with_store (setIsWaitingForResponse false) idle_hook).
Proof.
  exact (proj2 (handleStopProcessing_makes_few_calls
                  (outside_at "/chat/conv-1") idle_hook) eq_refl).
Defined.


(** ** Submitting from the new-chat page *)

Lemma prefix_append (p x : string) : String.prefix p (p ++ x) = true.
Proof.
  induction p as [|c p IH]; cbn [append String.prefix]; [now destruct x|].
  destruct (ascii_dec c c); [exact IH|congruence].
Qed.

Lemma includes_prefix (p s : string) :
  String.prefix p s = true -> includes s p = true.
Proof. intros H. destruct s; cbn [includes]; now rewrite H. Qed.

Lemma temp_path_is_temporary (now : Z) :
  includes (temp_path now) "/chat/temp-" = true.
Proof. apply includes_prefix. unfold temp_path. apply prefix_append. Qed.

Lemma urlIndicatesNew_at (h : Hook) (now : Z) :
  location_pathname h = temp_path now -> urlIndicatesNew h = true.
Proof.
  intros Hpath. unfold urlIndicatesNew.
  rewrite Hpath, temp_path_is_temporary. apply orb_true_r.
Qed.

(** A first submission from [/chat/new] (the welcome screen is up) replaces
    the path by [/chat/temp-<time>] and is treated as a new conversation,
    whatever conversation id the hook still holds; the hook's Dify
    conversation id is cleared.  The route effect reads every such path as
    a temporary one: it makes no lookup and clears the three ids, as
    [clearConversationState] does. *)
Theorem first_submission_moves_to_a_temporary_path
  (sv : Services) (message' : string)
  (files' : option (list (list (string * JsVal)))) (inputs' : JsVal)
  (user app : string) (h : Hook) :
  isWelcomeScreen h = true ->
  location_pathname h = "/chat/new" ->
  let prepared := prepare sv message' files' inputs' user app h in
  location_pathname (hook (snd prepared)) = temp_path (Date_now sv)
  /\ trace (hook (snd prepared))
     = trace h ++ [call_history_replaceState (temp_path (Date_now sv))]
  /\ isWelcomeScreen (hook (snd prepared)) = false
  /\ isNewConversationFlow (fst prepared) = true
  /\ difyConversationId (hook (snd prepared)) = None
  /\ forall (o : Outside) (h' : Hook),
       currentPathname o = Some (temp_path (Date_now sv)) ->
       route_effect o h' = clearConversationState h'.
Proof.
  intros Hwelcome Hpath prepared. subst prepared. unfold prepare.
  hook_simpl. rewrite Hwelcome, Hpath. hook_simpl.
  cbn [String.eqb Ascii.eqb Bool.eqb].
  repeat match goal with
         | |- context [urlIndicatesNew ?x] =>
             rewrite (urlIndicatesNew_at x (Date_now sv) eq_refl)
         end.
  cbn [orb].
  destruct (difyConversationId h) eqn:Hdify; hook_simpl;
    repeat match goal with
           | |- context [urlIndicatesNew ?x] =>
               rewrite (urlIndicatesNew_at x (Date_now sv) eq_refl)
           end;
    destruct (currentConversationId _); hook_simpl;
    (split; [reflexivity|split; [reflexivity|split; [reflexivity|split;
       [reflexivity|split; [reflexivity || exact Hdify|]]]]]).
  all: intros o h' Hroute; unfold route_effect, clearConversationState;
    rewrite Hroute, temp_path_is_temporary;
    rewrite !andb_false_r; cbn [negb];
    assert (Hfull : nonempty (temp_path (Date_now sv)) = true) by reflexivity;
    rewrite Hfull; now rewrite orb_true_r.
Qed.

(** At work: the first message typed on the welcome screen. *)
Lemma first_submission_moves_to_a_temporary_path_witness :
  let h := setIsWelcomeScreen true (set_location_pathname "/chat/new" idle_hook) in
  location_pathname
    (hook (snd (prepare (streaming_reply hello_stream) "hi" None JUndefined
                  "user-1" "app-1" h)))
  = "/chat/temp-1000".
Proof.
  intros h.
  exact (proj1 (first_submission_moves_to_a_temporary_path
                  (streaming_reply hello_stream) "hi" None JUndefined
                  "user-1" "app-1" h eq_refl eq_refl)).
Defined.


(** ** Submissions that do not start *)

Lemma choose_app_calls (sv : Services) (h : Hook) :
  exists es,
    trace (fst (choose_app sv h)) = trace h ++ es
    /\ existsb opens_stream es = false.
Proof.
  unfold choose_app.
  destruct (conversationAppId h) as [original|].
  - destruct (nonempty original).
    + destruct (validateConfig sv original "message"); hook_simpl.
      * exists [call_validateConfig original "message"; call_ensureAppReady].
        now rewrite <- app_assoc.
      * now exists [call_validateConfig original "message"].
    + now exists [call_ensureAppReady].
  - now exists [call_ensureAppReady].
Qed.

(** [handleSubmit] by a user who is not logged in changes nothing.  When
    the app configuration cannot be obtained, it adds one assistant message
    that carries the error, with persistence status [error], and stops
    there: the user's message is not added, the submitting flag is not
    taken, no stream is opened. *)
Theorem handleSubmit_stops_without_user_or_app
  (o : Outside) (sv : Services) (message' : string)
  (files' : option (list (list (string * JsVal)))) (inputs' : JsVal) (h : Hook) :
  (given (currentUserId o) = false ->
   handleSubmit o sv message' files' inputs' h = h)
  /\ (forall t,
        isSubmittingRef h = false ->
        selectIsProcessing (store h) = false ->
        given (currentUserId o) = true ->
        snd (choose_app sv h) = Threw t ->
        let h' := handleSubmit o sv message' files' inputs' h in
        let errorMessage :=
          match t with
          | thrown_Error e => Error_message e
          | thrown_other => "应用配置获取失败"
          end in
        messages (store h')
        = messages (store h)
          ++ [{| id := message_id (nextMessage (store h));
                 text := "抱歉，无法获取应用配置: " ++ errorMessage
                         ++ "。请检查网络连接或联系管理员。";
                 isUser := false;
                 isStreaming := false;
                 wasManuallyStopped := false;
                 persistenceStatus := Some error;
                 db_id := None;
                 metadata := JUndefined;
                 error_text := Some errorMessage;
                 token_count := JUndefined;
                 attachments := JUndefined |}]
        /\ isSubmittingRef h' = false
        /\ selectIsProcessing (store h') = false
        /\ exists es, trace h' = trace h ++ es
                      /\ existsb opens_stream es = false).
Proof.
  split.
  - intros Hout. unfold handleSubmit.
    destruct (isSubmittingRef h); [reflexivity|].
    destruct (selectIsProcessing (store h)); [reflexivity|].
    destruct (currentUserId o) as [user|]; [|reflexivity].
    cbn [given] in Hout. now rewrite Hout.
  - intros t Hfree Hidle Huser Happ h' errorMessage. subst h'.
    unfold handleSubmit. rewrite Hfree, Hidle.
    destruct (currentUserId o) as [user|]; [|discriminate Huser].
    cbn [given] in Huser. rewrite Huser. cbn zeta. rewrite Happ.
    hook_simpl.
    assert (Hstore : store (fst (choose_app sv h)) = store h)
      by apply choose_app_store.
    assert (Hflag : isSubmittingRef (fst (choose_app sv h)) = false).
    { unfold choose_app. repeat match goal with
                                | |- context [match ?x with _ => _ end] => destruct x
                                end; exact Hfree. }
    rewrite Hstore. cbn [addMessage fst messages].
    split; [reflexivity|]. split; [exact Hflag|].
    split; [exact Hidle|]. apply choose_app_calls.
Qed.

(** At work: a submission by nobody. *)
Lemma handleSubmit_stops_without_user_or_app_witness :
  handleSubmit logged_out (streaming_reply hello_stream) "hi" None JUndefined idle_hook
  = idle_hook.
Proof.
  exact (proj1 (handleSubmit_stops_without_user_or_app
                  logged_out (streaming_reply hello_stream) "hi" None JUndefined
                  idle_hook) eq_refl).
Defined.

(** ** What the steps after the stream leave alone *)












(** ** A submission that goes through *)


(** ** A stream that ends by throwing *)





(** ** One stream per submission *)

Lemma opened_calls_emit (e : Effect) (h : Hook) :
  opens_stream e = false -> opened_calls (emit e h) = opened_calls h.
Proof.
  intros He. unfold opened_calls. cbn [emit trace].
  rewrite filter_app. cbn [filter]. rewrite He. apply app_nil_r.
Qed.

(** Prove [opened_calls (f h) = opened_calls h] by following the branches
    of [f], once unfolded. *)
Ltac quiet :=
  hook_simpl; branch; unfold opened_calls in *; hook_simpl;
  rewrite ?filter_app; cbn [filter opens_stream]; rewrite ?app_nil_r;
  try reflexivity; try assumption; try congruence.

Lemma flush_quiet (i : option string) (h : Hook) :
  opened_calls (flushChunkBuffer i h) = opened_calls h.
Proof. unfold opened_calls. now rewrite flush_trace. Qed.

Lemma lookup_db_id_quiet (o : Outside) (externalId : string) (reset : bool)
  (r : Run) :
  opened_calls (hook (lookup_db_id o externalId reset r)) = opened_calls (hook r).
Proof. unfold lookup_db_id. quiet. Qed.

Lemma onDbId_quiet (o : Outside) (c : Submission) (dbId : string) (r : Run) :
  opened_calls (hook (onDbId o c dbId r)) = opened_calls (hook r).
Proof. unfold onDbId, save_then, log_only. quiet. Qed.

Lemma onConversationId_quiet (o : Outside) (c : Submission) (conv : string)
  (r : Run) :
  opened_calls (hook (onConversationId o c conv r)) = opened_calls (hook r).
Proof.
  unfold onConversationId.
  repeat match goal with
         | |- context [if ?b then _ else _] => destruct b
         end; rewrite ?lookup_db_id_quiet; quiet.
Qed.

Lemma handleStopProcessing_quiet (o : Outside) (h : Hook) :
  opened_calls (handleStopProcessing o h) = opened_calls h.
Proof.
  assert (Hcalls : stop_calls o h 1 h (handleStopProcessing o h)).
  { unfold handleStopProcessing.
    destruct (streamingMessageId (store h)) as [i|];
      [|apply stop_streaming_calls].
    destruct (nonempty i); [|apply stop_streaming_calls].
    destruct (find_message i (store h)) as [m|]; [|apply stop_streaming_calls].
    destruct (isStreaming m); [|apply stop_streaming_calls].
    match goal with
    | |- context [if ?b then _ else _] => destruct b
    end; [|apply stop_streaming_calls].
    apply (stop_calls_more o h 0); [lia|apply stop_repair_calls]. }
  destruct Hcalls as (es & Hes & Hok & _).
  unfold opened_calls. rewrite Hes, filter_app.
  replace (filter opens_stream es) with (@nil Effect); [apply app_nil_r|].
  clear Hes. induction Hok as [|e es He _ IH]; [reflexivity|].
  cbn [filter]. rewrite <- IH. destruct e; cbn in He |- *; easy.
Qed.

Lemma on_chunk_quiet (c : Submission) (now : Z) (answerChunk : string) (r : Run) :
  opened_calls (hook (fst (on_chunk c now answerChunk r))) = opened_calls (hook r).
Proof.
  unfold on_chunk, buffer_chunk.
  set (r1 := match streamingMessageId (store (hook r)), assistantMessageId r with
             | None, None => _
             | _, _ => r
             end).
  assert (H1 : opened_calls (hook r1) = opened_calls (hook r)) by (subst r1; quiet).
  clearbody r1. rewrite <- H1.
  hook_simpl; branch; hook_simpl; rewrite ?flush_quiet; reflexivity.
Qed.

Lemma checkStreamingState_quiet (o : Outside) (now : Z) (h : Hook) :
  opened_calls (checkStreamingState o now h) = opened_calls h.
Proof.
  unfold checkStreamingState, save_then, set_status, update_message. quiet.
Qed.

Lemma stream_loop_quiet (o : Outside) (c : Submission) (evs : list StreamEvent) :
  forall r : Run,
    opened_calls (hook (fst (stream_loop o c evs r))) = opened_calls (hook r).
Proof.
  induction evs as [|e evs IH]; intros r; [reflexivity|].
  destruct e as [now answerChunk|now| |difyId dbId|now]; cbn [stream_loop].
  - destruct (snd (on_chunk c now answerChunk r));
      [|rewrite IH]; apply on_chunk_quiet.
  - rewrite IH. unfold on_timer.
    destruct (appendTimerRef (hook r)) as [[|]|]; try reflexivity.
    hook_simpl. apply flush_quiet.
  - rewrite IH. hook_simpl. apply handleStopProcessing_quiet.
  - rewrite IH. apply onDbId_quiet.
  - rewrite IH. hook_simpl. apply checkStreamingState_quiet.
Qed.

Lemma completion_phase_quiet
  (done : option (Attempt (option CompletionData))) (r : Run) :
  opened_calls (hook (completion_phase done r)) = opened_calls (hook r).
Proof. unfold completion_phase, update_message. quiet. Qed.

Lemma ids_phase_quiet (o : Outside) (c : Submission) (r : Run) :
  opened_calls (hook (ids_phase o c r)) = opened_calls (hook r).
Proof. unfold ids_phase. quiet. Qed.

Lemma save_assistant_quiet (o : Outside) (i conv : string) (h : Hook) :
  opened_calls (save_assistant o i conv h) = opened_calls h.
Proof. unfold save_assistant, save_then, set_status, update_message. quiet. Qed.

Lemma late_save_quiet (o : Outside) (c : Submission) (a : option string)
  (conv : string) (h : Hook) :
  opened_calls (late_save o c a conv h) = opened_calls h.
Proof. unfold late_save, save_then, log_only. quiet. Qed.

Lemma save_phase_quiet (o : Outside) (c : Submission) (r : Run) :
  opened_calls (hook (fst (save_phase o c r))) = opened_calls (hook r).
Proof.
  unfold save_phase, save_then, log_only.
  hook_simpl; branch; hook_simpl; rewrite ?save_assistant_quiet; quiet.
Qed.

Lemma catch_block_quiet (o : Outside) (c : Submission) (t : Thrown) (r : Run) :
  opened_calls (hook (catch_block o c t r)) = opened_calls (hook r).
Proof.
  unfold catch_block, save_then, set_status, update_message, log_only. quiet.
Qed.

Lemma finally_block_quiet (o : Outside) (c : Submission) (r : Run) :
  opened_calls (finally_block o c r) = opened_calls (hook r).
Proof.
  unfold finally_block, save_then, save_stopped_then, set_status, update_message.
  quiet.
Qed.


Lemma lookup_db_id_filtered (o : Outside) (externalId : string) (reset : bool)
  (r : Run) :
  filter opens_stream (trace (hook (lookup_db_id o externalId reset r)))
  = filter opens_stream (trace (hook r)).
Proof. exact (lookup_db_id_quiet o externalId reset r). Qed.

Lemma onDbId_filtered (o : Outside) (c : Submission) (dbId : string) (r : Run) :
  filter opens_stream (trace (hook (onDbId o c dbId r)))
  = filter opens_stream (trace (hook r)).
Proof. exact (onDbId_quiet o c dbId r). Qed.

Lemma onConversationId_filtered (o : Outside) (c : Submission) (conv : string)
  (r : Run) :
  filter opens_stream (trace (hook (onConversationId o c conv r)))
  = filter opens_stream (trace (hook r)).
Proof. exact (onConversationId_quiet o c conv r). Qed.

(** Bring [filter opens_stream (trace ...)] down to the hook it started
    from. *)
Ltac filtered :=
  unfold opened_calls;
  repeat (hook_simpl;
          rewrite ?lookup_db_id_filtered, ?onDbId_filtered,
            ?onConversationId_filtered, ?filter_app;
          cbn [filter opens_stream]; rewrite ?app_nil_r).

Lemma open_new_opens (o : Outside) (sv : Services) (c : Submission) (r : Run) :
  opened_calls (hook (fst (open_new o sv c r)))
  = opened_calls (hook r)
    ++ [call_initiateNewConversation (basePayloadForNewConversation c)
          (appId c) (userId c)].
Proof.
  unfold open_new. split_cases; filtered; reflexivity.
Qed.

Lemma open_existing_opens (o : Outside) (sv : Services) (c : Submission) (r : Run) :
  opened_calls (hook (fst (open_existing o sv c r)))
  = opened_calls (hook r) ++ [call_streamDifyChat (difyPayload c) (appId c)].
Proof.
  unfold open_existing, save_then, log_only. split_cases; filtered; reflexivity.
Qed.


Lemma try_block_opens (o : Outside) (sv : Services) (c : Submission) (r : Run) :
  opened_calls (hook (fst (fst (try_block o sv c r))))
  = opened_calls (hook r)
    ++ [if isNewConversationFlow c
        then call_initiateNewConversation (basePayloadForNewConversation c)
               (appId c) (userId c)
        else call_streamDifyChat (difyPayload c) (appId c)]
  /\ (forall k, snd (try_block o sv c r) = Some k ->
        exists b conv, k = late_save o c b conv).
Proof.
  unfold try_block.
  set (opened := if isNewConversationFlow c
                 then open_new o sv c r else open_existing o sv c r).
  assert (Hopened :
            opened_calls (hook (fst opened))
            = opened_calls (hook r)
              ++ [if isNewConversationFlow c
                  then call_initiateNewConversation (basePayloadForNewConversation c)
                         (appId c) (userId c)
                  else call_streamDifyChat (difyPayload c) (appId c)]).
  { subst opened. destruct (isNewConversationFlow c);
      [apply open_new_opens|apply open_existing_opens]. }
  clearbody opened. cbn zeta. rewrite <- Hopened.
  destruct (snd opened) as [[[stream|] done]|t]; cbn [fst snd];
    try (split; [reflexivity|discriminate]).
  pose proof (stream_loop_quiet o c (events stream) (fst opened)) as Hlooped.
  set (looped := stream_loop o c (events stream) (fst opened)) in *.
  clearbody looped. rewrite <- Hlooped.
  destruct (if snd looped then None else throws stream) as [t|]; cbn [fst snd];
    [split; [reflexivity|discriminate]|].
  split.
  - rewrite save_phase_quiet, ids_phase_quiet, completion_phase_quiet.
    hook_simpl. apply flush_quiet.
  - unfold save_phase. hook_simpl.
    branch_eq; intros k Hk; try discriminate Hk; injection Hk as <-;
      eexists; eexists; reflexivity.
Qed.

Lemma complete_opens (o : Outside) (sv : Services) (c : Submission) (r : Run) :
  opened_calls (complete o sv c r)
  = opened_calls (hook r)
    ++ [if isNewConversationFlow c
        then call_initiateNewConversation (basePayloadForNewConversation c)
               (appId c) (userId c)
        else call_streamDifyChat (difyPayload c) (appId c)].
Proof.
  unfold complete. destruct (try_block_opens o sv c r) as [Htried Hlate].
  set (tried := try_block o sv c r) in *. clearbody tried. cbn zeta.
  rewrite <- Htried.
  assert (Hfinally :
            opened_calls
              (finally_block o c
                 match snd (fst tried) with
                 | Some t => catch_block o c t (fst (fst tried))
                 | None => fst (fst tried)
                 end)
            = opened_calls (hook (fst (fst tried)))).
  { rewrite finally_block_quiet.
    destruct (snd (fst tried)); [apply catch_block_quiet|reflexivity]. }
  destruct (snd tried) as [k|]; [|exact Hfinally].
  destruct (Hlate k eq_refl) as (b & conv & ->).
  now rewrite late_save_quiet.
Qed.

Lemma prepare_builds (sv : Services) (message' : string)
  (files' : option (list (list (string * JsVal)))) (inputs' : JsVal)
  (user app : string) (h : Hook) :
  let prepared := prepare sv message' files' inputs' user app h in
  opened_calls (hook (snd prepared)) = opened_calls h
  /\ isNewConversationFlow (fst prepared)
     = (urlIndicatesNew h || negb (given (difyConversationId h)))%bool
  /\ message (fst prepared) = message'
  /\ files (fst prepared) = files'
  /\ inputs (fst prepared) = inputs'
  /\ userId (fst prepared) = user
  /\ appId (fst prepared) = app
  /\ closed_difyConversationId (fst prepared) = difyConversationId h.
Proof.
  intros prepared. subst prepared. unfold prepare.
  cbn [fst snd message files inputs userId appId closed_difyConversationId
       isNewConversationFlow hook].
  split.
  - split_cases; filtered; reflexivity.
  - split; [|now repeat split].
    f_equal. unfold urlIndicatesNew. hook_simpl.
    destruct (isWelcomeScreen h); [|reflexivity]. hook_simpl.
    destruct (String.eqb (location_pathname h) "/chat/new") eqn:Hpath;
      hook_simpl; rewrite ?Hpath; [|reflexivity].
    now rewrite temp_path_is_temporary, orb_true_r.
Qed.

(** A submission that gets past the guards and has an app opens exactly
    one answer stream, whatever happens afterwards: by
    [initiateNewConversation] when the path is [/chat/new] or a temporary
    one, or when the hook holds no Dify conversation id, and by
    [streamDifyChat] for the conversation the hook holds otherwise.  The
    payload carries the message, the inputs and the user as given. *)
Theorem handleSubmit_opens_one_stream
  (o : Outside) (sv : Services) (message' : string)
  (files' : option (list (list (string * JsVal)))) (inputs' : JsVal)
  (h : Hook) (user app : string) :
  isSubmittingRef h = false ->
  selectIsProcessing (store h) = false ->
  currentUserId o = Some user ->
  user <> "" ->
  snd (choose_app sv h) = Ok app ->
  let c := fst (prepare sv message' files' inputs' user app (fst (choose_app sv h))) in
  opened_calls (handleSubmit o sv message' files' inputs' h)
  = opened_calls h
    ++ [if (urlIndicatesNew h || negb (given (difyConversationId h)))%bool
        then call_initiateNewConversation (basePayloadForNewConversation c) app user
        else call_streamDifyChat (difyPayload c) app]
  /\ message c = message'
  /\ files c = files'
  /\ inputs c = inputs'
  /\ userId c = user
  /\ closed_difyConversationId c = difyConversationId h.
Proof.
  intros Hfree Hidle Huser Hlogged Happ c.
  set (h1 := fst (choose_app sv h)) in *.
  assert (Hquiet : opened_calls h1 = opened_calls h).
  { subst h1. destruct (choose_app_calls sv h) as (es & Hes & Hnone).
    unfold opened_calls. rewrite Hes, filter_app.
    replace (filter opens_stream es) with (@nil Effect); [apply app_nil_r|].
    clear Hes. induction es as [|e es IH]; [reflexivity|].
    cbn [existsb] in Hnone. apply orb_false_iff in Hnone as [He Hes].
    cbn [filter]. rewrite He. now apply IH. }
  assert (Hsame : urlIndicatesNew h1 = urlIndicatesNew h
                  /\ difyConversationId h1 = difyConversationId h).
  { subst h1. unfold choose_app, urlIndicatesNew.
    repeat match goal with
           | |- context [match ?x with _ => _ end] => destruct x
           end; now split. }
  destruct Hsame as [Hurl Hdify].
  destruct (prepare_builds sv message' files' inputs' user app h1)
    as (Hprepared & Hnew & Hmessage & Hfiles & Hinputs & Huserid & Happid & Hclosed).
  fold c in Hprepared, Hnew, Hmessage, Hfiles, Hinputs, Huserid, Happid, Hclosed.
  split; [|rewrite <- Hdify; auto].
  unfold handleSubmit.
  rewrite Hfree, Hidle, Huser, (nonempty_true user Hlogged). cbn zeta.
  rewrite Happ. unfold submit. cbn zeta. fold h1. fold c.
  rewrite complete_opens, Hprepared, Hquiet, Hnew, Hurl, Hdify, Huserid, Happid.
  reflexivity.
Qed.

(** At work: a message on the page of an existing conversation. *)
Lemma handleSubmit_opens_one_stream_witness :
  exists payload,
    opened_calls
      (handleSubmit (outside_at "/chat/conv-1") (streaming_reply hello_stream)
         "hi" None JUndefined idle_hook)
    = [call_streamDifyChat payload "app-1"].
Proof.
  eexists.
  refine (proj1 (handleSubmit_opens_one_stream
                   (outside_at "/chat/conv-1") (streaming_reply hello_stream)
                   "hi" None JUndefined idle_hook "user-1" "app-1"
                   eq_refl eq_refl eq_refl _ eq_refl)).
  discriminate.
Defined.

(** ** The conversation a submission ends in *)

Lemma conversation_map (i : string) (f : ChatMessage -> ChatMessage) (s : ChatState) :
  currentConversationId (map_message i f s) = currentConversationId s.
Proof. reflexivity. Qed.

Lemma conversation_release (i : string) (s : ChatState) :
  currentConversationId (release_stream i s) = currentConversationId s.
Proof.
  unfold release_stream. destruct (streamingMessageId s) as [j|]; [|reflexivity].
  now destruct (String.eqb j i).
Qed.

(** Prove [same_conversation h0 (f h)] from [same_conversation h0 h] by
    following the branches of [f], once unfolded. *)
Ltac stays :=
  unfold same_conversation, save_then, save_stopped_then, log_only, set_status,
    update_message in *;
  hook_simpl; branch_eq;
  unfold updateMessage, appendMessageChunk, finalizeStreamingMessage,
    markAsManuallyStopped, setMessageError, addMessage, mark_saved;
  repeat (progress (rewrite ?conversation_release, ?conversation_map; hook_simpl));
  try assumption;
  repeat match goal with
         | H : _ /\ _ |- _ => destruct H
         end;
  try (split; congruence).

Lemma flush_stays (i : option string) (h0 h : Hook) :
  same_conversation h0 h -> same_conversation h0 (flushChunkBuffer i h).
Proof. intros H. unfold flushChunkBuffer. stays. Qed.

Lemma lookup_db_id_stays (o : Outside) (externalId : string) (reset : bool)
  (h0 : Hook) (r : Run) :
  same_conversation h0 (hook r) ->
  same_conversation h0 (hook (lookup_db_id o externalId reset r))
  /\ finalRealConvId (lookup_db_id o externalId reset r) = finalRealConvId r
  /\ finalTaskId (lookup_db_id o externalId reset r) = finalTaskId r.
Proof.
  intros H. unfold lookup_db_id.
  split; [stays|hook_simpl; branch; now split].
Qed.

Lemma onDbId_stays (o : Outside) (c : Submission) (dbId : string)
  (h0 : Hook) (r : Run) :
  same_conversation h0 (hook r) ->
  same_conversation h0 (hook (onDbId o c dbId r))
  /\ finalRealConvId (onDbId o c dbId r) = finalRealConvId r.
Proof.
  intros H. unfold onDbId.
  split; [stays|hook_simpl; branch_eq; hook_simpl; congruence].
Qed.

Lemma stop_save_user_message_stays (o : Outside) (conv : string) (h0 h : Hook) :
  same_conversation h0 h -> same_conversation h0 (stop_save_user_message o conv h).
Proof. intros H. unfold stop_save_user_message. stays. Qed.

Lemma stop_persist_user_message_stays (o : Outside) (h0 h : Hook) :
  same_conversation h0 h -> same_conversation h0 (stop_persist_user_message o h).
Proof.
  intros H. unfold stop_persist_user_message.
  repeat match goal with
         | |- context [if ?b then _ else _] => destruct b
         | |- context [match ?x with Some _ => _ | None => _ end] => destruct x
         | |- context [match ?x with Resolved _ => _ | Rejected _ => _ end] =>
             destruct x
         | |- context [match ?x with success _ => _ | failure _ => _ end] =>
             destruct x
         end; try exact H; apply stop_save_user_message_stays; exact H.
Qed.

Lemma stop_remote_task_stays (o : Outside) (a t : option string) (u : string)
  (h0 h : Hook) :
  same_conversation h0 h -> same_conversation h0 (stop_remote_task o a t u h).
Proof. intros H. unfold stop_remote_task. stays. Qed.

Lemma stop_mark_message_stays (o : Outside) (i : string) (h0 h : Hook) :
  same_conversation h0 h -> same_conversation h0 (stop_mark_message o i h).
Proof. intros H. unfold stop_mark_message. stays. Qed.

Lemma stop_repair_stays (o : Outside) (i : string) (m : ChatMessage) (h0 h : Hook) :
  same_conversation h0 h -> same_conversation h0 (stop_repair o i m h).
Proof. intros H. unfold stop_repair. stays. Qed.

Lemma stop_streaming_stays (o : Outside) (h0 h : Hook) :
  same_conversation h0 h -> same_conversation h0 (stop_streaming o h).
Proof.
  intros H. unfold stop_streaming.
  destruct (currentUserId o) as [user|]; [|exact H].
  destruct (nonempty user); [|exact H].
  destruct (streamingMessageId (store h)) as [i|]; [|stays].
  destruct (nonempty i); [|stays].
  cbn zeta.
  assert (Hlast : forall h1, same_conversation h0 h1 ->
            same_conversation h0
              (set_isSubmittingRef false (with_store (setIsWaitingForResponse false) h1)))
    by (intros h1 H1; stays).
  apply Hlast.
  apply stop_persist_user_message_stays, stop_mark_message_stays,
    stop_remote_task_stays.
  assert (Hflushed : same_conversation h0
            (with_store (markAsManuallyStopped i)
               (flushChunkBuffer (Some i)
                  match appendTimerRef h with
                  | Some _ => set_appendTimerRef None h
                  | None => h
                  end))).
  { assert (H1 : same_conversation h0
                   (flushChunkBuffer (Some i)
                      match appendTimerRef h with
                      | Some _ => set_appendTimerRef None h
                      | None => h
                      end))
      by (apply flush_stays; destruct (appendTimerRef h); stays).
    revert H1. generalize (flushChunkBuffer (Some i)
                             match appendTimerRef h with
                             | Some _ => set_appendTimerRef None h
                             | None => h
                             end).
    intros h1 H1. stays. }
  revert Hflushed.
  generalize (with_store (markAsManuallyStopped i)
                (flushChunkBuffer (Some i)
                   match appendTimerRef h with
                   | Some _ => set_appendTimerRef None h
                   | None => h
                   end)).
  intros h1 H1. stays.
Qed.

Lemma handleStopProcessing_stays (o : Outside) (h0 h : Hook) :
  same_conversation h0 h -> same_conversation h0 (handleStopProcessing o h).
Proof.
  intros H. unfold handleStopProcessing.
  destruct (streamingMessageId (store h)) as [i|];
    [|now apply stop_streaming_stays].
  destruct (nonempty i); [|now apply stop_streaming_stays].
  destruct (find_message i (store h)) as [m|]; [|now apply stop_streaming_stays].
  destruct (isStreaming m); [|now apply stop_streaming_stays].
  match goal with |- context [if ?b then _ else _] => destruct b end;
    [now apply stop_repair_stays|now apply stop_streaming_stays].
Qed.

Lemma on_chunk_stays (c : Submission) (now : Z) (answerChunk : string)
  (h0 : Hook) (r : Run) :
  same_conversation h0 (hook r) ->
  same_conversation h0 (hook (fst (on_chunk c now answerChunk r)))
  /\ finalRealConvId (fst (on_chunk c now answerChunk r)) = finalRealConvId r.
Proof.
  intros H. unfold on_chunk, buffer_chunk, flushChunkBuffer.
  split; [stays|hook_simpl; branch_eq; hook_simpl; congruence].
Qed.

Lemma checkStreamingState_stays (o : Outside) (now : Z) (h0 h : Hook) :
  same_conversation h0 h -> same_conversation h0 (checkStreamingState o now h).
Proof. intros H. unfold checkStreamingState. stays. Qed.

Lemma stream_loop_stays (o : Outside) (c : Submission) (h0 : Hook)
  (evs : list StreamEvent) :
  forall r : Run,
    same_conversation h0 (hook r) ->
    same_conversation h0 (hook (fst (stream_loop o c evs r)))
    /\ finalRealConvId (fst (stream_loop o c evs r)) = finalRealConvId r.
Proof.
  induction evs as [|e evs IH]; intros r H; [now split|].
  destruct e as [now answerChunk|now| |difyId dbId|now]; cbn [stream_loop].
  - destruct (on_chunk_stays c now answerChunk h0 r H) as [Hc Hf].
    destruct (snd (on_chunk c now answerChunk r)); [now split|].
    destruct (IH _ Hc) as [Hc' Hf']. split; [exact Hc'|congruence].
  - assert (Ht : same_conversation h0 (hook (on_timer now r))
                 /\ finalRealConvId (on_timer now r) = finalRealConvId r).
    { unfold on_timer. destruct (appendTimerRef (hook r)) as [[|]|];
        try (now split).
      split; [|reflexivity]. hook_simpl. now apply flush_stays. }
    destruct Ht as [Ht Hf]. destruct (IH _ Ht) as [Hc' Hf'].
    split; [exact Hc'|congruence].
  - assert (Hs : same_conversation h0 (hook (on_hook (handleStopProcessing o) r)))
      by (hook_simpl; now apply handleStopProcessing_stays).
    destruct (IH _ Hs) as [Hc' Hf']. split; [exact Hc'|exact Hf'].
  - destruct (onDbId_stays o c dbId h0 r H) as [Hd Hf].
    destruct (IH _ Hd) as [Hc' Hf']. split; [exact Hc'|congruence].
  - assert (Hs : same_conversation h0 (hook (on_hook (checkStreamingState o now) r)))
      by (hook_simpl; now apply checkStreamingState_stays).
    destruct (IH _ Hs) as [Hc' Hf']. split; [exact Hc'|exact Hf'].
Qed.

Lemma completion_phase_stays
  (done : option (Attempt (option CompletionData))) (h0 : Hook) (r : Run) :
  same_conversation h0 (hook r) ->
  same_conversation h0 (hook (completion_phase done r))
  /\ finalRealConvId (completion_phase done r) = finalRealConvId r.
Proof.
  intros H. unfold completion_phase.
  split; [stays|hook_simpl; branch_eq; hook_simpl; congruence].
Qed.

Lemma save_assistant_stays (o : Outside) (i conv : string) (h0 h : Hook) :
  same_conversation h0 h -> same_conversation h0 (save_assistant o i conv h).
Proof. intros H. unfold save_assistant. stays. Qed.

Lemma late_save_stays (o : Outside) (c : Submission) (a : option string)
  (conv : string) (h0 h : Hook) :
  same_conversation h0 h -> same_conversation h0 (late_save o c a conv h).
Proof. intros H. unfold late_save. stays. Qed.

Lemma save_phase_stays (o : Outside) (c : Submission) (h0 : Hook) (r : Run) :
  same_conversation h0 (hook r) ->
  same_conversation h0 (hook (fst (save_phase o c r)))
  /\ finalRealConvId (fst (save_phase o c r)) = finalRealConvId r.
Proof.
  intros H. unfold save_phase.
  split; [|hook_simpl; branch_eq; hook_simpl; congruence].
  hook_simpl; branch; hook_simpl; try apply save_assistant_stays; stays.
Qed.

Lemma finally_block_stays (o : Outside) (c : Submission) (h0 : Hook) (r : Run) :
  same_conversation h0 (hook r) -> same_conversation h0 (finally_block o c r).
Proof. intros H. unfold finally_block. stays. Qed.

Lemma same_id_true (a b : option string) : same_id a b = true -> a = b.
Proof.
  destruct a as [x|], b as [y|]; cbn [same_id]; try discriminate; [|reflexivity].
  intros Hxy. apply String.eqb_eq in Hxy. now subst.
Qed.

Lemma same_id_false (a b : option string) : a <> b -> same_id a b = false.
Proof.
  intros Hab. destruct (same_id a b) eqn:Hsame; [|reflexivity].
  now apply same_id_true in Hsame.
Qed.

(** The new-conversation branch, when the service answers with the
    conversation [conv]. *)
Lemma open_new_records (o : Outside) (sv : Services) (c : Submission) (r : Run)
  (cr : CreationResult) (conv : string) :
  snd (initiateNewConversation sv (basePayloadForNewConversation c)
         (appId c) (userId c)) = Ok cr ->
  creation_error cr = None ->
  realConvId cr = Some conv ->
  conv <> "" ->
  snd (open_new o sv c r)
  = Ok (creation_answerStream cr, creation_completionPromise cr)
  /\ finalRealConvId (fst (open_new o sv c r)) = Some conv
  /\ difyConversationId (hook (fst (open_new o sv c r)))
     = difyConversationId (hook r)
  /\ currentConversationId (store (hook (fst (open_new o sv c r)))) = Some conv.
Proof.
  intros Hanswer Herror Hconv Hne. unfold open_new. cbn zeta.
  rewrite Hanswer, Herror.
  set (r1 := match fst (initiateNewConversation sv (basePayloadForNewConversation c)
                          (appId c) (userId c)) with
             | Some (_, dbId) => onDbId o c dbId _
             | None => _
             end).
  assert (H1 : difyConversationId (hook r1) = difyConversationId (hook r)).
  { subst r1.
    destruct (fst (initiateNewConversation sv (basePayloadForNewConversation c)
                     (appId c) (userId c))) as [[x dbId]|]; [|reflexivity].
    destruct (onDbId_stays o c dbId
                (hook (on_hook (emit (call_initiateNewConversation
                                        (basePayloadForNewConversation c)
                                        (appId c) (userId c))) r))
                _ (conj eq_refl eq_refl)) as [[Hd _] _].
    exact Hd. }
  clearbody r1. rewrite <- H1.
  hook_simpl. rewrite Hconv, (nonempty_true conv Hne).
  set (r2 := if differs_from_path (currentPathname o) conv then _ else _).
  assert (H2 : difyConversationId (hook r2) = difyConversationId (hook r1)
               /\ currentConversationId (store (hook r2)) = Some conv
               /\ finalRealConvId r2 = Some conv).
  { subst r2.
    destruct (differs_from_path (currentPathname o) conv); hook_simpl;
      (destruct (negb (same_id (currentConversationId (store (hook r1))) (Some conv)))
         eqn:Hsame; hook_simpl;
       [now repeat split|]);
      apply negb_false_iff, same_id_true in Hsame; now repeat split. }
  clearbody r2. destruct H2 as (Hd2 & Hc2 & Hf2).
  destruct (lookup_db_id_stays o conv true (hook r2) r2 (conj eq_refl eq_refl))
    as ([Hd3 Hc3] & Hf3 & _).
  set (r3 := lookup_db_id o conv true r2) in *. clearbody r3.
  split; [now destruct (given (finalTaskId r3))|].
  destruct (given (finalTaskId r3)); hook_simpl; repeat split; congruence.
Qed.

Lemma ids_phase_records (o : Outside) (c : Submission) (r : Run) (conv : string) :
  finalRealConvId r = Some conv ->
  conv <> "" ->
  closed_difyConversationId c <> Some conv ->
  difyConversationId (hook (ids_phase o c r)) = Some conv
  /\ currentConversationId (store (hook (ids_phase o c r))) = Some conv
  /\ finalRealConvId (ids_phase o c r) = Some conv.
Proof.
  intros Hconv Hne Hclosed. unfold ids_phase.
  rewrite Hconv, (nonempty_true conv Hne), (same_id_false _ _ Hclosed).
  cbn [negb]. hook_simpl.
  set (r1 := if negb (same_id (currentConversationId (store (hook r))) (Some conv))
             then _ else _).
  assert (H1 : difyConversationId (hook r1) = Some conv
               /\ currentConversationId (store (hook r1)) = Some conv
               /\ finalRealConvId r1 = Some conv).
  { subst r1.
    destruct (negb (same_id (currentConversationId (store (hook r))) (Some conv)))
      eqn:Hsame; hook_simpl; [now repeat split|].
    apply negb_false_iff, same_id_true in Hsame. now repeat split. }
  clearbody r1. destruct H1 as (Hd & Hc & Hf).
  hook_simpl; branch_eq; hook_simpl; repeat split; congruence.
Qed.

Lemma try_block_records (o : Outside) (sv : Services) (c : Submission) (r : Run)
  (cr : CreationResult) (stream : AnswerStream) (conv : string) :
  isNewConversationFlow c = true ->
  snd (initiateNewConversation sv (basePayloadForNewConversation c)
         (appId c) (userId c)) = Ok cr ->
  creation_error cr = None ->
  creation_answerStream cr = Some stream ->
  throws stream = None ->
  realConvId cr = Some conv ->
  conv <> "" ->
  closed_difyConversationId c <> Some conv ->
  snd (fst (try_block o sv c r)) = None
  /\ difyConversationId (hook (fst (fst (try_block o sv c r)))) = Some conv
  /\ currentConversationId (store (hook (fst (fst (try_block o sv c r)))))
     = Some conv.
Proof.
  intros Hnew Hanswer Herror Hstream Hthrows Hconv Hne Hclosed.
  unfold try_block. rewrite Hnew.
  destruct (open_new_records o sv c r cr conv Hanswer Herror Hconv Hne)
    as (Hopened & Hfinal & _ & _).
  set (opened := open_new o sv c r) in *. clearbody opened.
  cbn zeta. rewrite Hopened, Hstream.
  destruct (stream_loop_stays o c (hook (fst opened)) (events stream) (fst opened)
              (conj eq_refl eq_refl)) as [_ Hlooped].
  set (looped := stream_loop o c (events stream) (fst opened)) in *.
  clearbody looped.
  replace (if snd looped then None else throws stream) with (@None Thrown)
    by (rewrite Hthrows; now destruct (snd looped)).
  set (r1 := on_hook (flushChunkBuffer (assistantMessageId (fst looped))) (fst looped)).
  assert (H1 : finalRealConvId r1 = Some conv) by (subst r1; hook_simpl; congruence).
  clearbody r1.
  destruct (completion_phase_stays (snd (creation_answerStream cr,
                                         creation_completionPromise cr))
              (hook r1) r1 (conj eq_refl eq_refl)) as [_ H2].
  cbn [snd] in H2 |- *.
  set (r2 := completion_phase (creation_completionPromise cr) r1) in *.
  clearbody r2.
  destruct (ids_phase_records o c r2 conv) as (Hd & Hc & _);
    [congruence|exact Hne|exact Hclosed|].
  set (r3 := ids_phase o c r2) in *. clearbody r3.
  destruct (save_phase_stays o c (hook r3) r3 (conj eq_refl eq_refl))
    as [[Hd' Hc'] _].
  cbn [fst snd]. split; [reflexivity|]. split; congruence.
Qed.

Lemma complete_records (o : Outside) (sv : Services) (c : Submission) (r : Run)
  (cr : CreationResult) (stream : AnswerStream) (conv : string) :
  isNewConversationFlow c = true ->
  snd (initiateNewConversation sv (basePayloadForNewConversation c)
         (appId c) (userId c)) = Ok cr ->
  creation_error cr = None ->
  creation_answerStream cr = Some stream ->
  throws stream = None ->
  realConvId cr = Some conv ->
  conv <> "" ->
  closed_difyConversationId c <> Some conv ->
  difyConversationId (complete o sv c r) = Some conv
  /\ currentConversationId (store (complete o sv c r)) = Some conv.
Proof.
  intros Hnew Hanswer Herror Hstream Hthrows Hconv Hne Hclosed.
  destruct (try_block_records o sv c r cr stream conv Hnew Hanswer Herror Hstream
              Hthrows Hconv Hne Hclosed) as (Hnothrow & Hd & Hc).
  destruct (try_block_opens o sv c r) as [_ Hlate].
  unfold complete. set (tried := try_block o sv c r) in *. clearbody tried.
  cbn zeta. rewrite Hnothrow.
  destruct (finally_block_stays o c (hook (fst (fst tried))) (fst (fst tried))
              (conj eq_refl eq_refl)) as [Hd1 Hc1].
  destruct (snd tried) as [k|]; [|split; congruence].
  destruct (Hlate k eq_refl) as (b & conv' & ->).
  destruct (late_save_stays o c b conv' (finally_block o c (fst (fst tried)))
              (finally_block o c (fst (fst tried))) (conj eq_refl eq_refl))
    as [Hd2 Hc2].
  split; congruence.
Qed.

(** A first message that goes through leaves the hook and the store in the
    conversation the service opened: when [handleSubmit] treats the
    submission as a new conversation, the service answers with the
    conversation id [conv] and a stream that does not throw, then, whatever
    the stream carries and whether it is stopped, the hook's Dify
    conversation id and the store's current conversation id are both
    [conv] afterwards. *)
Theorem new_conversation_is_recorded
  (o : Outside) (sv : Services) (message' : string)
  (files' : option (list (list (string * JsVal)))) (inputs' : JsVal) (h : Hook)
  (user app conv : string) (cr : CreationResult) (stream : AnswerStream) :
  isSubmittingRef h = false ->
  selectIsProcessing (store h) = false ->
  currentUserId o = Some user ->
  user <> "" ->
  snd (choose_app sv h) = Ok app ->
  (urlIndicatesNew h || negb (given (difyConversationId h)))%bool = true ->
  (forall payload, snd (initiateNewConversation sv payload app user) = Ok cr) ->
  creation_error cr = None ->
  creation_answerStream cr = Some stream ->
  throws stream = None ->
  realConvId cr = Some conv ->
  conv <> "" ->
  difyConversationId h <> Some conv ->
  let h' := handleSubmit o sv message' files' inputs' h in
  difyConversationId h' = Some conv
  /\ currentConversationId (store h') = Some conv.
Proof.
  intros Hfree Hidle Huser Hlogged Happ Hnew Hanswer Herror Hstream Hthrows
    Hconv Hne Hheld h'. subst h'.
  unfold handleSubmit.
  rewrite Hfree, Hidle, Huser, (nonempty_true user Hlogged). cbn zeta.
  rewrite Happ. unfold submit. cbn zeta.
  set (h1 := fst (choose_app sv h)).
  assert (Hsame : urlIndicatesNew h1 = urlIndicatesNew h
                  /\ difyConversationId h1 = difyConversationId h).
  { subst h1. unfold choose_app, urlIndicatesNew.
    repeat match goal with
           | |- context [match ?x with _ => _ end] => destruct x
           end; now split. }
  destruct Hsame as [Hurl Hdify].
  destruct (prepare_builds sv message' files' inputs' user app h1)
    as (_ & Hflow & _ & _ & _ & Huserid & Happid & Hclosed).
  apply (complete_records o sv _ _ cr stream conv); try assumption.
  - now rewrite Hflow, Hurl, Hdify.
  - rewrite Huserid, Happid. apply Hanswer.
  - now rewrite Hclosed, Hdify.
Qed.

(** At work: the first message of a chat is answered from conversation
    [conv-1]. *)
Lemma new_conversation_is_recorded_witness :
  let h' := handleSubmit (outside_at "/chat/new") (streaming_reply hello_stream)
              "hi" None JUndefined (clearConversationState idle_hook) in
  difyConversationId h' = Some "conv-1"
  /\ currentConversationId (store h') = Some "conv-1".
Proof.
  refine (new_conversation_is_recorded
            (outside_at "/chat/new") (streaming_reply hello_stream)
            "hi" None JUndefined (clearConversationState idle_hook)
            "user-1" "app-1" "conv-1" _ _
            eq_refl eq_refl eq_refl _ eq_refl eq_refl (fun _ => eq_refl)
            eq_refl eq_refl eq_refl eq_refl _ _);
    discriminate.
Defined.

End ChatHook.

(* ================================================================== *)
(** * Properties of the chatflow hook *)
(* ================================================================== *)

Section Chatflow.
Import Js ResultType ChatStore ChatInterface ChatflowInterface.

(** ** Files *)

Lemma formatFilesForDify_fields (fs : list (list (string * JsVal))) :
  map fields_read (formatFilesForDify fs) = map fields_read fs.
Proof.
  induction fs as [|file fs IH]; [reflexivity|].
  cbn [formatFilesForDify map] in *. f_equal; [|exact IH].
  now destruct (truthy (lookup_field "upload_file_id" file)).
Qed.

Lemma messageAttachments_fields (fs fs' : list (list (string * JsVal))) :
  map fields_read fs = map fields_read fs' ->
  messageAttachments (Some fs) = messageAttachments (Some fs').
Proof.
  intros Hsame.
  assert (Hmapped :
            map (fun file =>
                   JObj [("id", lookup_field "upload_file_id" file);
                         ("name", lookup_field "name" file);
                         ("size", lookup_field "size" file);
                         ("type", lookup_field "mime_type" file);
                         ("upload_file_id", lookup_field "upload_file_id" file)]) fs
            = map (fun file =>
                   JObj [("id", lookup_field "upload_file_id" file);
                         ("name", lookup_field "name" file);
                         ("size", lookup_field "size" file);
                         ("type", lookup_field "mime_type" file);
                         ("upload_file_id", lookup_field "upload_file_id" file)]) fs').
  { revert fs' Hsame. induction fs as [|f fs IH]; intros [|f' fs'] Hsame;
      try discriminate Hsame; [reflexivity|].
    cbn [map] in *. unfold fields_read at 1 2 in Hsame.
    injection Hsame as Hid Hname Hsize Hmime Hfs.
    rewrite Hid, Hname, Hsize, Hmime. f_equal. now apply IH. }
  destruct fs as [|f fs], fs' as [|f' fs']; try discriminate Hsame;
    [reflexivity|].
  unfold messageAttachments. now rewrite Hmapped.
Qed.

Section SameRequest.
Variables (o : Outside) (sv : Services) (c c' : Submission).
Hypothesis Hsame : same_request c c'.

Ltac agree :=
  destruct Hsame as (Hmessage & Hinputs & Huser & Happ & HuserMessage
                     & Hdify & Hdb & Hnew & Hfiles);
  rewrite ?Hmessage, ?Hinputs, ?Huser, ?Happ, ?HuserMessage, ?Hdify, ?Hdb,
    ?Hnew, ?Hfiles.

Ltac cases known :=
  repeat first
    [ reflexivity
    | progress known
    | match goal with
      | |- context [match ?x with _ => _ end] =>
          lazymatch x with
          | context [match _ with _ => _ end] => fail
          | _ => destruct x
          end
      end ].

Lemma basePayloadForNewConversation_same :
  basePayloadForNewConversation c' = basePayloadForNewConversation c.
Proof. unfold basePayloadForNewConversation, files_entry. agree. reflexivity. Qed.

Lemma difyPayload_same : difyPayload c' = difyPayload c.
Proof. unfold difyPayload, files_entry. agree. reflexivity. Qed.

Lemma onDbId_same (dbId : string) (r : Run) : onDbId o c' dbId r = onDbId o c dbId r.
Proof. unfold onDbId. agree. reflexivity. Qed.

Lemma on_chunk_same (now : Z) (answerChunk : string) (r : Run) :
  on_chunk c' now answerChunk r = on_chunk c now answerChunk r.
Proof. unfold on_chunk. agree. reflexivity. Qed.

Lemma stream_loop_same (evs : list StreamEvent) (r : Run) :
  stream_loop o c' evs r = stream_loop o c evs r.
Proof.
  revert r. induction evs as [|[now answerChunk|now| |s dbId|now] evs IH]; intros r;
    cbn [stream_loop]; rewrite ?on_chunk_same, ?onDbId_same, ?IH; reflexivity.
Qed.

Lemma onConversationId_same (conv : string) (r : Run) :
  onConversationId o c' conv r = onConversationId o c conv r.
Proof. unfold onConversationId. agree. reflexivity. Qed.

Lemma open_new_same (r : Run) : open_new o sv c' r = open_new o sv c r.
Proof.
  unfold open_new. rewrite basePayloadForNewConversation_same. agree.
  cases ltac:(rewrite ?onDbId_same).
Qed.

Lemma open_existing_same (r : Run) : open_existing o sv c' r = open_existing o sv c r.
Proof.
  unfold open_existing. rewrite difyPayload_same. agree.
  cases ltac:(rewrite ?onConversationId_same).
Qed.

Lemma ids_phase_same (r : Run) : ids_phase o c' r = ids_phase o c r.
Proof. unfold ids_phase. agree. reflexivity. Qed.

Lemma late_save_same (a : option string) (conv : string) :
  late_save o c' a conv = late_save o c a conv.
Proof. unfold late_save. agree. reflexivity. Qed.

Lemma save_phase_same (r : Run) : save_phase o c' r = save_phase o c r.
Proof.
  unfold save_phase.
  assert (Hlate : forall a conv, late_save o c' a conv = late_save o c a conv)
    by apply late_save_same.
  agree. cases ltac:(rewrite ?Hlate).
Qed.

Lemma catch_block_same (t : Thrown) (r : Run) :
  catch_block o c' t r = catch_block o c t r.
Proof. unfold catch_block. agree. reflexivity. Qed.

Lemma finally_block_same (r : Run) : finally_block o c' r = finally_block o c r.
Proof. unfold finally_block. agree. reflexivity. Qed.

Lemma try_block_same (r : Run) : try_block o sv c' r = try_block o sv c r.
Proof.
  unfold try_block. rewrite open_new_same, open_existing_same.
  assert (Hnew : isNewConversationFlow c' = isNewConversationFlow c)
    by apply Hsame.
  rewrite Hnew.
  cases ltac:(rewrite ?stream_loop_same, ?ids_phase_same, ?save_phase_same).
Qed.

Lemma complete_same (r : Run) : complete o sv c' r = complete o sv c r.
Proof.
  unfold complete. rewrite try_block_same.
  cases ltac:(rewrite ?catch_block_same, ?finally_block_same).
Qed.

End SameRequest.

Lemma prepare_reads_fields (sv : Services) (message' : string)
  (fs fs' : list (list (string * JsVal))) (inputs' : JsVal)
  (user app : string) (h : Hook) :
  map fields_read fs = map fields_read fs' ->
  snd (prepare sv message' (Some fs') inputs' user app h)
  = snd (prepare sv message' (Some fs) inputs' user app h)
  /\ same_request (fst (prepare sv message' (Some fs) inputs' user app h))
       (fst (prepare sv message' (Some fs') inputs' user app h)).
Proof.
  intros Hfields.
  pose proof (messageAttachments_fields fs fs' Hfields) as Hattached.
  assert (Hsent :
            map (fun file =>
                   JObj [("type", JStr "document");
                         ("transfer_method", JStr "local_file");
                         ("upload_file_id", lookup_field "upload_file_id" file)]) fs'
            = map (fun file =>
                   JObj [("type", JStr "document");
                         ("transfer_method", JStr "local_file");
                         ("upload_file_id", lookup_field "upload_file_id" file)]) fs).
  { clear Hattached. revert fs' Hfields.
    induction fs as [|f fs IH]; intros [|f' fs'] Hfields;
      try discriminate Hfields; [reflexivity|].
    cbn [map] in *. unfold fields_read at 1 2 in Hfields.
    injection Hfields as Hid _ _ _ Hfs.
    rewrite Hid. f_equal. now apply IH. }
  unfold prepare, user_message, same_request. rewrite Hattached.
  cbn [fst snd message inputs userId appId userMessage closed_difyConversationId
       closed_dbConversationUUID isNewConversationFlow].
  repeat split.
  unfold difyFiles. cbn [files].
  destruct fs as [|f fs], fs' as [|f' fs']; try discriminate Hfields;
    [reflexivity|].
  now rewrite Hsent.
Qed.

Lemma handleSubmit_reads_fields (o : Outside) (sv : Services) (message' : string)
  (fs fs' : list (list (string * JsVal))) (inputs' : JsVal) (h : Hook) :
  map fields_read fs = map fields_read fs' ->
  handleSubmit o sv message' (Some fs') inputs' h
  = handleSubmit o sv message' (Some fs) inputs' h.
Proof.
  intros Hfields. unfold handleSubmit, submit.
  destruct (isSubmittingRef h); [reflexivity|].
  destruct (selectIsProcessing (store h)); [reflexivity|].
  destruct (currentUserId o) as [user|]; [|reflexivity].
  destruct (nonempty user); [|reflexivity].
  cbn zeta. destruct (snd (choose_app sv h)) as [app|t]; [|reflexivity].
  destruct (prepare_reads_fields sv message' fs fs' inputs' user app
              (fst (choose_app sv h)) Hfields) as [Hrun Hrequest].
  rewrite Hrun. now apply complete_same.
Qed.

Lemma formatFilesForDify_again (fs : list (list (string * JsVal))) :
  formatFilesForDify (formatFilesForDify fs) = formatFilesForDify fs.
Proof.
  unfold formatFilesForDify. rewrite map_map. apply map_ext. intros file.
  destruct (truthy (lookup_field "upload_file_id" file)) eqn:Hid;
    [|now rewrite Hid].
  cbn. rewrite Hid. unfold js_or.
  now destruct (truthy (lookup_field "type" file)) eqn:Htype; cbn; rewrite ?Htype.
Qed.

(** The chat hook after [handleChatflowSubmit] is what [handleSubmit] makes
    of the same query, inputs and files, unformatted: [formatFilesForDify]
    changes nothing [handleSubmit] reads.  [handleSubmit] reads four fields
    of a file ([upload_file_id], [name], [size], [mime_type]) and no other,
    so the [type] a file carries makes no difference.  The function calls
    [startExecution] once, and formatting files twice is formatting them
    once. *)
Theorem handleChatflowSubmit_submits_the_files_unchanged
  (o : Outside) (sv : Services) (query : string) (inputs' : JsVal) :
  (forall files' s,
      chatInterface (handleChatflowSubmit o sv query inputs' files' s)
      = handleSubmit o sv query files' inputs' (chatInterface s)
      /\ tracker (handleChatflowSubmit o sv query inputs' files' s)
         = tracker s ++ [call_startExecution])
  /\ (forall fs fs' h,
         map fields_read fs = map fields_read fs' ->
         handleSubmit o sv query (Some fs') inputs' h
         = handleSubmit o sv query (Some fs) inputs' h)
  /\ (forall fs, map fields_read (formatFilesForDify fs) = map fields_read fs)
  /\ (forall fs, formatFilesForDify (formatFilesForDify fs) = formatFilesForDify fs).
Proof.
  split; [|split; [|split]].
  - intros [fs|] s; (split; [|reflexivity]);
      unfold handleChatflowSubmit, formatChatflowMessage; cbn [chatInterface];
      [|reflexivity].
    apply handleSubmit_reads_fields. symmetry. apply formatFilesForDify_fields.
  - intros fs fs' h. apply handleSubmit_reads_fields.
  - apply formatFilesForDify_fields.
  - apply formatFilesForDify_again.
Qed.

(** At work: a file sent as an image and the same file without a type are
    the same submission. *)
Lemma handleChatflowSubmit_submits_the_files_unchanged_witness :
  handleSubmit (outside_at "/chat/conv-1") (streaming_reply hello_stream) "hi"
    (Some [[("upload_file_id", JStr "file-1"); ("name", JStr "cat.png")]])
    JUndefined idle_hook
  = handleSubmit (outside_at "/chat/conv-1") (streaming_reply hello_stream) "hi"
      (Some [[("type", JStr "image"); ("upload_file_id", JStr "file-1");
              ("name", JStr "cat.png")]])
      JUndefined idle_hook.
Proof.
  apply (proj1 (proj2 (handleChatflowSubmit_submits_the_files_unchanged
                         (outside_at "/chat/conv-1") (streaming_reply hello_stream)
                         "hi" JUndefined))).
  reflexivity.
Defined.

(** ** Form data *)

Lemma extract_items (items acc : list JsVal) :
  fold_left (fun files item => if looks_like_file item then files ++ [item] else files)
    items acc
  = acc ++ filter looks_like_file items.
Proof.
  revert acc. induction items as [|item items IH]; intros acc; cbn [fold_left filter].
  - now rewrite app_nil_r.
  - rewrite IH. destruct (looks_like_file item); [|reflexivity].
    now rewrite <- app_assoc.
Qed.

Lemma extract_from (values acc : list JsVal) :
  fold_left
    (fun files value =>
       match value with
       | JArr items =>
           fold_left
             (fun files item =>
                if looks_like_file item then files ++ [item] else files)
             items files
       | _ => if looks_like_file value then files ++ [value] else files
       end)
    values acc
  = acc ++ flat_map file_values values.
Proof.
  revert acc. induction values as [|value values IH]; intros acc;
    cbn [fold_left flat_map]; [now rewrite app_nil_r|].
  rewrite IH, app_assoc. f_equal.
  destruct value; cbn [file_values]; try apply extract_items;
    now destruct (looks_like_file _); rewrite ?app_nil_r.
Qed.

Lemma extract_values (fd : list (string * JsVal)) :
  extractFilesFromFormData fd = flat_map file_values (map snd fd).
Proof. unfold extractFilesFromFormData. now rewrite extract_from. Qed.

(** A value holds a file: the test of [getFormDataSummary]. *)
Lemma holds_file (value : JsVal) :
  Nat.ltb 0 (List.length (file_values value))
  = match value with
    | JArr items => existsb looks_like_file items
    | _ => looks_like_file value
    end.
Proof.
  destruct value as [ | | b | z | s | items | fields ]; cbn [file_values];
    try (now destruct (looks_like_file _)).
  induction items as [|item items IH]; [reflexivity|].
  cbn [filter existsb]. destruct (looks_like_file item); [reflexivity|exact IH].
Qed.

Lemma holds_file_filled (value : JsVal) :
  Nat.ltb 0 (List.length (file_values value)) = true -> filled value = true.
Proof. now destruct value as [ | | b | z | [|a s] | items | fields ]. Qed.

Lemma summary_from (fd : list (string * JsVal)) (fields : list string) (flag : bool) :
  fold_left
    (fun (state : list string * bool) (entry : string * JsVal) =>
       let (key, value) := entry in
       if filled value then
         (fst state ++ [key],
          match value with
          | JArr items =>
              if existsb looks_like_file items then true else snd state
          | _ => if looks_like_file value then true else snd state
          end)
       else state)
    fd (fields, flag)
  = (fields ++ map fst (filter (fun entry => filled (snd entry)) fd),
     (flag || Nat.ltb 0 (List.length (flat_map file_values (map snd fd))))%bool).
Proof.
  revert fields flag. induction fd as [|[key value] fd IH]; intros fields flag;
    cbn [fold_left map filter flat_map snd fst].
  - now rewrite app_nil_r, orb_false_r.
  - rewrite length_app.
    assert (Hlength :
              Nat.ltb 0 (List.length (file_values value)
                         + List.length (flat_map file_values (map snd fd)))
              = (Nat.ltb 0 (List.length (file_values value))
                 || Nat.ltb 0 (List.length (flat_map file_values (map snd fd))))%bool).
    { destruct (List.length (file_values value)); [reflexivity|].
      reflexivity. }
    rewrite Hlength.
    destruct (filled value) eqn:Hfilled.
    + rewrite IH. cbn [map fst]. rewrite <- app_assoc. cbn [app]. f_equal.
      rewrite orb_assoc. f_equal. rewrite holds_file.
      destruct value as [ | | b | z | s | items | fs ];
        try (now destruct (looks_like_file _); rewrite ?orb_true_r, ?orb_false_r).
      now destruct (existsb looks_like_file items);
        rewrite ?orb_true_r, ?orb_false_r.
    + rewrite IH. f_equal. f_equal.
      destruct (Nat.ltb 0 (List.length (file_values value))) eqn:Hfile;
        [|reflexivity].
      apply holds_file_filled in Hfile. congruence.
Qed.

(** [getFormDataSummary] and [hasFilesInFormData] agree on whether a form
    holds files, although one walks the non-empty fields and the other all
    of them.  The summary lists the keys of the fields that are neither
    [null], [undefined] nor the empty string, in the order of the form, and
    counts them; a form that holds files has such a field.  What
    [extractFilesFromFormData] returns are the objects with a truthy [file]
    or [name] that are the value of a field or an item of an array field. *)
Theorem getFormDataSummary_agrees_with_hasFilesInFormData
  (formData : list (string * JsVal)) :
  hasFiles (getFormDataSummary formData) = hasFilesInFormData formData
  /\ nonEmptyFields (getFormDataSummary formData)
     = map fst (filter (fun entry => filled (snd entry)) formData)
  /\ fieldCount (getFormDataSummary formData)
     = List.length (nonEmptyFields (getFormDataSummary formData))
  /\ fieldCount (getFormDataSummary formData) <= List.length formData
  /\ (hasFilesInFormData formData = true ->
      0 < fieldCount (getFormDataSummary formData))
  /\ (forall v,
         In v (extractFilesFromFormData formData)
         <-> (exists fields,
                 v = JObj fields
                 /\ truthy (js_or (lookup_field "file" fields)
                                  (lookup_field "name" fields)) = true)
             /\ exists key value,
                 In (key, value) formData
                 /\ (value = v \/ exists items, value = JArr items /\ In v items)).
Proof.
  unfold getFormDataSummary, hasFilesInFormData.
  rewrite summary_from, extract_values.
  cbn [fieldCount hasFiles nonEmptyFields fst snd app orb].
  split; [reflexivity|]. split; [reflexivity|]. split; [reflexivity|].
  split; [|split].
  - rewrite length_map. apply filter_length_le.
  - rewrite length_map. induction formData as [|[key value] fd IH];
      cbn [map flat_map filter snd]; [discriminate|].
    rewrite length_app. intros Hfiles.
    destruct (filled value) eqn:Hfilled; [cbn [List.length]; lia|].
    destruct (Nat.ltb 0 (List.length (file_values value))) eqn:Hfile.
    + apply holds_file_filled in Hfile. congruence.
    + apply Nat.ltb_ge in Hfile. apply IH.
      replace (List.length (file_values value)) with 0 in Hfiles by lia.
      exact Hfiles.
  - assert (Hlooks : forall v,
               looks_like_file v = true
               <-> exists fields,
                   v = JObj fields
                   /\ truthy (js_or (lookup_field "file" fields)
                                    (lookup_field "name" fields)) = true).
    { intros v. split.
      - destruct v as [ | | b | z | s | items | fields ]; intros Hv;
          try discriminate Hv; try (now destruct b);
          try (unfold looks_like_file in Hv; cbn in Hv;
               rewrite ?andb_false_r in Hv; discriminate Hv).
        now exists fields.
      - now intros (fields & -> & Hfields). }
    intros v. rewrite in_flat_map. split.
    + intros (value & Hvalue & Hv). apply in_map_iff in Hvalue as ([key value'] & <- & Hentry).
      cbn [snd] in Hv.
      destruct value' as [ | | b | z | s | items | fields ]; cbn [file_values] in Hv;
        try (destruct (looks_like_file _) eqn:Hfile in Hv; [|destruct Hv];
             destruct Hv as [<-|[]];
             split; [now apply Hlooks|]; eexists; eexists; split; [exact Hentry|now left]).
      apply filter_In in Hv as [Hitem Hfile].
      split; [now apply Hlooks|].
      exists key, (JArr items). split; [exact Hentry|]. right. now exists items.
    + intros (Hfile & key & value & Hentry & Hvalue). apply Hlooks in Hfile.
      exists value. split; [apply in_map_iff; now exists (key, value)|].
      destruct Hvalue as [->|(items & -> & Hitem)].
      * destruct v as [ | | b | z | s | items | fields ]; cbn [file_values];
          try discriminate Hfile; try (rewrite Hfile; now left).
      * cbn [file_values]. apply filter_In. now split.
Qed.

(** At work: a form with an empty field and an uploaded document. *)
Lemma getFormDataSummary_agrees_with_hasFilesInFormData_witness :
  0 < fieldCount
        (getFormDataSummary
           [("question", JStr "");
            ("report", JArr [JObj [("name", JStr "report.pdf")]])]).
Proof.
  apply (proj1 (proj2 (proj2 (proj2 (proj2
           (getFormDataSummary_agrees_with_hasFilesInFormData
              [("question", JStr "");
               ("report", JArr [JObj [("name", JStr "report.pdf")]])])))))).
  reflexivity.
Defined.

End Chatflow.

(* ================================================================== *)
(** * Properties of the result viewer *)
(* ================================================================== *)

Section ThinkBlocks.
Import Js ResultViewer.

Lemma string_length_append (a b : string) :
  String.length (a ++ b) = String.length a + String.length b.
Proof. induction a as [|c a IH]; cbn [append String.length]; [reflexivity|now rewrite IH]. Qed.

Lemma substring_skip (u v : string) (n : nat) :
  String.substring (String.length u) n (u ++ v) = String.substring 0 n v.
Proof. induction u as [|c u IH]; [reflexivity|exact IH]. Qed.

Lemma prefix_splits (p s : string) :
  String.prefix p s = true -> exists post, s = (p ++ post)%string.
Proof.
  revert s. induction p as [|a p IH]; intros s Hp.
  - now exists s.
  - destruct s as [|b s]; [discriminate Hp|]. cbn [String.prefix] in Hp.
    destruct (ascii_dec a b) as [->|]; [|discriminate Hp].
    destruct (IH s Hp) as [post ->]. now exists post.
Qed.

Lemma prefix_longer (p u y : string) :
  String.prefix p u = true -> String.prefix p (u ++ y) = true.
Proof.
  intros Hp. destruct (prefix_splits p u Hp) as [post ->].
  rewrite append_assoc. apply prefix_append.
Qed.

(** A pattern none of whose characters is [a] does not match across the
    point where an [a] follows. *)
Lemma no_match_across (a : ascii) (q pre rest : string) :
  includes q (String a "") = false ->
  String.prefix q pre = false ->
  String.prefix q (pre ++ String a rest) = false.
Proof.
  revert q. induction pre as [|c pre IH]; intros q Hfresh Hq.
  - destruct q as [|b q]; [discriminate Hq|].
    apply includes_cons in Hfresh as [Hb _].
    cbn [append String.prefix].
    destruct (ascii_dec b a) as [->|]; [|reflexivity].
    now rewrite Ascii.eqb_refl in Hb.
  - destruct q as [|b q]; [discriminate Hq|].
    apply includes_cons in Hfresh as [_ Hfresh].
    cbn [append String.prefix] in *.
    destruct (ascii_dec b c); [|reflexivity]. now apply IH.
Qed.

Lemma index_found (a : ascii) (p pre x : string) :
  includes p (String a "") = false ->
  includes pre (String a p) = false ->
  String.index 0 (String a p) (pre ++ String a p ++ x) = Some (String.length pre).
Proof.
  intros Hfresh. induction pre as [|c pre IH]; intros Hpre.
  - pose proof (prefix_append (String a p) x) as Hhere.
    cbn [append String.length String.index] in *. now rewrite Hhere.
  - cbn [includes] in Hpre. apply orb_false_iff in Hpre as [Hhead Hpre].
    specialize (IH Hpre).
    assert (Hnow : String.prefix (String a p) (String c (pre ++ String a p ++ x)) = false).
    { cbn [String.prefix] in *. destruct (ascii_dec a c); [|reflexivity].
      cbn [append]. now apply no_match_across. }
    set (y := (String a p ++ x)%string) in *.
    cbn [append String.length String.index]. now rewrite Hnow, IH.
Qed.

Lemma index_missing (a : ascii) (p s : string) :
  includes s (String a p) = false -> String.index 0 (String a p) s = None.
Proof.
  induction s as [|c s IH]; intros Hs; [reflexivity|].
  cbn [includes] in Hs. apply orb_false_iff in Hs as [Hhead Hs].
  cbn [String.index]. now rewrite Hhead, (IH Hs).
Qed.

Lemma index_skip (p pre y : string) :
  String.index (String.length pre) p (pre ++ y)
  = option_map (Nat.add (String.length pre)) (String.index 0 p y).
Proof.
  induction pre as [|c pre IH]; cbn [append String.length String.index].
  - now destruct (String.index 0 p y).
  - rewrite IH. now destruct (String.index 0 p y).
Qed.

Lemma includes_splits (a : ascii) (p s : string) :
  includes s (String a p) = true ->
  exists pre post,
    s = (pre ++ String a p ++ post)%string /\ includes pre (String a p) = false.
Proof.
  induction s as [|c s IH]; intros Hs; [discriminate Hs|].
  destruct (String.prefix (String a p) (String c s)) eqn:Hhead.
  - destruct (prefix_splits _ _ Hhead) as [post Hpost].
    exists "", post. now split.
  - cbn [includes] in Hs. rewrite Hhead in Hs.
    destruct (IH Hs) as (pre & post & -> & Hpre).
    exists (String c pre), post. split; [reflexivity|].
    cbn [includes]. rewrite Hpre, orb_false_r.
    destruct (String.prefix (String a p) (String c pre)) eqn:Hshort; [|reflexivity].
    apply (prefix_longer _ _ (String a p ++ post)) in Hshort.
    cbn [append] in Hshort, Hhead. congruence.
Qed.

Lemma includes_after (pre p y : string) : includes (pre ++ p ++ y) p = true.
Proof.
  induction pre as [|c pre IH].
  - cbn [append]. apply includes_prefix. apply prefix_append.
  - cbn [append includes]. rewrite IH. apply orb_true_r.
Qed.

Lemma clamp_inside (u v : string) :
  clamp (u ++ v) (Z.of_nat (String.length u)) = String.length u.
Proof. unfold clamp. rewrite string_length_append. lia. Qed.

Lemma indexOf_found (a : ascii) (p u pre x : string) :
  includes p (String a "") = false ->
  includes pre (String a p) = false ->
  indexOf (u ++ pre ++ String a p ++ x) (String a p) (Z.of_nat (String.length u))
  = Z.of_nat (String.length u + String.length pre).
Proof.
  intros Hfresh Hpre. unfold indexOf.
  now rewrite clamp_inside, index_skip, index_found.
Qed.

Lemma indexOf_missing (a : ascii) (p u s : string) :
  includes s (String a p) = false ->
  indexOf (u ++ s) (String a p) (Z.of_nat (String.length u)) = (-1)%Z.
Proof.
  intros Hs. unfold indexOf. now rewrite clamp_inside, index_skip, index_missing.
Qed.

Lemma js_substring_middle (u m v : string) :
  js_substring (u ++ m ++ v) (Z.of_nat (String.length u))
    (Some (Z.of_nat (String.length u + String.length m)))
  = m.
Proof.
  unfold js_substring. rewrite clamp_inside.
  replace (clamp (u ++ m ++ v) (Z.of_nat (String.length u + String.length m)))
    with (String.length u + String.length m)
    by (unfold clamp; rewrite !string_length_append; lia).
  replace (Nat.min _ _) with (String.length u) by lia.
  replace (Nat.max _ _ - _) with (String.length m) by lia.
  rewrite substring_skip. apply substring_prefix.
Qed.

Lemma js_substring_tail (u v : string) :
  js_substring (u ++ v) (Z.of_nat (String.length u)) None = v.
Proof.
  unfold js_substring. rewrite clamp_inside, string_length_append.
  replace (Nat.min _ _) with (String.length u) by lia.
  replace (Nat.max _ _ - _) with (String.length v) by lia.
  rewrite substring_skip. apply substring_all.
Qed.

Lemma no_end_in_start (t : string) :
  includes t thinkEndTag = false -> includes (thinkStartTag ++ t) thinkEndTag = false.
Proof. intros Ht. unfold thinkStartTag. cbn. exact Ht. Qed.

Lemma complete_block (pre t rest : string) :
  includes pre thinkStartTag = false ->
  includes t thinkEndTag = false ->
  parseThinkContent (pre ++ thinkStartTag ++ t ++ thinkEndTag ++ rest)
  = {| hasThinkBlock := true;
       thinkContent := trim t;
       mainContent := trim rest;
       isThinkComplete := true |}.
Proof.
  intros Hpre Ht.
  remember (pre ++ thinkStartTag ++ t ++ thinkEndTag ++ rest)%string as content
    eqn:Hcontent.
  assert (Hstart : indexOf content thinkStartTag 0 = Z.of_nat (String.length pre)).
  { subst content.
    exact (indexOf_found "<" "think>" "" pre (t ++ thinkEndTag ++ rest)
             eq_refl Hpre). }
  assert (Hend : indexOf content thinkEndTag (Z.of_nat (String.length pre))
                 = Z.of_nat (String.length pre
                             + String.length (thinkStartTag ++ t))).
  { subst content.
    replace (pre ++ thinkStartTag ++ t ++ thinkEndTag ++ rest)%string
      with (pre ++ (thinkStartTag ++ t) ++ thinkEndTag ++ rest)%string
      by now rewrite append_assoc.
    exact (indexOf_found "<" "/think>" pre (thinkStartTag ++ t) rest
             eq_refl (no_end_in_start t Ht)). }
  assert (Hthink :
            js_substring content
              (Z.of_nat (String.length pre) + Z.of_nat (String.length thinkStartTag))
              (Some (Z.of_nat (String.length pre
                               + String.length (thinkStartTag ++ t))))
            = t).
  { subst content.
    replace (pre ++ thinkStartTag ++ t ++ thinkEndTag ++ rest)%string
      with ((pre ++ thinkStartTag) ++ t ++ thinkEndTag ++ rest)%string
      by now rewrite append_assoc.
    replace (Z.of_nat (String.length pre) + Z.of_nat (String.length thinkStartTag))%Z
      with (Z.of_nat (String.length (pre ++ thinkStartTag)))
      by (rewrite string_length_append; lia).
    replace (String.length pre + String.length (thinkStartTag ++ t))
      with (String.length (pre ++ thinkStartTag) + String.length t)
      by (rewrite !string_length_append; lia).
    apply js_substring_middle. }
  assert (Hmain :
            js_substring content
              (Z.of_nat (String.length pre + String.length (thinkStartTag ++ t))
               + Z.of_nat (String.length thinkEndTag))
              None
            = rest).
  { subst content.
    replace (pre ++ thinkStartTag ++ t ++ thinkEndTag ++ rest)%string
      with ((pre ++ thinkStartTag ++ t ++ thinkEndTag) ++ rest)%string
      by now rewrite !append_assoc.
    replace (Z.of_nat (String.length pre + String.length (thinkStartTag ++ t))
             + Z.of_nat (String.length thinkEndTag))%Z
      with (Z.of_nat (String.length (pre ++ thinkStartTag ++ t ++ thinkEndTag)))
      by (rewrite !string_length_append; lia).
    apply js_substring_tail. }
  unfold parseThinkContent.
  replace (includes content thinkStartTag) with true
    by (subst content; symmetry; apply includes_after).
  cbv zeta. rewrite Hstart, Hend, Hthink, Hmain.
  destruct (Z.eqb_spec
              (Z.of_nat (String.length pre + String.length (thinkStartTag ++ t)))
              (-1)) as [Hminus|_]; [lia|reflexivity].
Qed.

Lemma open_block (pre t : string) :
  includes pre thinkStartTag = false ->
  includes t thinkEndTag = false ->
  parseThinkContent (pre ++ thinkStartTag ++ t)
  = {| hasThinkBlock := true;
       thinkContent := trim t;
       mainContent := "";
       isThinkComplete := false |}.
Proof.
  intros Hpre Ht.
  remember (pre ++ thinkStartTag ++ t)%string as content eqn:Hcontent.
  assert (Hstart : indexOf content thinkStartTag 0 = Z.of_nat (String.length pre)).
  { subst content.
    exact (indexOf_found "<" "think>" "" pre t eq_refl Hpre). }
  assert (Hend : indexOf content thinkEndTag (Z.of_nat (String.length pre)) = (-1)%Z).
  { subst content.
    exact (indexOf_missing "<" "/think>" pre (thinkStartTag ++ t)
             (no_end_in_start t Ht)). }
  assert (Hthink :
            js_substring content
              (Z.of_nat (String.length pre) + Z.of_nat (String.length thinkStartTag))
              None
            = t).
  { subst content.
    replace (pre ++ thinkStartTag ++ t)%string
      with ((pre ++ thinkStartTag) ++ t)%string by now rewrite append_assoc.
    replace (Z.of_nat (String.length pre) + Z.of_nat (String.length thinkStartTag))%Z
      with (Z.of_nat (String.length (pre ++ thinkStartTag)))
      by (rewrite string_length_append; lia).
    apply js_substring_tail. }
  unfold parseThinkContent.
  replace (includes content thinkStartTag) with true
    by (subst content; symmetry; apply includes_after).
  cbv zeta. rewrite Hstart, Hend, Hthink. reflexivity.
Qed.

(** [parseThinkContent] splits a text at its first [<think>] and at the
    first [</think>] after it: the thoughts are what stands between the
    two, the answer is what follows the closing tag, both trimmed, and
    what stands before the opening tag is dropped.  A block that is not
    closed takes the rest of the text and leaves the answer empty; a text
    without [<think>] is the answer, untrimmed.  Every text is of one of
    the three kinds. *)
Theorem parseThinkContent_splits_at_the_first_block :
  (forall content,
      includes content thinkStartTag = false ->
      parseThinkContent content
      = {| hasThinkBlock := false;
           thinkContent := "";
           mainContent := content;
           isThinkComplete := true |})
  /\ (forall pre t rest,
         includes pre thinkStartTag = false ->
         includes t thinkEndTag = false ->
         parseThinkContent (pre ++ thinkStartTag ++ t ++ thinkEndTag ++ rest)
         = {| hasThinkBlock := true;
              thinkContent := trim t;
              mainContent := trim rest;
              isThinkComplete := true |})
  /\ (forall pre t,
         includes pre thinkStartTag = false ->
         includes t thinkEndTag = false ->
         parseThinkContent (pre ++ thinkStartTag ++ t)
         = {| hasThinkBlock := true;
              thinkContent := trim t;
              mainContent := "";
              isThinkComplete := false |})
  /\ (forall content,
         includes content thinkStartTag = false
         \/ (exists pre t rest,
                content = (pre ++ thinkStartTag ++ t ++ thinkEndTag ++ rest)%string
                /\ includes pre thinkStartTag = false
                /\ includes t thinkEndTag = false)
         \/ (exists pre t,
                content = (pre ++ thinkStartTag ++ t)%string
                /\ includes pre thinkStartTag = false
                /\ includes t thinkEndTag = false)).
Proof.
  split; [|split; [|split]].
  - intros content Hnone. unfold parseThinkContent. now rewrite Hnone.
  - apply complete_block.
  - apply open_block.
  - intros content.
    destruct (includes content thinkStartTag) eqn:Hstart; [right|now left].
    destruct (includes_splits "<" "think>" content Hstart)
      as (pre & post & -> & Hpre).
    destruct (includes post thinkEndTag) eqn:Hend.
    + left. destruct (includes_splits "<" "/think>" post Hend)
        as (t & rest & -> & Ht).
      now exists pre, t, rest.
    + right. now exists pre, post.
Qed.

(** At work: an answer that opens with remarks and a block of thoughts,
    set off by an ideographic space, a line break and a no-break space. *)
Lemma parseThinkContent_splits_at_the_first_block_witness :
  parseThinkContent
    ("Note. <think>" ++ ideographic_space ++ "2 + 2 </think>"
     ++ String (ascii_of_nat 10) "It is 4." ++ no_break_space)%string
  = {| hasThinkBlock := true;
       thinkContent := "2 + 2";
       mainContent := "It is 4.";
       isThinkComplete := true |}.
Proof.
  exact (proj1 (proj2 parseThinkContent_splits_at_the_first_block)
           "Note. " (ideographic_space ++ "2 + 2 ")%string
           (String (ascii_of_nat 10) "It is 4." ++ no_break_space)%string
           eq_refl eq_refl).
Defined.

End ThinkBlocks.
